(** * EPD ingestion pipeline: a shallow embedding of
      [scripts/database/02_store_epds_in_db.py]

    The development follows the script top-down.  Python objects obtained
    from [json.load] are values of [pyval]; functions that can raise return
    in the [result] monad; the PostgreSQL connection is an explicit
    [database] value that every statement transforms.

    Strings.  A Python [str] is modelled as a [string] whose characters are
    the code points 0..255 (the Latin-1 range, which holds the German and
    English text of the EPD dialect).  Case mapping, white space and the
    word class of the [re] module are the Unicode ones restricted to that
    range. *)

From Stdlib Require Import ZArith List String Ascii Bool Lia Permutation.
From Stdlib Require Import SpecFloat DecimalString.
Import ListNotations.

Set Warnings "-register-all".

Local Open Scope Z_scope.
Local Open Scope string_scope.
Local Open Scope list_scope.

(* ================================================================== *)
(** ** Python objects and exceptions *)

Module Py.

(** The exception classes the script can meet. *)
Inductive exn : Type :=
| KeyError | TypeError | ValueError | AttributeError | IndexError
| OverflowError | OSError | DatabaseError.

Inductive result (A : Type) : Type :=
| Ok (a : A)
| Raise (e : exn).
Arguments Ok {A} a.
Arguments Raise {A} e.

Definition bind {A B} (m : result A) (k : A -> result B) : result B :=
  match m with
  | Ok a => k a
  | Raise e => Raise e
  end.

Definition is_ok {A} (m : result A) : bool :=
  match m with Ok _ => true | Raise _ => false end.

(** A Python float is an IEEE binary64 number. *)
Definition float := spec_float.
Definition prec := 53%Z.
Definition emax := 1024%Z.

(** What [json.load] builds: [None], [bool], [int], [float], [str], [list]
    and [dict].  A dict keeps its items in insertion order. *)
Inductive pyval : Type :=
| PNone
| PBool (b : bool)
| PInt (z : Z)
| PFloat (f : float)
| PStr (s : string)
| PList (l : list pyval)
| PDict (d : list (pyval * pyval)).

Definition dict := list (pyval * pyval).

(** *** Numbers *)

(** [x == z] for a float [x] and an int [z]: Python compares the exact
    values. *)
Definition float_eq_Z (f : float) (z : Z) : bool :=
  match f with
  | S754_zero _ => Z.eqb z 0
  | S754_finite s m e =>
      let sm := if s then Z.neg m else Z.pos m in
      if (0 <=? e)%Z then Z.eqb z (sm * 2 ^ e)
      else Z.eqb (z * 2 ^ (- e)) sm
  | _ => false
  end.

Definition Z_of_bool (b : bool) : Z := if b then 1 else 0.

(** Equality of hashable values, as [dict] uses it for keys and [==] for
    scalars: [True == 1 == 1.0], a [str] equals only the same [str]. *)
Definition key_eqb (a b : pyval) : bool :=
  match a, b with
  | PNone, PNone => true
  | PStr s, PStr t => String.eqb s t
  | PBool x, PBool y => Bool.eqb x y
  | PBool x, PInt z | PInt z, PBool x => Z.eqb (Z_of_bool x) z
  | PInt x, PInt y => Z.eqb x y
  | PFloat f, PInt z | PInt z, PFloat f => float_eq_Z f z
  | PFloat f, PBool x | PBool x, PFloat f => float_eq_Z f (Z_of_bool x)
  | PFloat f, PFloat g => SFeqb f g
  | _, _ => false
  end.

Definition hashable (v : pyval) : bool :=
  match v with
  | PList _ | PDict _ => false
  | _ => true
  end.

(** *** Dictionaries (insertion-ordered) *)

(** The dicts the script builds hold objects or small records; [V] is the
    type of the values. *)
Fixpoint dict_lookup {V : Type} (k : pyval) (d : list (pyval * V)) : option V :=
  match d with
  | [] => None
  | (k', v) :: r => if key_eqb k' k then Some v else dict_lookup k r
  end.

(** [d[k] = v]: an existing key keeps its position (and its key object),
    a new key goes last. *)
Fixpoint dict_set {V : Type} (k : pyval) (v : V) (d : list (pyval * V))
  : list (pyval * V) :=
  match d with
  | [] => [(k, v)]
  | (k', v') :: r =>
      if key_eqb k' k then (k', v) :: r else (k', v') :: dict_set k v r
  end.

Definition dict_keys (d : dict) : list pyval := map fst d.
Definition dict_values (d : dict) : list pyval := map snd d.

(** [==] on arbitrary objects.  Lists compare element-wise, dicts as
    finite maps. *)
Fixpoint py_eq (a b : pyval) {struct a} : bool :=
  match a, b with
  | PList l1, PList l2 =>
      (fix go (l1 l2 : list pyval) {struct l1} : bool :=
         match l1, l2 with
         | [], [] => true
         | x :: xs, y :: ys => py_eq x y && go xs ys
         | _, _ => false
         end) l1 l2
  | PDict d1, PDict d2 =>
      Nat.eqb (List.length d1) (List.length d2) &&
      (fix go (d : list (pyval * pyval)) {struct d} : bool :=
         match d with
         | [] => true
         | (k, v) :: r =>
             match dict_lookup k d2 with
             | Some w => py_eq v w && go r
             | None => false
             end
         end) d1
  | PList _, _ | _, PList _ | PDict _, _ | _, PDict _ => false
  | _, _ => key_eqb a b
  end.

(** Truth value of an object ([if x], [not x], [filter(None, _)]). *)
Definition truthy (v : pyval) : bool :=
  match v with
  | PNone => false
  | PBool b => b
  | PInt z => negb (Z.eqb z 0)
  | PFloat (S754_zero _) => false
  | PFloat _ => true
  | PStr s => negb (String.eqb s "")
  | PList l => match l with [] => false | _ => true end
  | PDict d => match d with [] => false | _ => true end
  end.

Definition is_dict (v : pyval) : bool :=
  match v with PDict _ => true | _ => false end.
Definition is_list (v : pyval) : bool :=
  match v with PList _ => true | _ => false end.

(** [v == s] for a string constant [s]. *)
Definition eq_str (v : pyval) (s : string) : bool :=
  match v with PStr t => String.eqb t s | _ => false end.

(** *** Strings (code points 0..255) *)

Definition code (c : ascii) : N := N_of_ascii c.
Definition between (lo hi : N) (c : ascii) : bool :=
  (N.leb lo (code c) && N.leb (code c) hi)%N.

Definition is_digit (c : ascii) : bool := between 48 57 c.
Definition digit_val (c : ascii) : Z := Z.of_N (code c) - 48.

(** [str.isspace] on the range. *)
Definition is_space (c : ascii) : bool :=
  between 9 13 c || between 28 32 c || N.eqb (code c) 133 || N.eqb (code c) 160.

(** Upper-case letters of the range: A-Z, and the accented capitals but the
    multiplication sign. *)
Definition is_upper (c : ascii) : bool :=
  between 65 90 c || between 192 214 c || between 216 222 c.

Definition lower_char (c : ascii) : ascii :=
  if is_upper c then ascii_of_N (code c + 32) else c.

Fixpoint lower (s : string) : string :=
  match s with
  | EmptyString => EmptyString
  | String c r => String (lower_char c) (lower r)
  end.

(** The surrounding characters that satisfy [p] removed. *)
Fixpoint lstrip_by (p : ascii -> bool) (s : string) : string :=
  match s with
  | String c r => if p c then lstrip_by p r else s
  | EmptyString => EmptyString
  end.

Fixpoint rstrip_by (p : ascii -> bool) (s : string) : string :=
  match s with
  | EmptyString => EmptyString
  | String c r =>
      match rstrip_by p r with
      | EmptyString => if p c then EmptyString else String c EmptyString
      | r' => String c r'
      end
  end.

(** [s.strip()]. *)
Definition strip (s : string) : string := rstrip_by is_space (lstrip_by is_space s).

(** The white space [int] and [float] accept around a literal: the blanks
    of C, and the two white-space characters above the ASCII range. *)
Definition is_number_space (c : ascii) : bool :=
  between 9 13 c || N.eqb (code c) 32 || N.eqb (code c) 133 || N.eqb (code c) 160.

Definition number_strip (s : string) : string :=
  rstrip_by is_number_space (lstrip_by is_number_space s).

(** [s.replace(c, "")] for a one-character [c]. *)
Fixpoint remove_char (x : ascii) (s : string) : string :=
  match s with
  | EmptyString => EmptyString
  | String c r => if Ascii.eqb c x then remove_char x r else String c (remove_char x r)
  end.

Fixpoint has_prefix (p s : string) : bool :=
  match p, s with
  | EmptyString, _ => true
  | String a p', String b s' => Ascii.eqb a b && has_prefix p' s'
  | _, EmptyString => false
  end.

(** [p in s] for two strings. *)
Fixpoint substring_of (p s : string) : bool :=
  has_prefix p s ||
  match s with
  | EmptyString => false
  | String _ r => substring_of p r
  end.

Definition string_of_Z (z : Z) : string := NilZero.string_of_int (Z.to_int z).

Fixpoint join (sep : string) (l : list string) : string :=
  match l with
  | [] => ""
  | [x] => x
  | x :: r => x ++ sep ++ join sep r
  end.

(** *** [int(x)] *)

(** Digits of a decimal literal; a single underscore may stand between two
    digits. *)
Fixpoint digits_value (s : string) (after_digit : bool) (acc : Z) : option Z :=
  match s with
  | EmptyString => if after_digit then Some acc else None
  | String c r =>
      if is_digit c then digits_value r true (10 * acc + digit_val c)
      else if Ascii.eqb c "_" then
        (if after_digit then digits_value r false acc else None)
      else None
  end.

(** [int(s)] for a string, when it is an integer literal.  (The limit some
    versions put on the number of digits is not modelled.) *)
Definition int_of_string (s : string) : option Z :=
  match number_strip s with
  | String "+" r => digits_value r false 0
  | String "-" r => option_map Z.opp (digits_value r false 0)
  | r => digits_value r false 0
  end.

(** Truncation of a float towards zero. *)
Definition int_of_float (f : float) : result Z :=
  match f with
  | S754_zero _ => Ok 0
  | S754_infinity _ => Raise OverflowError
  | S754_nan => Raise ValueError
  | S754_finite s m e =>
      let a := if (0 <=? e)%Z then Z.pos m * 2 ^ e else Z.pos m / 2 ^ (- e) in
      Ok (if s then - a else a)
  end.

Definition py_int (v : pyval) : result Z :=
  match v with
  | PInt z => Ok z
  | PBool b => Ok (Z_of_bool b)
  | PFloat f => int_of_float f
  | PStr s => match int_of_string s with Some z => Ok z | None => Raise ValueError end
  | PNone | PList _ | PDict _ => Raise TypeError
  end.

(** *** [float(x)] and [int / int] *)

(** The binary64 number nearest to [a / b] (ties to even), for [0 <= a] and
    [0 < b]: the quotient is taken with enough extra bits and a sticky bit,
    and rounded once. *)
Definition round_div (a b : Z) : float :=
  if Z.eqb a 0 then S754_zero false
  else
    let k := Z.max 0 (64 + Z.log2 b - Z.log2 a) in
    let q := (a * 2 ^ k) / b in
    let sticky := if Z.eqb ((a * 2 ^ k) mod b) 0 then 0 else 1 in
    binary_normalize prec emax (2 * q + sticky) (- k - 1) false.

Definition signed_div (a b : Z) : float :=
  let q := round_div (Z.abs a) (Z.abs b) in
  if Z.eqb (Z.sgn a * Z.sgn b) (-1) then SFopp q else q.

Definition is_finite (f : float) : bool :=
  match f with
  | S754_zero _ | S754_finite _ _ _ => true
  | _ => false
  end.

(** [a / b] on two ints, for [b <> 0]. *)
Definition int_truediv (a b : Z) : result float :=
  let q := signed_div a b in
  if is_finite q then Ok q else Raise OverflowError.

Definition float_of_Z (z : Z) : result float :=
  let f := binary_normalize prec emax z 0 false in
  if is_finite f then Ok f else Raise OverflowError.

(** The number [m * 10^e], correctly rounded. *)
Definition float_of_decimal (neg : bool) (m e : Z) : float :=
  let f := if (0 <=? e)%Z then binary_normalize prec emax (m * 10 ^ e) 0 false
           else round_div m (10 ^ (- e)) in
  if neg then SFopp f else f.

(** A run of digits at the head of a string, its value and its length. *)
Fixpoint take_digits (s : string) (acc : Z) (n : Z) : Z * Z * string :=
  match s with
  | String c r =>
      if is_digit c then take_digits r (10 * acc + digit_val c) (n + 1)
      else (acc, n, s)
  | EmptyString => (acc, n, s)
  end.

(** Underscores of a numeric literal: each must stand between two digits;
    they are dropped. *)
Fixpoint drop_underscores (prev_digit : bool) (s : string) : option string :=
  match s with
  | EmptyString => Some EmptyString
  | String c r =>
      if Ascii.eqb c "_" then
        match r with
        | String d _ => if prev_digit && is_digit d then drop_underscores false r else None
        | EmptyString => None
        end
      else option_map (String c) (drop_underscores (is_digit c) r)
  end.

Definition exponent_of (s : string) : option Z :=
  match s with
  | EmptyString => Some 0
  | String c r =>
      if Ascii.eqb (lower_char c) "e" then
        let '(neg, r') := match r with
                          | String "+" t => (false, t)
                          | String "-" t => (true, t)
                          | _ => (false, r)
                          end in
        match take_digits r' 0 0 with
        | (v, n, EmptyString) => if Z.eqb n 0 then None else Some (if neg then - v else v)
        | _ => None
        end
      else None
  end.

Definition unsigned_float_of_string (neg : bool) (s : string) : option float :=
  let l := lower s in
  if String.eqb l "inf" || String.eqb l "infinity" then Some (S754_infinity neg)
  else if String.eqb l "nan" then Some S754_nan
  else
    let '(ip, ni, r1) := take_digits s 0 0 in
    let '(fp, nf, r2) := match r1 with
                         | String "." t => take_digits t ip 0
                         | _ => (ip, 0, r1)
                         end in
    if Z.eqb (ni + nf) 0 then None
    else match exponent_of r2 with
         | Some e => Some (float_of_decimal neg fp (e - nf))
         | None => None
         end.

Definition float_of_string (s : string) : option float :=
  match drop_underscores false (number_strip s) with
  | Some (String "+" r) => unsigned_float_of_string false r
  | Some (String "-" r) => unsigned_float_of_string true r
  | Some r => unsigned_float_of_string false r
  | None => None
  end.

Definition py_float (v : pyval) : result float :=
  match v with
  | PFloat f => Ok f
  | PInt z => float_of_Z z
  | PBool b => float_of_Z (Z_of_bool b)
  | PStr s => match float_of_string s with Some f => Ok f | None => Raise ValueError end
  | PNone | PList _ | PDict _ => Raise TypeError
  end.

(** *** Attribute and item access *)

(** [o.get(k, dflt)]: only a [dict] has the method. *)
Definition get (o : pyval) (k : string) (dflt : pyval) : result pyval :=
  match o with
  | PDict d => Ok (match dict_lookup (PStr k) d with Some v => v | None => dflt end)
  | _ => Raise AttributeError
  end.

(** [o[k]] for a string constant [k]. *)
Definition getitem (o : pyval) (k : string) : result pyval :=
  match o with
  | PDict d => match dict_lookup (PStr k) d with Some v => Ok v | None => Raise KeyError end
  | _ => Raise TypeError
  end.

(** [o[0]]. *)
Definition first (o : pyval) : result pyval :=
  match o with
  | PList l => match l with x :: _ => Ok x | [] => Raise IndexError end
  | PStr s => match s with String c _ => Ok (PStr (String c "")) | EmptyString => Raise IndexError end
  | PDict d => match dict_lookup (PInt 0) d with Some v => Ok v | None => Raise KeyError end
  | _ => Raise TypeError
  end.

Fixpoint chars (s : string) : list pyval :=
  match s with
  | EmptyString => []
  | String c r => PStr (String c "") :: chars r
  end.

(** The items a [for] loop (or a comprehension) visits. *)
Definition iter (o : pyval) : result (list pyval) :=
  match o with
  | PList l => Ok l
  | PDict d => Ok (dict_keys d)
  | PStr s => Ok (chars s)
  | _ => Raise TypeError
  end.

(** [k in o] for a string constant [k]. *)
Definition contains (k : string) (o : pyval) : result bool :=
  match o with
  | PDict d => Ok (match dict_lookup (PStr k) d with Some _ => true | None => false end)
  | PList l => Ok (existsb (fun x => py_eq x (PStr k)) l)
  | PStr s => Ok (substring_of k s)
  | _ => Raise TypeError
  end.

(** [s.lower()]. *)
Definition py_lower (v : pyval) : result string :=
  match v with
  | PStr s => Ok (lower s)
  | _ => Raise AttributeError
  end.

(** [d[k] = v] on a dict under construction. *)
Definition setitem {V : Type} (k : pyval) (v : V) (d : list (pyval * V))
  : result (list (pyval * V)) :=
  if hashable k then Ok (dict_set k v d) else Raise TypeError.

(** [sep.join(l)]: every item must be a [str]. *)
Fixpoint strings_of (l : list pyval) : result (list string) :=
  match l with
  | [] => Ok []
  | PStr s :: r => bind (strings_of r) (fun t => Ok (s :: t))
  | _ :: _ => Raise TypeError
  end.

Definition py_join (sep : string) (l : list pyval) : result string :=
  bind (strings_of l) (fun t => Ok (join sep t)).

End Py.


Import Py.

Declare Scope py_scope.
Notation "x <- m ;; k" := (bind m (fun x => k))
  (at level 61, m at next level, right associativity) : py_scope.
Local Open Scope py_scope.

(** [try: m  except (handled): h]. *)
Definition try_except {A} (m : result A) (handled : exn -> bool) (h : result A)
  : result A :=
  match m with
  | Raise e => if handled e then h else Raise e
  | Ok a => Ok a
  end.

(* ================================================================== *)
(** ** The fragment of [re] the script uses *)

Module Re.

(** The class [\w] of a [str] pattern: alphanumeric characters and the
    underscore. *)
Definition is_word (c : ascii) : bool :=
  is_digit c || between 65 90 c || between 97 122 c || Ascii.eqb c "_" ||
  N.eqb (code c) 170 || between 178 179 c || N.eqb (code c) 181 ||
  between 185 186 c || between 188 190 c || between 192 214 c ||
  between 216 246 c || between 248 255 c.

Definition word_at (o : option ascii) : bool :=
  match o with Some c => is_word c | None => false end.

(** [\b]: exactly one of the two neighbours is a word character. *)
Definition boundary (prev next : option ascii) : bool :=
  xorb (word_at prev) (word_at next).

Definition head (s : string) : option ascii :=
  match s with String c _ => Some c | EmptyString => None end.

(** The escaped key, a literal, matched under [re.IGNORECASE] at the head of
    the text: the last character consumed and the text that remains. *)
Fixpoint literal_ci (pat txt : string) (prev : option ascii)
  : option (option ascii * string) :=
  match pat with
  | EmptyString => Some (prev, txt)
  | String p pat' =>
      match txt with
      | String c txt' =>
          if Ascii.eqb (lower_char p) (lower_char c)
          then literal_ci pat' txt' (Some c) else None
      | EmptyString => None
      end
  end.

(** [\bKEY\b] matched at one position. *)
Definition match_here (key : string) (prev : option ascii) (txt : string) : bool :=
  boundary prev (head txt) &&
  match literal_ci key txt prev with
  | Some (last, rest) => boundary last (head rest)
  | None => false
  end.

Fixpoint search_from (key : string) (prev : option ascii) (txt : string) : bool :=
  match_here key prev txt ||
  match txt with
  | EmptyString => false
  | String c r => search_from key (Some c) r
  end.

(** [re.search(rf'\b{re.escape(key)}\b', text, re.IGNORECASE)], as a truth
    value; a text that is not a [str] is a [TypeError]. *)
Definition search_word (key : string) (text : pyval) : result bool :=
  match text with
  | PStr t => Ok (search_from key None t)
  | _ => Raise TypeError
  end.

End Re.

(* ================================================================== *)
(** ** The fragment of [datetime] the script uses *)

Module Datetime.

Record datetime : Type := mk_datetime {
  year : Z; month : Z; day : Z;
  hour : Z; minute : Z; second : Z; microsecond : Z
}.

(** The nearest integer to [m * 2^e], ties to even. *)
Definition round_half_even (m e : Z) : Z :=
  if (0 <=? e)%Z then m * 2 ^ e
  else
    let d := 2 ^ (- e) in
    let q := m / d in
    let r := m mod d in
    match Z.compare (2 * r) d with
    | Lt => q
    | Gt => q + 1
    | Eq => if Z.even q then q else q + 1
    end.

Definition million : float := binary_normalize prec emax 1000000 0 false.

(** Seconds and microseconds of a float time stamp: the fraction is taken
    off, scaled (one float product) and rounded half-even. *)
Definition to_timeval (ts : float) : result (Z * Z) :=
  match ts with
  | S754_nan => Raise ValueError
  | S754_infinity _ => Raise OverflowError
  | S754_zero _ => Ok (0, 0)
  | S754_finite s m e =>
      let sgn := if s then (-1) else 1 in
      let ip := if (0 <=? e)%Z then Z.pos m * 2 ^ e else Z.pos m / 2 ^ (- e) in
      let fm := if (0 <=? e)%Z then 0 else Z.pos m mod 2 ^ (- e) in
      let frac := binary_normalize prec emax (sgn * fm) e false in
      let us := match SFmul prec emax frac million with
                | S754_finite s' m' e' =>
                    round_half_even (if s' then Z.neg m' else Z.pos m') e'
                | _ => 0
                end in
      let sec := sgn * ip in
      let '(sec, us) := if (1000000 <=? us)%Z then (sec + 1, us - 1000000)
                        else if (us <? 0)%Z then (sec - 1, us + 1000000)
                        else (sec, us) in
      if ((- 2 ^ 63 <=? sec) && (sec <? 2 ^ 63))%Z then Ok (sec, us)
      else Raise OverflowError
  end.

(** Proleptic Gregorian date of a day number counted from 1970-01-01. *)
Definition civil_from_days (days : Z) : Z * Z * Z :=
  let z := days + 719468 in
  let era := z / 146097 in
  let doe := z - era * 146097 in
  let yoe := (doe - doe / 1460 + doe / 36524 - doe / 146096) / 365 in
  let doy := doe - (365 * yoe + yoe / 4 - yoe / 100) in
  let mp := (5 * doy + 2) / 153 in
  let d := doy - (153 * mp + 2) / 5 + 1 in
  let m := if (mp <? 10)%Z then mp + 3 else mp - 9 in
  let y := yoe + era * 400 + (if (m <=? 2)%Z then 1 else 0) in
  (y, m, d).

(** [datetime.fromtimestamp(ts, tz=timezone.utc)]. *)
Definition fromtimestamp_utc (ts : float) : result datetime :=
  tv <- to_timeval ts ;;
  let '(sec, us) := tv in
  let '(y, m, d) := civil_from_days (sec / 86400) in
  let s := sec mod 86400 in
  if negb ((- 2 ^ 31 <=? y - 1900) && (y - 1900 <? 2 ^ 31))%Z then Raise OSError
  else if negb ((1 <=? y) && (y <=? 9999))%Z then Raise ValueError
  else Ok (mk_datetime y m d (s / 3600) (s mod 3600 / 60) (s mod 60) us).

Fixpoint zeros (n : nat) : string :=
  match n with O => "" | S k => String "0" (zeros k) end.

(** [f"{z:0{w}d}"] for [0 <= z]. *)
Definition pad (w : nat) (z : Z) : string :=
  let t := string_of_Z z in
  zeros (w - String.length t) ++ t.

(** [dt.isoformat()] of an aware datetime whose zone is UTC. *)
Definition isoformat (dt : datetime) : string :=
  pad 4 (year dt) ++ "-" ++ pad 2 (month dt) ++ "-" ++ pad 2 (day dt) ++ "T" ++
  pad 2 (hour dt) ++ ":" ++ pad 2 (minute dt) ++ ":" ++ pad 2 (second dt) ++
  (if Z.eqb (microsecond dt) 0 then "" else "." ++ pad 6 (microsecond dt)) ++
  "+00:00".

End Datetime.

(* ================================================================== *)
(** ** What the model takes from the Python process and the server *)

(** The canonical indicator codes, in the order the source lists them. *)
Definition target_indicator_list : list string :=
  [ "PERE"; "PERM"; "PERT"; "PENRE"; "PENRM"; "PENRT"; "SM"; "RSF"; "NRSF"; "FW";
    "HWD"; "NHWD"; "RWD"; "CRU"; "MFR"; "MER"; "EEE"; "EET";
    "GWP-total"; "GWP-biogenic"; "GWP-fossil"; "GWP-luluc"; "ODP"; "POCP";
    "AP"; "EP-terrestrial"; "EP-freshwater"; "EP-marine"; "WDP";
    "ADPE"; "ADPF"; "HTP-c"; "HTP-nc"; "PM"; "IR"; "ETP-fw"; "SQP" ].

(** The tables of the schema ([01_create_database.py]) the pipeline writes. *)
Inductive table : Type :=
| DataStocks | Products | Classifications | Exchanges | Exchange_ModuleAmounts
| LCIA_Results | LCIA_ModuleAmounts | Reviews | Compliances
| Flow_Properties | Material_Properties.

(** - [target_indicators]: the script builds a [set] of strings; the order
      in which a set yields its elements is fixed for one process and
      unknown otherwise, so it is any permutation of the list above;
    - [repr]: [str(x)] of an object that is neither [None], a [bool], an
      [int] nor a [str], as an f-string formats it;
    - [adapts]: whether psycopg2 and the server accept the parameters of an
      [INSERT] for the column types of a table. *)
Class Runtime : Type := {
  target_indicators : list string;
  target_indicators_perm : Permutation target_indicators target_indicator_list;
  repr : pyval -> string;
  adapts : table -> list pyval -> bool
}.

(* ================================================================== *)
(** ** The helpers of the script *)

Definition empty_dict : pyval := PDict [].
Definition empty_list : pyval := PList [].

(** [str(x)] inside an f-string. *)
Definition py_str `{Runtime} (v : pyval) : string :=
  match v with
  | PStr s => s
  | PNone => "None"
  | PBool true => "True"
  | PBool false => "False"
  | PInt z => string_of_Z z
  | _ => repr v
  end.

(** The translation dictionary built by [load_translations]: normalised
    German term to English term. *)
Definition translations := list (string * string).

Fixpoint tr_lookup (k : string) (t : translations) : option string :=
  match t with
  | [] => None
  | (g, e) :: r => if String.eqb g k then Some e else tr_lookup k r
  end.

(** [translate_text].  The second component is the global list
    [not_found_translations] after the call. *)
Definition translate_text (text : pyval) (tr : translations) (nf : list string)
  : result pyval * list string :=
  if negb (truthy text) then (Ok text, nf)
  else
    match text with
    | PStr s =>
        let cleaned_text := strip (lower (remove_char "," s)) in
        match tr_lookup cleaned_text tr with
        | None => (Ok text, if existsb (String.eqb s) nf then nf else nf ++ [s])
        | Some e => (Ok (PStr e), nf)
        end
    | _ => (Raise AttributeError, nf)
    end.

(** The inner loop of [get_indicator_key]: the candidates in the order the
    set yields them. *)
Fixpoint first_matching_key (keys : list string) (lang_text : pyval)
  : result (option string) :=
  match keys with
  | [] => Ok None
  | key :: r =>
      m <- Re.search_word key lang_text ;;
      if m then Ok (Some key) else first_matching_key r lang_text
  end.

(** The outer loop: the values of the dict in insertion order. *)
Fixpoint scan_languages (keys : list string) (texts : list pyval) : result pyval :=
  match texts with
  | [] => Ok PNone
  | lang_text :: r =>
      k <- first_matching_key keys lang_text ;;
      match k with
      | Some key => Ok (PStr key)
      | None => scan_languages keys r
      end
  end.

Definition get_indicator_key `{Runtime} (multilang_dict : pyval) : result pyval :=
  match multilang_dict with
  | PDict d => scan_languages target_indicators (dict_values d)
  | _ => Ok PNone
  end.

(** [entry.get("lang", "unknown")] and [entry.get("value")] on a dict. *)
Definition entry_lang (entry : dict) : pyval :=
  match dict_lookup (PStr "lang") entry with Some l => l | None => PStr "unknown" end.

Definition entry_value (entry : dict) : pyval :=
  match dict_lookup (PStr "value") entry with Some v => v | None => PNone end.

(** The dict comprehension of [extract_multilang]. *)
Fixpoint collapse (entry_list : list pyval) (acc : dict) : result dict :=
  match entry_list with
  | [] => Ok acc
  | PDict entry :: r =>
      acc' <- setitem (entry_lang entry) (entry_value entry) acc ;;
      collapse r acc'
  | _ :: r => collapse r acc
  end.

Definition extract_multilang (entry_list : pyval) : result dict :=
  match entry_list with
  | PList l => collapse l []
  | _ => Ok []
  end.

Definition value_or_type (e : exn) : bool :=
  match e with ValueError | TypeError => true | _ => false end.

Definition key_or_type (e : exn) : bool :=
  match e with KeyError | TypeError => true | _ => false end.

Definition convert_timestamp (unix_timestamp : pyval) : result pyval :=
  if negb (truthy unix_timestamp) then Ok PNone
  else
    try_except
      (n <- py_int unix_timestamp ;;
       timestamp_in_seconds <- int_truediv n 1000 ;;
       dt <- Datetime.fromtimestamp_utc timestamp_in_seconds ;;
       Ok (PStr (Datetime.isoformat dt)))
      value_or_type (Ok PNone).

(** The loop of [extract_original_epd_url]. *)
Fixpoint first_resource_url (items : list pyval) : result pyval :=
  match items with
  | [] => Ok PNone
  | item :: r =>
      name <- get item "name" PNone ;;
      if eq_str name "referenceToOriginalEPD" then
        value <- get item "value" empty_dict ;;
        resource_urls <- get value "resourceURLs" empty_list ;;
        if truthy resource_urls then first resource_urls
        else first_resource_url r
      else first_resource_url r
  end.

Definition extract_original_epd_url (data : pyval) : result pyval :=
  try_except
    (mv <- get data "modellingAndValidation" empty_dict ;;
     ds <- get mv "dataSourcesTreatmentAndRepresentativeness" empty_dict ;;
     other <- get ds "other" empty_dict ;;
     original_epd <- get other "anies" empty_list ;;
     items <- iter original_epd ;;
     first_resource_url items)
    key_or_type (Ok PNone).

Definition convert_to_float (val : pyval) : result pyval :=
  try_except (f <- py_float val ;; Ok (PFloat f)) value_or_type (Ok PNone).

(* ================================================================== *)
(** ** The normalized record [parse_json] returns

    The script returns nested dicts with fixed keys; they are records here,
    one field per key.  Keys whose value is a constant of the script
    ([time_representativeness], [safety_margins], the [description] of the
    geography, the [details] of a review, the [approval] of a compliance,
    [reference_to_flow]) carry no field. *)

Record classification : Type := mk_classification {
  cl_name : pyval; cl_level : pyval; cl_classId : pyval; cl_classification : pyval
}.

Record module_amount : Type := mk_module_amount {
  amount : pyval; scenario : pyval
}.

Definition module_amounts := list (pyval * module_amount).

Record exchange : Type := mk_exchange {
  ex_data_set_internal_id : pyval; ex_uri : pyval; ex_ref_object_id : pyval;
  ex_flow : dict; ex_indicator_key : pyval; ex_direction : pyval;
  ex_meanAmount : pyval; ex_unit : pyval; ex_module_amounts : module_amounts
}.

Record lcia_result : Type := mk_lcia_result {
  lc_method : dict; lc_indicator_key : pyval; lc_meanAmount : pyval;
  lc_unit : pyval; lc_module_amounts : module_amounts
}.

Record flow_property : Type := mk_flow_property {
  fp_name_en : pyval; fp_name_de : pyval; fp_mean_value : pyval;
  fp_unit : pyval; fp_is_reference : pyval; fp_dataSetInternalID : pyval
}.

Record material_property : Type := mk_material_property {
  mp_value : pyval; mp_units : pyval; mp_description : pyval
}.

Record reference_flow_entry : Type := mk_reference_flow_entry {
  rf_material_properties : list (pyval * material_property);
  rf_flow_properties : list flow_property
}.

Record admin_information : Type := mk_admin_information {
  ad_generator : dict; ad_entry_by : dict; ad_timestamp : pyval;
  ad_formats : list pyval; ad_version : pyval; ad_license : pyval;
  ad_access : dict
}.

Record item : Type := mk_item {
  process_id : string; uuid : pyval; version : pyval;
  name : dict; description : dict;
  category_level_1 : pyval; category_level_2 : pyval; category_level_3 : pyval;
  classifications : list classification;
  reference_year : pyval; valid_until : pyval; geography_location : pyval;
  technology_description : dict; tech_applicability : dict;
  dataset_type : pyval; dataset_subtype : pyval; sources : string;
  use_advice : dict;
  reviews : list (list pyval);          (* the reviewers of each review *)
  compliances : list dict;              (* the system of each compliance *)
  admin_info : admin_information;
  exchanges : list exchange; lcia_results : list lcia_result;
  reference_flow : list reference_flow_entry;
  original_epd_url : pyval
}.

(* ================================================================== *)
(** ** The loops of [parse_json] *)

(** [o.get(k1, {}).get(k2, dflt)]. *)
Definition get2 (o : pyval) (k1 k2 : string) (dflt : pyval) : result pyval :=
  a <- get o k1 empty_dict ;; get a k2 dflt.

(** [next((el["value"] for el in l if el.get("name") == "subType"), None)]. *)
Fixpoint first_subtype (l : list pyval) : result pyval :=
  match l with
  | [] => Ok PNone
  | el :: r =>
      n <- get el "name" PNone ;;
      if eq_str n "subType" then getitem el "value" else first_subtype r
  end.

(** [el["shortDescription"][0]["value"] for el in l
     if el.get("shortDescription")]. *)
Fixpoint short_descriptions (l : list pyval) : result (list pyval) :=
  match l with
  | [] => Ok []
  | el :: r =>
      c <- get el "shortDescription" PNone ;;
      if truthy c then
        sd <- getitem el "shortDescription" ;;
        d <- first sd ;;
        v <- getitem d "value" ;;
        t <- short_descriptions r ;;
        Ok (v :: t)
      else short_descriptions r
  end.

(** The first [desc] that is a dict with a ["value"] key, and that value. *)
Fixpoint find_value (descs : list pyval) : option pyval :=
  match descs with
  | [] => None
  | PDict d :: r =>
      match dict_lookup (PStr "value") d with
      | Some v => Some v
      | None => find_value r
      end
  | _ :: r => find_value r
  end.

Fixpoint review_loop (l : list pyval) : result (list (list pyval)) :=
  match l with
  | [] => Ok []
  | r :: rest =>
      refs <- get r "referenceToNameOfReviewerAndInstitution" empty_list ;;
      es <- iter refs ;;
      reviewers <- short_descriptions es ;;
      t <- review_loop rest ;;
      Ok (reviewers :: t)
  end.

Fixpoint compliance_loop (l : list pyval) : result (list dict) :=
  match l with
  | [] => Ok []
  | c :: rest =>
      short <- get2 c "referenceToComplianceSystem" "shortDescription" empty_list ;;
      system <- extract_multilang short ;;
      t <- compliance_loop rest ;;
      Ok (system :: t)
  end.

Fixpoint format_loop (l : list pyval) : result (list pyval) :=
  match l with
  | [] => Ok []
  | fmt :: rest =>
      sd <- get fmt "shortDescription" empty_list ;;
      descs <- iter sd ;;
      t <- format_loop rest ;;
      Ok (match find_value descs with Some v => v | None => PNone end :: t)
  end.

Fixpoint class_loop (c : pyval) (l : list pyval) : result (list classification) :=
  match l with
  | [] => Ok []
  | cl :: rest =>
      n <- get c "name" PNone ;;
      lv <- get cl "level" (PStr "") ;;
      id <- get cl "classId" (PStr "") ;;
      v <- get cl "value" PNone ;;
      t <- class_loop c rest ;;
      Ok (mk_classification n lv id v :: t)
  end.

Fixpoint classification_loop (l : list pyval) : result (list classification) :=
  match l with
  | [] => Ok []
  | c :: rest =>
      cs <- get c "class" empty_list ;;
      cls <- iter cs ;;
      here <- class_loop c cls ;;
      t <- classification_loop rest ;;
      Ok (here ++ t)
  end.

(** *** Extension entries ([other.anies]) of an exchange or LCIA result *)

(** The loop that looks for the unit; [unit] is the value found so far. *)
Fixpoint unit_loop (items : list pyval) (unit : pyval) : result pyval :=
  match items with
  | [] => Ok unit
  | item :: r =>
      n <- get item "name" PNone ;;
      if eq_str n "referenceToUnitGroupDataSet" then
        unit_value <- get item "value" PNone ;;
        match unit_value with
        | PDict uv =>
            match dict_lookup (PStr "shortDescription") uv with
            | Some sd =>
                descs <- iter sd ;;
                unit_loop r (match find_value descs with Some u => u | None => unit end)
            | None => unit_loop r unit
            end
        | _ => unit_loop r unit
        end
      else unit_loop r unit
  end.

(** The amount of a module entry [x]. *)
Definition amount_of (x : pyval) : result pyval :=
  has_value <- contains "value" x ;;
  if negb has_value then Ok PNone
  else
    v <- getitem x "value" ;;
    if eq_str v "" then Ok PNone
    else try_except (f <- py_float v ;; Ok (PFloat f)) value_or_type (Ok PNone).

(** The loop that fills [module_amounts]. *)
Fixpoint module_loop (items : list pyval) (acc : module_amounts)
  : result module_amounts :=
  match items with
  | [] => Ok acc
  | x :: r =>
      has_module <- contains "module" x ;;
      if has_module then
        a <- amount_of x ;;
        sc <- get x "scenario" (PStr "") ;;
        m <- get x "module" PNone ;;
        acc' <- setitem m (mk_module_amount a sc) acc ;;
        module_loop r acc'
      else module_loop r acc
  end.

(** Unit and module amounts of one exchange or LCIA result [o]: the list
    [o.get("other", {}).get("anies", [])] is walked twice. *)
Definition extension_fields (o : pyval) : result (pyval * module_amounts) :=
  anies <- get2 o "other" "anies" empty_list ;;
  items <- iter anies ;;
  unit <- unit_loop items PNone ;;
  anies' <- get2 o "other" "anies" empty_list ;;
  items' <- iter anies' ;;
  ma <- module_loop items' [] ;;
  Ok (unit, ma).

Section WithRuntime.
Context `{Runtime}.

Definition exchange_of (ex : pyval) : result exchange :=
  sd <- get2 ex "referenceToFlowDataSet" "shortDescription" empty_list ;;
  flow <- extract_multilang sd ;;
  indicator_key <- get_indicator_key (PDict flow) ;;
  direction <- get ex "exchange direction" PNone ;;
  meanAmount <- get ex "meanAmount" PNone ;;
  ext <- extension_fields ex ;;
  id <- get ex "dataSetInternalID" PNone ;;
  uri <- get2 ex "referenceToFlowDataSet" "uri" PNone ;;
  ref_object_id <- get2 ex "referenceToFlowDataSet" "refObjectId" PNone ;;
  Ok (mk_exchange id uri ref_object_id flow indicator_key direction meanAmount
        (fst ext) (snd ext)).

Fixpoint exchange_loop (l : list pyval) : result (list exchange) :=
  match l with
  | [] => Ok []
  | ex :: r =>
      e <- exchange_of ex ;;
      t <- exchange_loop r ;;
      Ok (e :: t)
  end.

Definition lcia_of (lcia : pyval) : result lcia_result :=
  sd <- get2 lcia "referenceToLCIAMethodDataSet" "shortDescription" empty_list ;;
  method <- extract_multilang sd ;;
  indicator_key <- get_indicator_key (PDict method) ;;
  meanAmount <- get lcia "meanAmount" PNone ;;
  ext <- extension_fields lcia ;;
  Ok (mk_lcia_result method indicator_key meanAmount (fst ext) (snd ext)).

Fixpoint lcia_loop (l : list pyval) : result (list lcia_result) :=
  match l with
  | [] => Ok []
  | lcia :: r =>
      e <- lcia_of lcia ;;
      t <- lcia_loop r ;;
      Ok (e :: t)
  end.

End WithRuntime.

(** *** Reference flow *)

(** [next((n["value"] for n in names if n.get("lang") == lang), None)]. *)
Fixpoint first_lang_value (lang : string) (names : list pyval) : result pyval :=
  match names with
  | [] => Ok PNone
  | n :: r =>
      l <- get n "lang" PNone ;;
      if eq_str l lang then getitem n "value" else first_lang_value lang r
  end.

Definition flow_property_of (prop : pyval) : result flow_property :=
  n1 <- get prop "name" empty_list ;;
  names1 <- iter n1 ;;
  name_en <- first_lang_value "en" names1 ;;
  n2 <- get prop "name" empty_list ;;
  names2 <- iter n2 ;;
  name_de <- first_lang_value "de" names2 ;;
  mean_value <- get prop "meanValue" PNone ;;
  unit <- get prop "referenceUnit" PNone ;;
  is_reference <- get prop "referenceFlowProperty" (PBool false) ;;
  id <- get prop "uuid" PNone ;;
  Ok (mk_flow_property name_en name_de mean_value unit is_reference id).

Fixpoint flow_property_loop (l : list pyval) : result (list flow_property) :=
  match l with
  | [] => Ok []
  | prop :: r =>
      p <- flow_property_of prop ;;
      t <- flow_property_loop r ;;
      Ok (p :: t)
  end.

(** The dict comprehension over [mat_props]. *)
Fixpoint material_loop (l : list pyval) (acc : list (pyval * material_property))
  : result (list (pyval * material_property)) :=
  match l with
  | [] => Ok acc
  | mp :: r =>
      k <- getitem mp "name" ;;
      v <- getitem mp "value" ;;
      u <- getitem mp "unit" ;;
      d <- get mp "unitDescription" PNone ;;
      acc' <- setitem k (mk_material_property v u d) acc ;;
      material_loop r acc'
  end.

(** The entry appended for an exchange [ex] that is the reference flow. *)
Definition reference_flow_entry_of (ex : pyval) : result reference_flow_entry :=
  mat_props <- get ex "materialProperties" empty_list ;;
  flow_props <- get ex "flowProperties" empty_list ;;
  props <- iter flow_props ;;
  ref_flow_props <- flow_property_loop props ;;
  mps <- iter mat_props ;;
  material_properties <- material_loop mps [] ;;
  Ok (mk_reference_flow_entry material_properties ref_flow_props).

(** One entry per exchange whose internal ID equals the declared one. *)
Fixpoint reference_flow_loop (reference_flow_id : pyval) (l : list pyval)
  : result (list reference_flow_entry) :=
  match l with
  | [] => Ok []
  | ex :: r =>
      id <- get ex "dataSetInternalID" PNone ;;
      if py_eq id reference_flow_id then
        e <- reference_flow_entry_of ex ;;
        t <- reference_flow_loop reference_flow_id r ;;
        Ok (e :: t)
      else reference_flow_loop reference_flow_id r
  end.

(** *** Categories *)

Record categories : Type := mk_categories {
  level_1 : pyval; level_2 : pyval; level_3 : pyval
}.

Definition no_categories : categories := mk_categories PNone PNone PNone.

(** [classification.get("name").lower() == "oekobau.dat"]. *)
Definition is_oekobau (c : classification) : result bool :=
  n <- py_lower (cl_name c) ;; Ok (String.eqb n "oekobau.dat").

(** [[c for c in classifications if c.get("name").lower() == "oekobau.dat"]]. *)
Fixpoint oekobau_classes (l : list classification) : result (list classification) :=
  match l with
  | [] => Ok []
  | c :: r =>
      b <- is_oekobau c ;;
      t <- oekobau_classes r ;;
      Ok (if b then c :: t else t)
  end.

Definition assign_level (level : Z) (v : pyval) (st : categories) : categories :=
  if Z.eqb level 0 then mk_categories v (level_2 st) (level_3 st)
  else if Z.eqb level 1 then mk_categories (level_1 st) v (level_3 st)
  else if Z.eqb level 2 then mk_categories (level_1 st) (level_2 st) v
  else st.

(** [for c in classes: ...], with the list of unresolved terms threaded. *)
Fixpoint project_classes (classes : list classification) (tr : translations)
    (st : categories) (nf : list string) : result categories * list string :=
  match classes with
  | [] => (Ok st, nf)
  | c :: r =>
      match py_int (cl_level c) with
      | Raise e => (Raise e, nf)
      | Ok level =>
          match translate_text (cl_classification c) tr nf with
          | (Raise e, nf') => (Raise e, nf')
          | (Ok translated_classification, nf') =>
              project_classes r tr (assign_level level translated_classification st) nf'
          end
      end
  end.

(** [for classification in classifications: if ...: classes = ...]. *)
Fixpoint category_loop (todo all : list classification) (tr : translations)
    (st : categories) (nf : list string) : result categories * list string :=
  match todo with
  | [] => (Ok st, nf)
  | c :: r =>
      match is_oekobau c with
      | Raise e => (Raise e, nf)
      | Ok false => category_loop r all tr st nf
      | Ok true =>
          match oekobau_classes all with
          | Raise e => (Raise e, nf)
          | Ok classes =>
              match project_classes classes tr st nf with
              | (Raise e, nf') => (Raise e, nf')
              | (Ok st', nf') => category_loop r all tr st' nf'
              end
          end
      end
  end.

(* ================================================================== *)
(** ** [parse_json]

    [data] is the object [json.load] returned for the file.  The
    statements are those of the script, in its order. *)

Section Parser.
Context `{Runtime}.

(** Everything up to the category projection; the three category fields
    are still [None]. *)
Definition parse_fields (data : pyval) : result item :=
  pi0 <- get data "processInformation" empty_dict ;;
  dsi0 <- get pi0 "dataSetInformation" empty_dict ;;
  uuid <- get dsi0 "UUID" (PStr "") ;;
  ai0 <- get data "administrativeInformation" empty_dict ;;
  version <- get2 ai0 "publicationAndOwnership" "dataSetVersion" (PStr "") ;;
  let process_id := (py_str uuid ++ "_" ++ py_str version)%string in
  (* name, comment *)
  pi1 <- getitem data "processInformation" ;;
  dsi1 <- getitem pi1 "dataSetInformation" ;;
  base_name <- get2 dsi1 "name" "baseName" empty_list ;;
  name <- extract_multilang base_name ;;
  pi2 <- getitem data "processInformation" ;;
  dsi2 <- getitem pi2 "dataSetInformation" ;;
  general_comment <- get dsi2 "generalComment" empty_list ;;
  comment <- extract_multilang general_comment ;;
  pi3 <- getitem data "processInformation" ;;
  reference_year <- get2 pi3 "time" "referenceYear" PNone ;;
  pi4 <- getitem data "processInformation" ;;
  valid_until <- get2 pi4 "time" "dataSetValidUntil" PNone ;;
  (* geography, technology *)
  pi5 <- getitem data "processInformation" ;;
  geo <- get2 pi5 "geography" "locationOfOperationSupplyOrProduction" empty_dict ;;
  location <- get geo "location" PNone ;;
  pi6 <- getitem data "processInformation" ;;
  tech <- get pi6 "technology" empty_dict ;;
  td <- get tech "technologyDescriptionAndIncludedProcesses" empty_list ;;
  technology_description <- extract_multilang td ;;
  ta <- get tech "technologicalApplicability" empty_list ;;
  tech_applicability <- extract_multilang ta ;;
  (* method, sources, advice *)
  mv1 <- getitem data "modellingAndValidation" ;;
  method_info <- get mv1 "LCIMethodAndAllocation" empty_dict ;;
  dataset_type <- get method_info "typeOfDataSet" PNone ;;
  anies <- get2 method_info "other" "anies" empty_list ;;
  els <- iter anies ;;
  dataset_subtype <- first_subtype els ;;
  mv2 <- getitem data "modellingAndValidation" ;;
  rds <- get2 mv2 "dataSourcesTreatmentAndRepresentativeness" "referenceToDataSource"
              empty_list ;;
  srcs <- iter rds ;;
  descs <- short_descriptions srcs ;;
  sources <- py_join ", " descs ;;
  mv3 <- getitem data "modellingAndValidation" ;;
  ua <- get2 mv3 "dataSourcesTreatmentAndRepresentativeness" "useAdviceForDataSet"
             empty_list ;;
  use_advice <- extract_multilang ua ;;
  original_epd_url <- extract_original_epd_url data ;;
  (* reviews, compliances *)
  mv4 <- getitem data "modellingAndValidation" ;;
  rv <- get2 mv4 "validation" "review" empty_list ;;
  rvs <- iter rv ;;
  reviews <- review_loop rvs ;;
  mv5 <- getitem data "modellingAndValidation" ;;
  cp <- get2 mv5 "complianceDeclarations" "compliance" empty_list ;;
  cps <- iter cp ;;
  compliances <- compliance_loop cps ;;
  (* administrative information *)
  admin <- get data "administrativeInformation" empty_dict ;;
  entry <- get admin "dataEntryBy" empty_dict ;;
  g0 <- get2 admin "dataGenerator" "referenceToPersonOrEntityGeneratingTheDataSet"
             (PList [empty_dict]) ;;
  g1 <- first g0 ;;
  g2 <- get g1 "shortDescription" empty_list ;;
  generator <- extract_multilang g2 ;;
  e0 <- get entry "referenceToDataSetFormat" (PList [empty_dict]) ;;
  e1 <- first e0 ;;
  e2 <- get e1 "shortDescription" empty_list ;;
  entry_by <- extract_multilang e2 ;;
  ts <- get entry "timeStamp" PNone ;;
  timestamp <- convert_timestamp ts ;;
  f0 <- get entry "referenceToDataSetFormat" empty_list ;;
  fmts <- iter f0 ;;
  formats <- format_loop fmts ;;
  admin_version <- get2 admin "publicationAndOwnership" "dataSetVersion" PNone ;;
  license <- get2 admin "publicationAndOwnership" "licenseType" PNone ;;
  ar <- get2 admin "publicationAndOwnership" "accessRestrictions" empty_list ;;
  access <- extract_multilang ar ;;
  (* classifications *)
  pi7 <- getitem data "processInformation" ;;
  dsi7 <- getitem pi7 "dataSetInformation" ;;
  ci <- get2 dsi7 "classificationInformation" "classification" empty_list ;;
  cis <- iter ci ;;
  classifications <- classification_loop cis ;;
  (* exchanges, LCIA results *)
  xs <- get2 data "exchanges" "exchange" empty_list ;;
  exs <- iter xs ;;
  exchanges <- exchange_loop exs ;;
  ls <- get2 data "LCIAResults" "LCIAResult" empty_list ;;
  lcs <- iter ls ;;
  lcia_results <- lcia_loop lcs ;;
  (* reference flow *)
  pi8 <- getitem data "processInformation" ;;
  qr <- getitem pi8 "quantitativeReference" ;;
  rr <- getitem qr "referenceToReferenceFlow" ;;
  reference_flow_id <- first rr ;;
  xs' <- get2 data "exchanges" "exchange" empty_list ;;
  exs' <- iter xs' ;;
  reference_flow <- reference_flow_loop reference_flow_id exs' ;;
  Ok (mk_item process_id uuid version name comment PNone PNone PNone
        classifications reference_year valid_until location
        technology_description tech_applicability dataset_type dataset_subtype
        sources use_advice reviews compliances
        (mk_admin_information generator entry_by timestamp formats
           admin_version license access)
        exchanges lcia_results reference_flow original_epd_url).

Definition with_categories (it : item) (c : categories) : item :=
  mk_item (process_id it) (uuid it) (version it) (name it) (description it)
    (level_1 c) (level_2 c) (level_3 c)
    (classifications it) (reference_year it) (valid_until it)
    (geography_location it) (technology_description it) (tech_applicability it)
    (dataset_type it) (dataset_subtype it) (sources it) (use_advice it)
    (reviews it) (compliances it) (admin_info it) (exchanges it)
    (lcia_results it) (reference_flow it) (original_epd_url it).

(** The whole function.  The second component is the global list
    [not_found_translations] after the call, also when the call raises. *)
Definition parse_json (data : pyval) (tr : translations) (nf : list string)
  : result item * list string :=
  match parse_fields data with
  | Raise e => (Raise e, nf)
  | Ok it =>
      match category_loop (classifications it) (classifications it) tr
              no_categories nf with
      | (Raise e, nf') => (Raise e, nf')
      | (Ok c, nf') => (Ok (with_categories it c), nf')
      end
  end.

End Parser.

(* ================================================================== *)
(** ** The relational store

    A row records the parameters of its [INSERT], in the order of the
    column list; the rows of [Exchanges], [LCIA_Results] and [DataStocks]
    start with the serial key the statement returns.  The other serial keys
    are never read by the script and are left out. *)

Module Db.

Definition row := list pyval.

Record database : Type := mk_database {
  t_datastocks : list row;
  t_products : list row;
  t_classifications : list row;
  t_exchanges : list row;
  t_exchange_moduleamounts : list row;
  t_lcia_results : list row;
  t_lcia_moduleamounts : list row;
  t_reviews : list row;
  t_compliances : list row;
  t_flow_properties : list row;
  t_material_properties : list row;
  (* sequences: the last value handed out *)
  seq_datastock : Z;
  seq_exchange : Z;
  seq_lcia : Z
}.

Definition empty : database :=
  mk_database [] [] [] [] [] [] [] [] [] [] [] 0 0 0.

Definition rows (t : table) (db : database) : list row :=
  match t with
  | DataStocks => t_datastocks db
  | Products => t_products db
  | Classifications => t_classifications db
  | Exchanges => t_exchanges db
  | Exchange_ModuleAmounts => t_exchange_moduleamounts db
  | LCIA_Results => t_lcia_results db
  | LCIA_ModuleAmounts => t_lcia_moduleamounts db
  | Reviews => t_reviews db
  | Compliances => t_compliances db
  | Flow_Properties => t_flow_properties db
  | Material_Properties => t_material_properties db
  end.

(** The table [t] with one more row, the rest untouched. *)
Definition add_row (t : table) (r : row) (db : database) : database :=
  let '(mk_database ds pr cl ex em lc lm rv cp fp mp s1 s2 s3) := db in
  match t with
  | DataStocks => mk_database (ds ++ [r]) pr cl ex em lc lm rv cp fp mp s1 s2 s3
  | Products => mk_database ds (pr ++ [r]) cl ex em lc lm rv cp fp mp s1 s2 s3
  | Classifications => mk_database ds pr (cl ++ [r]) ex em lc lm rv cp fp mp s1 s2 s3
  | Exchanges => mk_database ds pr cl (ex ++ [r]) em lc lm rv cp fp mp s1 s2 s3
  | Exchange_ModuleAmounts => mk_database ds pr cl ex (em ++ [r]) lc lm rv cp fp mp s1 s2 s3
  | LCIA_Results => mk_database ds pr cl ex em (lc ++ [r]) lm rv cp fp mp s1 s2 s3
  | LCIA_ModuleAmounts => mk_database ds pr cl ex em lc (lm ++ [r]) rv cp fp mp s1 s2 s3
  | Reviews => mk_database ds pr cl ex em lc lm (rv ++ [r]) cp fp mp s1 s2 s3
  | Compliances => mk_database ds pr cl ex em lc lm rv (cp ++ [r]) fp mp s1 s2 s3
  | Flow_Properties => mk_database ds pr cl ex em lc lm rv cp (fp ++ [r]) mp s1 s2 s3
  | Material_Properties => mk_database ds pr cl ex em lc lm rv cp fp (mp ++ [r]) s1 s2 s3
  end.

(** [nextval] of the sequence behind the serial key of [t]; a sequence
    never goes back, not even when the transaction is rolled back. *)
Definition nextval (t : table) (db : database) : Z * database :=
  let '(mk_database ds pr cl ex em lc lm rv cp fp mp s1 s2 s3) := db in
  match t with
  | DataStocks => (s1 + 1, mk_database ds pr cl ex em lc lm rv cp fp mp (s1 + 1) s2 s3)
  | Exchanges => (s2 + 1, mk_database ds pr cl ex em lc lm rv cp fp mp s1 (s2 + 1) s3)
  | LCIA_Results => (s3 + 1, mk_database ds pr cl ex em lc lm rv cp fp mp s1 s2 (s3 + 1))
  | _ => (0, db)
  end.

(** The tables of [old] with the sequences of [cur]: what a rollback
    leaves. *)
Definition rolled_back (old cur : database) : database :=
  let '(mk_database ds pr cl ex em lc lm rv cp fp mp _ _ _) := old in
  mk_database ds pr cl ex em lc lm rv cp fp mp
    (seq_datastock cur) (seq_exchange cur) (seq_lcia cur).

Definition column (n : nat) (r : row) : pyval := nth n r PNone.

(** SQL [=] on the key columns: text with text, integer with integer; a
    NULL equals nothing. *)
Definition sql_eq (a b : pyval) : bool :=
  match a, b with
  | PStr s, PStr t => String.eqb s t
  | PInt x, PInt y => Z.eqb x y
  | _, _ => false
  end.

Definition is_null (v : pyval) : bool :=
  match v with PNone => true | _ => false end.

(** Some row of [t] has the value [k] in column [n]. *)
Definition has_key (t : table) (n : nat) (k : pyval) (db : database) : bool :=
  existsb (fun r => sql_eq (column n r) k) (rows t db).

(** A foreign key: NULL, or the key of a row of the parent table. *)
Definition references (t : table) (n : nat) (k : pyval) (db : database) : bool :=
  is_null k || has_key t n k db.

(** The constraints the schema declares on a new row of [t]. *)
Definition constraints (t : table) (r : row) (db : database) : bool :=
  match t with
  | DataStocks =>
      (* datastock_id PRIMARY KEY, name NOT NULL, uuid UNIQUE *)
      negb (has_key DataStocks 0 (column 0 r) db) &&
      negb (is_null (column 1 r)) &&
      negb (has_key DataStocks 2 (column 2 r) db)
  | Products =>
      (* process_id PRIMARY KEY, datastock_id REFERENCES DataStocks *)
      negb (is_null (column 0 r)) &&
      negb (has_key Products 0 (column 0 r) db) &&
      references DataStocks 0 (column 40 r) db
  | Exchanges | LCIA_Results =>
      (* serial PRIMARY KEY, process_id REFERENCES Products *)
      negb (has_key t 0 (column 0 r) db) &&
      references Products 0 (column 1 r) db
  | Exchange_ModuleAmounts => references Exchanges 0 (column 0 r) db
  | LCIA_ModuleAmounts => references LCIA_Results 0 (column 0 r) db
  | Classifications | Reviews | Compliances | Flow_Properties
  | Material_Properties => references Products 0 (column 0 r) db
  end.

End Db.

Import Db.

(** *** Statements *)

(** A statement (or Python code between statements) run on the open
    transaction: it may raise, and it leaves a state in both cases. *)
Definition stm (A : Type) : Type := database -> result A * database.

Definition sret {A} (a : A) : stm A := fun db => (Ok a, db).

Definition sbind {A B} (m : stm A) (k : A -> stm B) : stm B :=
  fun db =>
    match m db with
    | (Ok a, db') => k a db'
    | (Raise e, db') => (Raise e, db')
    end.

(** Pure Python code evaluated between two statements. *)
Definition lift {A} (m : result A) : stm A := fun db => (m, db).

Notation "x <~ m ;; k" := (sbind m (fun x => k))
  (at level 61, m at next level, right associativity) : py_scope.
Notation "m ;;; k" := (sbind m (fun _ => k))
  (at level 61, right associativity) : py_scope.

Fixpoint for_each {A} (f : A -> stm unit) (l : list A) : stm unit :=
  match l with
  | [] => sret tt
  | x :: r => f x ;;; for_each f r
  end.

(** [d.get(k)] on a dict built by the parser. *)
Definition dget (d : dict) (k : string) : pyval :=
  match dict_lookup (PStr k) d with Some v => v | None => PNone end.

(** A connection: what is committed, and the open transaction. *)
Record connection : Type := mk_connection {
  committed : database;
  working : database
}.

Definition commit (c : connection) : connection :=
  mk_connection (working c) (working c).

Definition rollback (c : connection) : connection :=
  let d := rolled_back (committed c) (working c) in mk_connection d d.

Section Store.
Context `{Runtime}.

(** [cursor.execute("INSERT INTO t (...) VALUES (...)", params)]. *)
Definition insert (t : table) (params : row) : stm unit :=
  fun db =>
    if adapts t params && constraints t params db
    then (Ok tt, add_row t params db)
    else (Raise DatabaseError, db).

(** The same with [RETURNING] the serial key, then [fetchone()[0]]. *)
Definition insert_returning (t : table) (params : row) : stm Z :=
  fun db =>
    let '(id, db1) := nextval t db in
    if adapts t params && constraints t (PInt id :: params) db1
    then (Ok id, add_row t (PInt id :: params) db1)
    else (Raise DatabaseError, db1).

(** [SELECT 1 FROM products WHERE process_id = %s], then [fetchone()]. *)
Definition product_exists (pid : string) (db : database) : bool :=
  has_key Products 0 (PStr pid) db.

(** The parameters of the [INSERT INTO products]. *)
Definition product_params (it : item) (datastock_id : pyval) : result row :=
  formats <- py_join ", " (filter truthy (ad_formats (admin_info it))) ;;
  Ok [ PStr (process_id it); uuid it; version it;
       dget (name it) "de"; dget (name it) "en";
       category_level_1 it; category_level_2 it; category_level_3 it;
       dget (description it) "de"; dget (description it) "en";
       reference_year it; valid_until it;
       PNone; PNone;                      (* time_representativeness is {} *)
       PNone; PNone; PNone;               (* safety_margins *)
       geography_location it; PNone; PNone;
       dget (technology_description it) "de"; dget (technology_description it) "en";
       dget (tech_applicability it) "de"; dget (tech_applicability it) "en";
       dataset_type it; dataset_subtype it; PStr (sources it);
       dget (use_advice it) "de"; dget (use_advice it) "en";
       dget (ad_generator (admin_info it)) "de"; dget (ad_generator (admin_info it)) "en";
       dget (ad_entry_by (admin_info it)) "de"; dget (ad_entry_by (admin_info it)) "en";
       ad_version (admin_info it); ad_license (admin_info it);
       dget (ad_access (admin_info it)) "de"; dget (ad_access (admin_info it)) "en";
       ad_timestamp (admin_info it);
       PStr formats;
       original_epd_url it;
       datastock_id ].

Definition store_module_amounts (t : table) (parent : Z) (ma : module_amounts)
  : stm unit :=
  for_each (fun kv : pyval * module_amount =>
              insert t [PInt parent; fst kv; scenario (snd kv); amount (snd kv)]) ma.

Definition store_exchange (pid : pyval) (e : exchange) : stm unit :=
  exchange_id <~ insert_returning Exchanges
      [pid; dget (ex_flow e) "de"; dget (ex_flow e) "en"; ex_indicator_key e;
       ex_direction e; ex_meanAmount e; ex_unit e] ;;
  store_module_amounts Exchange_ModuleAmounts exchange_id (ex_module_amounts e).

Definition store_lcia (pid : pyval) (l : lcia_result) : stm unit :=
  lcia_id <~ insert_returning LCIA_Results
      [pid; dget (lc_method l) "de"; dget (lc_method l) "en"; lc_indicator_key l;
       lc_meanAmount l; lc_unit l] ;;
  store_module_amounts LCIA_ModuleAmounts lcia_id (lc_module_amounts l).

Definition store_reference_flow (pid : pyval) (rf : reference_flow_entry) : stm unit :=
  for_each (fun p : flow_property =>
              insert Flow_Properties
                [pid; fp_name_en p; fp_name_de p; fp_mean_value p; fp_unit p;
                 fp_is_reference p]) (rf_flow_properties rf) ;;;
  for_each (fun kv : pyval * material_property =>
              v <~ lift (convert_to_float (mp_value (snd kv))) ;;
              insert Material_Properties
                [pid; fst kv; PNone; v; mp_units (snd kv); mp_description (snd kv)])
           (rf_material_properties rf).

(** The body of the loop of [store_data_in_db] for a record that is not
    yet stored: the product row, then every child row. *)
Definition insert_item (it : item) (datastock_id : pyval) : stm unit :=
  let pid := PStr (process_id it) in
  params <~ lift (product_params it datastock_id) ;;
  insert Products params ;;;
  for_each (fun c : classification =>
              insert Classifications
                [pid; cl_name c; cl_level c; cl_classId c; cl_classification c])
           (classifications it) ;;;
  for_each (store_exchange pid) (exchanges it) ;;;
  for_each (store_lcia pid) (lcia_results it) ;;;
  for_each (fun reviewers : list pyval =>
              for_each (fun reviewer => insert Reviews [pid; reviewer; PNone; PNone])
                       reviewers) (reviews it) ;;;
  for_each (fun system : dict =>
              insert Compliances [pid; dget system "de"; dget system "en"; PNone])
           (compliances it) ;;;
  for_each (store_reference_flow pid) (reference_flow it).

(** The loop of [store_data_in_db]. *)
Fixpoint store_items (collected_data : list item) (datastock_id : pyval) : stm unit :=
  match collected_data with
  | [] => sret tt
  | it :: r =>
      fun db =>
        if product_exists (process_id it) db
        then store_items r datastock_id db            (* [continue] *)
        else (insert_item it datastock_id ;;; store_items r datastock_id) db
  end.

(** [store_data_in_db]: the loop, then [conn.commit()].  When a statement
    raises, the exception leaves the function with the transaction open. *)
Definition store_data_in_db (collected_data : list item) (c : connection)
    (datastock_id : pyval) : result unit * connection :=
  match store_items collected_data datastock_id (working c) with
  | (Ok _, db) => (Ok tt, commit (mk_connection (committed c) db))
  | (Raise e, db) => (Raise e, mk_connection (committed c) db)
  end.

End Store.

(* ================================================================== *)
(** ** Datastock resolution and the per-folder driver *)

Fixpoint skip (n : nat) (s : string) : string :=
  match n, s with
  | S k, String _ r => skip k r
  | _, _ => s
  end.

(** The longest prefix of characters satisfying [p], and the rest. *)
Fixpoint span (p : ascii -> bool) (s : string) : string * string :=
  match s with
  | String c r =>
      if p c then let '(a, b) := span p r in (String c a, b) else (EmptyString, s)
  | EmptyString => (EmptyString, EmptyString)
  end.

(** The class [[a-f0-9\-]]. *)
Definition is_uuid_char (c : ascii) : bool :=
  between 97 102 c || is_digit c || Ascii.eqb c "-".

(** [_uuid_([a-f0-9\-]+)_] at the head of [s]: the group. *)
Definition match_uuid_part (s : string) : option string :=
  if has_prefix "_uuid_" s then
    let '(u, rest) := span is_uuid_char (skip 6 s) in
    if negb (String.eqb u "") && has_prefix "_" rest then Some u else None
  else None.

(** [(.+)_uuid_([a-f0-9\-]+)_] at the head of [s], the first group being
    greedy: [taken] is what the group holds so far. *)
Fixpoint match_groups (s : string) (taken : string) : option (string * string) :=
  match s with
  | EmptyString => None
  | String c r =>
      if Ascii.eqb c "010" then None
      else
        let taken' := (taken ++ String c "")%string in
        match match_groups r taken' with
        | Some g => Some g
        | None => option_map (fun u => (taken', u)) (match_uuid_part r)
        end
  end.

(** [re.search(r'data_stock_(.+)_uuid_([a-f0-9\-]+)_', folder_name)]. *)
Fixpoint search_datastock (s : string) : option (string * string) :=
  match (if has_prefix "data_stock_" s then match_groups (skip 11 s) "" else None) with
  | Some g => Some g
  | None =>
      match s with
      | String _ r => search_datastock r
      | EmptyString => None
      end
  end.

(** [extract_datastock_info]: name and UUID, or [(None, None)]. *)
Definition extract_datastock_info (folder_name : string) : option (string * string) :=
  search_datastock folder_name.

Section Driver.
Context `{Runtime}.

(** [get_or_create_datastock].  [others] is what the other sessions commit
    between the [SELECT] and the [INSERT] of this one; a caller that is
    alone passes the identity.  The result is the identifier or [None]. *)
Definition get_or_create_datastock_among (others : database -> database)
    (c : connection) (datastock_name datastock_uuid : string)
  : pyval * connection :=
  match find (fun r => sql_eq (column 2 r) (PStr datastock_uuid))
             (rows DataStocks (working c)) with
  | Some r => (column 0 r, c)
  | None =>
      let c1 := mk_connection (others (committed c)) (others (working c)) in
      match insert_returning DataStocks [PStr datastock_name; PStr datastock_uuid]
              (working c1) with
      | (Ok datastock_id, db) =>
          (PInt datastock_id, commit (mk_connection (committed c1) db))
      | (Raise _, db) =>
          (PNone, rollback (mk_connection (committed c1) db))
      end
  end.

Definition get_or_create_datastock (c : connection)
    (datastock_name datastock_uuid : string) : pyval * connection :=
  get_or_create_datastock_among (fun db => db) c datastock_name datastock_uuid.

(** [f.endswith(".json")]. *)
Fixpoint ends_with (suffix s : string) : bool :=
  String.eqb s suffix ||
  match s with
  | String _ r => ends_with suffix r
  | EmptyString => false
  end.

(** The state of the loop over the files of a folder. *)
Record progress : Type := mk_progress {
  conn : connection;
  not_found : list string;
  file_count : Z
}.

(** One file: [loaded] is what [open] and [json.load] give for it. *)
Definition process_file (loaded : result pyval) (tr : translations)
    (datastock_id : pyval) (st : progress) : progress :=
  match loaded with
  | Raise _ => st
  | Ok data =>
      match parse_json data tr (not_found st) with
      | (Raise _, nf) => mk_progress (conn st) nf (file_count st)
      | (Ok item_data, nf) =>
          match store_data_in_db [item_data] (conn st) datastock_id with
          | (Ok _, c) => mk_progress c nf (file_count st + 1)
          | (Raise _, c) => mk_progress (rollback c) nf (file_count st)
          end
      end
  end.

Fixpoint process_files (files : list (string * result pyval)) (tr : translations)
    (datastock_id : pyval) (st : progress) : progress :=
  match files with
  | [] => st
  | (_, loaded) :: r =>
      process_files r tr datastock_id (process_file loaded tr datastock_id st)
  end.

(** [process_datastock_folder], with [MAX_FILES = None]: [listing] is the
    content of the folder (file name, and what loading it gives).  The
    result holds the count the function returns. *)
Definition process_datastock_folder (folder_name : string)
    (listing : list (string * result pyval)) (tr : translations)
    (st : progress) : progress :=
  match extract_datastock_info folder_name with
  | None => mk_progress (conn st) (not_found st) 0
  | Some (datastock_name, datastock_uuid) =>
      let '(datastock_id, c) :=
        get_or_create_datastock (conn st) datastock_name datastock_uuid in
      if negb (truthy datastock_id) then mk_progress c (not_found st) 0
      else
        let json_files := filter (fun f => ends_with ".json" (fst f)) listing in
        process_files json_files tr datastock_id (mk_progress c (not_found st) 0)
  end.

End Driver.

(** An instance for the examples: the set yields the indicators in the
    order of the source, and the server accepts every row (the examples
    pass strings, numbers and NULLs, and format strings only). *)
Definition example_runtime : Runtime :=
  {| target_indicators := target_indicator_list;
     target_indicators_perm := Permutation_refl _;
     repr := fun _ => "<object>";
     adapts := fun _ _ => true |}.


(* ================================================================== *)
(** ** Loading the dictionary, and the whole run *)

(** [translations[k] = v] on the dictionary under construction. *)
Fixpoint tr_set (k v : string) (t : translations) : translations :=
  match t with
  | [] => [(k, v)]
  | (k', v') :: r =>
      if String.eqb k' k then (k', v) :: r else (k', v') :: tr_set k v r
  end.

(** The loop of [load_translations] over the rows [csv.reader] yields. *)
Fixpoint load_rows (rows : list (list string)) (dictionary : translations)
  : translations :=
  match rows with
  | [] => dictionary
  | row :: r =>
      match row with
      | g :: e :: _ =>
          let german := strip g in
          let english := strip e in
          if negb (String.eqb german "") && negb (String.eqb english "")
          then load_rows r (tr_set (lower german) english dictionary)
          else load_rows r dictionary
      | _ => load_rows r dictionary
      end
  end.

(** [load_translations]: [file] is the content of the CSV file as rows of
    fields, or [None] when the file does not exist. *)
Definition load_translations (file : option (list (list string))) : translations :=
  match file with
  | Some rows => load_rows rows []
  | None => []
  end.

(** An entry of the data directory: its name, whether it is a directory,
    and for a directory the files it lists with what loading each gives. *)
Record dir_entry : Type := mk_dir_entry {
  entry_name : string;
  entry_is_dir : bool;
  entry_listing : list (string * result pyval)
}.

(** The state of the loop of [store_data] over the folders. *)
Record run : Type := mk_run {
  run_conn : connection;
  run_not_found : list string;
  total_processed : Z
}.

Section WholeRun.
Context `{Runtime}.

(** The loop of [store_data]: each folder is processed and its count added
    to the total. *)
Fixpoint process_folders (data_folders : list dir_entry) (tr : translations)
    (st : run) : run :=
  match data_folders with
  | [] => st
  | folder :: r =>
      let p := process_datastock_folder (entry_name folder) (entry_listing folder) tr
                 (mk_progress (run_conn st) (run_not_found st) 0) in
      process_folders r tr
        (mk_run (conn p) (not_found p) (total_processed st + file_count p))
  end.

(** [store_data] on a connection that was opened: the dictionary is loaded,
    the folders named [data_stock_...] are processed, and the unresolved
    terms are written out when there are any.  The result is the state at
    the end and the lines of [translations_not_found.txt], if it is
    written. *)
Definition store_data (data_dir : list dir_entry)
    (translation_file : option (list (list string))) (c : connection)
  : run * option (list string) :=
  let dictionary := load_translations translation_file in
  let data_folders :=
    filter (fun f => entry_is_dir f && has_prefix "data_stock_" (entry_name f))
           data_dir in
  let st := process_folders data_folders dictionary (mk_run c [] 0) in
  (st,
   if truthy (PList (map PStr (run_not_found st)))
   then Some (filter (fun item => negb (String.eqb item "")) (run_not_found st))
   else None).

End WholeRun.
(* ================================================================== *)
(** ** Vocabulary of the properties *)

(** Every key of the dict is a [str]. *)
Definition string_keys {V : Type} (d : list (pyval * V)) : Prop :=
  Forall (fun kv => exists s, fst kv = PStr s) d.

(** *** Multilingual arrays *)

(** A [{lang, value}] entry as the documents write it. *)
Definition lang_entry (lang value : string) : pyval :=
  PDict [(PStr "lang", PStr lang); (PStr "value", PStr value)].

(** The language of an entry is a [str] (entries that are not dicts are
    skipped by the script and are unconstrained). *)
Definition string_lang (e : pyval) : Prop :=
  match e with
  | PDict entry => exists s, entry_lang entry = PStr s
  | _ => True
  end.

(** The value the last entry for language [s] pairs with it. *)
Fixpoint last_value (s : string) (l : list pyval) : option pyval :=
  match l with
  | [] => None
  | e :: r =>
      match last_value s r with
      | Some v => Some v
      | None =>
          match e with
          | PDict entry =>
              if key_eqb (entry_lang entry) (PStr s) then Some (entry_value entry)
              else None
          | _ => None
          end
      end
  end.

(** *** Module amounts *)

(** The lifecycle-module code of an extension entry, when it has one. *)
Definition module_of (x : pyval) : option pyval :=
  match x with
  | PDict d => dict_lookup (PStr "module") d
  | _ => None
  end.

(** Amount and scenario the script derives from one entry. *)
Definition entry_amount (x : pyval) : pyval :=
  match amount_of x with Ok a => a | Raise _ => PNone end.

Definition entry_scenario (x : pyval) : pyval :=
  match x with
  | PDict d => match dict_lookup (PStr "scenario") d with Some v => v | None => PStr "" end
  | _ => PStr ""
  end.

(** An entry the loop accepts: an object whose module code, if any, is a
    [str] and whose value [float] does not overflow on. *)
Definition module_entry_ok (x : pyval) : Prop :=
  match x with
  | PDict d =>
      match dict_lookup (PStr "module") d with
      | Some m => exists s, m = PStr s
      | None => True
      end /\ is_ok (amount_of x) = true
  | _ => False
  end.

(** What the last entry for module [s] says. *)
Fixpoint last_module_amount (s : string) (items : list pyval) : option module_amount :=
  match items with
  | [] => None
  | x :: r =>
      match last_module_amount s r with
      | Some a => Some a
      | None =>
          match module_of x with
          | Some m =>
              if key_eqb m (PStr s)
              then Some (mk_module_amount (entry_amount x) (entry_scenario x))
              else None
          | None => None
          end
      end
  end.

(** The row stored for one entry of the module amounts of the exchange or
    LCIA result numbered [parent]. *)
Definition module_amount_row (parent : Z) (kv : pyval * module_amount) : row :=
  [PInt parent; fst kv; scenario (snd kv); amount (snd kv)].

(** The extension list of an exchange or LCIA result. *)
Definition anies_of (o : pyval) : result (list pyval) :=
  anies <- get2 o "other" "anies" empty_list ;; iter anies.

(** *** The three rules on extension entries *)

(** The guards under which the loops look at an entry. *)
Definition unit_rule (x : pyval) : bool :=
  match get x "name" PNone with
  | Ok n => eq_str n "referenceToUnitGroupDataSet"
  | Raise _ => false
  end.

Definition url_rule (x : pyval) : bool :=
  match get x "name" PNone with
  | Ok n => eq_str n "referenceToOriginalEPD"
  | Raise _ => false
  end.

Definition module_rule (x : pyval) : bool :=
  match contains "module" x with
  | Ok b => b
  | Raise _ => false
  end.

(** An entry named as a unit reference that also carries a module key. *)
Definition unit_and_module_entry : pyval :=
  PDict [ (PStr "name", PStr "referenceToUnitGroupDataSet");
          (PStr "module", PStr "A1");
          (PStr "value",
           PDict [(PStr "shortDescription", PList [PDict [(PStr "value", PStr "kg")]])]) ].

(** *** Indicator resolution *)

(** The pattern of candidate [key] matches the text [t]. *)
Definition matches (key t : string) : bool := Re.search_from key None t.

(** The first candidate, in the order [keys], that matches the first text
    matched by any candidate. *)
Fixpoint first_hit (keys : list string) (texts : list string) : option string :=
  match texts with
  | [] => None
  | t :: r =>
      match find (fun k => matches k t) keys with
      | Some k => Some k
      | None => first_hit keys r
      end
  end.

Definition key_or_none (k : option string) : pyval :=
  match k with Some key => PStr key | None => PNone end.

(** The last character of [s], or [prev] when [s] is empty. *)
Fixpoint last_char (prev : option ascii) (s : string) : option ascii :=
  match s with
  | EmptyString => prev
  | String c r => last_char (Some c) r
  end.

(** Whole-word, case-insensitive presence of [key] in [t], in the words of
    the specification: [t] is [pre ++ mid ++ post] where [mid] is [key] up
    to case and a word boundary stands on each side of [mid]. *)
Definition whole_word_occurrence (key t : string) : Prop :=
  exists pre mid post,
    t = (pre ++ mid ++ post)%string
    /\ lower mid = lower key
    /\ Re.boundary (last_char None pre) (Re.head (mid ++ post)%string) = true
    /\ Re.boundary (last_char None (pre ++ mid)%string) (Re.head post) = true.

(** A flow described in German by "ODP" and in English by "GWP-total". *)
Definition odp_then_gwp : dict :=
  [(PStr "de", PStr "ODP"); (PStr "en", PStr "GWP-total")].

(** *** Time stamps *)

(** Input that is not a number for Python: [None], an array, an object, or
    a string that is not an integer literal.  ([True] and [False] are the
    ints 1 and 0 for Python, as for [int()]; they are numbers here.) *)
Definition non_numeric (v : pyval) : Prop :=
  match v with
  | PNone | PList _ | PDict _ => True
  | PStr s => int_of_string s = None
  | PBool _ | PInt _ | PFloat _ => False
  end.

(** Day number (from 1970-01-01) of a proleptic Gregorian date. *)
Definition days_from_civil (y m d : Z) : Z :=
  let y' := if (m <=? 2)%Z then y - 1 else y in
  let era := y' / 400 in
  let yoe := y' - era * 400 in
  let doy := (153 * (if (2 <? m)%Z then m - 3 else m + 9) + 2) / 5 + d - 1 in
  let doe := yoe * 365 + yoe / 4 - yoe / 100 + doy in
  era * 146097 + doe - 719468.

(** The instant of a UTC datetime, in milliseconds since the epoch
    (rounded down). *)
Definition epoch_milliseconds (dt : Datetime.datetime) : Z :=
  (days_from_civil (Datetime.year dt) (Datetime.month dt) (Datetime.day dt) * 86400
   + Datetime.hour dt * 3600 + Datetime.minute dt * 60 + Datetime.second dt) * 1000
  + Datetime.microsecond dt / 1000.

(** A leap year of the Gregorian calendar. *)
Definition leap_year (y : Z) : bool :=
  Z.eqb (y mod 4) 0 && (negb (Z.eqb (y mod 100) 0) || Z.eqb (y mod 400) 0).

(** The length of a month. *)
Definition days_in_month (y m : Z) : Z :=
  if Z.eqb m 2 then (if leap_year y then 29 else 28)
  else if Z.eqb m 4 || Z.eqb m 6 || Z.eqb m 9 || Z.eqb m 11 then 30
  else 31.

(** A date of the calendar, in the years that [datetime] has. *)
Definition valid_date (y m d : Z) : bool :=
  Z.leb 1 y && Z.leb y 9999 && Z.leb 1 m && Z.leb m 12
  && Z.leb 1 d && Z.leb d (days_in_month y m).

(** A datetime whose date is one of the calendar and whose time is one of
    the clock. *)
Definition valid_datetime (dt : Datetime.datetime) : bool :=
  valid_date (Datetime.year dt) (Datetime.month dt) (Datetime.day dt)
  && Z.leb 0 (Datetime.hour dt) && Z.ltb (Datetime.hour dt) 24
  && Z.leb 0 (Datetime.minute dt) && Z.ltb (Datetime.minute dt) 60
  && Z.leb 0 (Datetime.second dt) && Z.ltb (Datetime.second dt) 60
  && Z.leb 0 (Datetime.microsecond dt) && Z.ltb (Datetime.microsecond dt) 1000000.

(** The magnitude, in milliseconds, below which the float [n / 1000] still
    tells the millisecond: [2^33] seconds. *)
Definition exact_limit : Z := 8589934592000.

(** The date of a day number is one of the calendar, and its day number is
    that day. *)
Definition date_check (day_number : Z) : bool :=
  let '(y, m, d) := Datetime.civil_from_days day_number in
  valid_date y m d && Z.eqb (days_from_civil y m d) day_number.

(** One step of [date_check] along a run of days: the next day, and whether
    every day so far has passed. *)
Definition check_step (st : Z * bool) : Z * bool :=
  (fst st + 1, snd st && date_check (fst st)).

(** What a right shift dropped, as [SpecFloat] records it: nothing, or
    less than, exactly or more than half of [half2], the weight of the last
    bit kept. *)
Definition loc_of (rem half2 : Z) : location :=
  if Z.eqb rem 0 then loc_Exact else loc_Inexact (Z.compare (2 * rem) half2).

(** *** Category projection *)

(** The normal form under which the Translation Lookup finds a term. *)
Definition normalized (s : string) : string :=
  strip (lower (remove_char "," s)).

(** The Translation Lookup, in the words of the specification: the English
    term when the dictionary maps the normalized text, the text itself
    otherwise (and for an empty or missing text). *)
Definition translated (tr : translations) (text : pyval) : pyval :=
  match text with
  | PStr s =>
      if String.eqb s "" then text
      else match tr_lookup (normalized s) tr with
           | Some english => PStr english
           | None => text
           end
  | _ => text
  end.

(** The entry belongs to the system "oekobau.dat" (whatever the case). *)
Definition oekobau (c : classification) : bool :=
  match cl_name c with
  | PStr n => String.eqb (lower n) "oekobau.dat"
  | _ => false
  end.

(** The entry is at level [k]. *)
Definition at_level (k : Z) (c : classification) : bool :=
  match py_int (cl_level c) with
  | Ok z => Z.eqb z k
  | Raise _ => false
  end.

(** The last entry, in document order, that satisfies [p]. *)
Fixpoint last_match (p : classification -> bool) (cs : list classification)
  : option classification :=
  match cs with
  | [] => None
  | c :: r =>
      match last_match p r with
      | Some c' => Some c'
      | None => if p c then Some c else None
      end
  end.

(** The category the specification assigns for level [k]. *)
Definition projected (tr : translations) (k : Z) (cs : list classification) : pyval :=
  match last_match (fun c => oekobau c && at_level k c) cs with
  | Some c => translated tr (cl_classification c)
  | None => PNone
  end.

(** Entries the projection does not raise on: the system name is a string
    and, for the entries of "oekobau.dat", the level converts to an int and
    the value is a string (or empty, or missing). *)
Definition projectable (c : classification) : Prop :=
  (exists n, cl_name c = PStr n)
  /\ (oekobau c = true ->
      is_ok (py_int (cl_level c)) = true
      /\ (truthy (cl_classification c) = true -> exists s, cl_classification c = PStr s)).

(** The level a state holds for [k] (0, 1 or 2). *)
Definition level_of (k : Z) (st : categories) : pyval :=
  if Z.eqb k 0 then level_1 st else if Z.eqb k 1 then level_2 st else level_3 st.

(** *** The store *)

(** The number of Product rows with the key [pid]. *)
Definition product_count (pid : string) (db : database) : nat :=
  List.length (filter (fun r => sql_eq (column 0 r) (PStr pid)) (t_products db)).

(** A statement that leaves the table Products as it is, whatever it
    returns. *)
Definition keeps_products {A : Type} (m : stm A) : Prop :=
  forall db, t_products (snd (m db)) = t_products db.

(** *** Example documents *)

(** A JSON object written with its keys. *)
Definition obj (l : list (string * pyval)) : pyval :=
  PDict (map (fun kv => (PStr (fst kv), snd kv)) l).

(** A well-formed EPD document: identity, a bilingual name, two
    classification entries, one exchange that is the reference flow and one
    impact result with a unit and a module amount. *)
Definition well_formed_document : pyval :=
  obj [ ("processInformation",
         obj [ ("dataSetInformation",
                obj [ ("UUID", PStr "aaaa-0001");
                      ("name", obj [("baseName",
                                     PList [lang_entry "en" "Concrete C20/25";
                                            lang_entry "de" "Beton C20/25"])]);
                      ("classificationInformation",
                       obj [("classification",
                             PList [obj [ ("name", PStr "oekobau.dat");
                                          ("class",
                                           PList [obj [("level", PInt 0); ("classId", PStr "1");
                                                       ("value", PStr "Mineralische Baustoffe")];
                                                  obj [("level", PInt 1); ("classId", PStr "1.3");
                                                       ("value", PStr "Beton")]]) ]])]) ]);
               ("quantitativeReference",
                obj [("referenceToReferenceFlow", PList [PInt 0])]) ]);
        ("modellingAndValidation", obj []);
        ("administrativeInformation",
         obj [ ("publicationAndOwnership", obj [("dataSetVersion", PStr "00.01.000")]);
               ("dataEntryBy", obj [("timeStamp", PInt 1700000000000)]) ]);
        ("exchanges",
         obj [("exchange",
               PList [obj [ ("dataSetInternalID", PInt 0);
                            ("referenceToFlowDataSet",
                             obj [("shortDescription", PList [lang_entry "en" "Concrete"])]);
                            ("flowProperties",
                             PList [obj [ ("name", PList [lang_entry "en" "Mass"]);
                                          ("meanValue", PInt 2400);
                                          ("referenceUnit", PStr "kg") ]]);
                            ("materialProperties",
                             PList [obj [ ("name", PStr "gross density");
                                          ("value", PStr "2400");
                                          ("unit", PStr "kg/m^3") ]]) ]])]);
        ("LCIAResults",
         obj [("LCIAResult",
               PList [obj [ ("referenceToLCIAMethodDataSet",
                             obj [("shortDescription",
                                   PList [lang_entry "en" "Global warming potential (GWP-total)"])]);
                            ("other",
                             obj [("anies",
                                   PList [ obj [("module", PStr "A1-A3"); ("value", PStr "1.23")];
                                           obj [ ("name", PStr "referenceToUnitGroupDataSet");
                                                 ("value",
                                                  obj [("shortDescription",
                                                        PList [lang_entry "en" "kg CO2 eq."])]) ] ])]) ]])]) ].

(** The record of a document, for documents that parse. *)
Definition record_of (data : pyval) : option item :=
  match fst (@parse_json example_runtime data [] []) with
  | Ok it => Some it
  | Raise _ => None
  end.

(** A connection to a database that holds one datastock, numbered 1. *)
Definition one_datastock : connection :=
  snd (@get_or_create_datastock example_runtime (mk_connection Db.empty Db.empty)
         "Default" "1111-2222").

(** *** Datastocks *)

(** The row the [SELECT] of [get_or_create_datastock] fetches. *)
Definition datastock_row (datastock_uuid : string) (db : database) : option row :=
  find (fun r => sql_eq (column 2 r) (PStr datastock_uuid)) (rows DataStocks db).

(** Another session that creates the datastock and commits. *)
Definition concurrent_create (datastock_name datastock_uuid : string)
    (db : database) : database :=
  let '(id, db1) := nextval DataStocks db in
  add_row DataStocks [PInt id; PStr datastock_name; PStr datastock_uuid] db1.

Definition fresh_connection : connection := mk_connection Db.empty Db.empty.

(** *** Structural anchors of a document *)

(** The reference-flow declaration: the first internal ID listed under
    [quantitativeReference]. *)
Definition declared_reference (data : pyval) : result pyval :=
  pi <- getitem data "processInformation" ;;
  qr <- getitem pi "quantitativeReference" ;;
  rr <- getitem qr "referenceToReferenceFlow" ;;
  first rr.

(** The exchange entries of a document. *)
Definition exchanges_of (data : pyval) : result (list pyval) :=
  xs <- get2 data "exchanges" "exchange" empty_list ;; iter xs.

(** The exchange carries the internal ID [id]. *)
Definition is_reference (id : pyval) (ex : pyval) : bool :=
  match get ex "dataSetInternalID" PNone with
  | Ok v => py_eq v id
  | Raise _ => false
  end.

(** The classification entries of a document, flattened in document
    order. *)
Definition classification_entries (data : pyval) : result (list classification) :=
  pi <- getitem data "processInformation" ;;
  dsi <- getitem pi "dataSetInformation" ;;
  ci <- get2 dsi "classificationInformation" "classification" empty_list ;;
  cis <- iter ci ;;
  classification_loop cis.

(** The UUID and the version a document declares, if it does. *)
Definition declared_uuid (data : pyval) : option pyval :=
  match data with
  | PDict d =>
      match dict_lookup (PStr "processInformation") d with
      | Some (PDict pi) =>
          match dict_lookup (PStr "dataSetInformation") pi with
          | Some (PDict dsi) => dict_lookup (PStr "UUID") dsi
          | _ => None
          end
      | _ => None
      end
  | _ => None
  end.

Definition declared_version (data : pyval) : option pyval :=
  match data with
  | PDict d =>
      match dict_lookup (PStr "administrativeInformation") d with
      | Some (PDict ai) =>
          match dict_lookup (PStr "publicationAndOwnership") ai with
          | Some (PDict po) => dict_lookup (PStr "dataSetVersion") po
          | _ => None
          end
      | _ => None
      end
  | _ => None
  end.

Definition or_empty (v : option pyval) : pyval :=
  match v with Some x => x | None => PStr "" end.

(** A minimal document with the given identity fields, reference-flow
    declaration and exchanges. *)
Definition document (identity : list (string * pyval))
    (quantitative_reference : list (string * pyval))
    (exchange_list : list pyval) : pyval :=
  obj [ ("processInformation",
         obj (("dataSetInformation", obj identity) :: quantitative_reference));
        ("modellingAndValidation", obj []);
        ("administrativeInformation",
         obj [("publicationAndOwnership", obj [("dataSetVersion", PStr "00.01.000")])]);
        ("exchanges", obj [("exchange", PList exchange_list)]) ].

Definition declares (id : Z) : list (string * pyval) :=
  [("quantitativeReference", obj [("referenceToReferenceFlow", PList [PInt id])])].

Definition exchange_numbered (id : Z) : pyval :=
  obj [("dataSetInternalID", PInt id)].

(** The declared ID 7 is the ID of no exchange. *)
Definition document_no_reference_exchange : pyval :=
  document [("UUID", PStr "bbbb-0002")] (declares 7) [exchange_numbered 0].

(** The declared ID 0 is the ID of two exchanges. *)
Definition document_two_reference_exchanges : pyval :=
  document [("UUID", PStr "cccc-0003")] (declares 0)
    [exchange_numbered 0; exchange_numbered 1; exchange_numbered 0].

(** A document without its UUID field, and one without its reference-flow
    declaration. *)
Definition document_without_uuid : pyval :=
  document [] (declares 0) [exchange_numbered 0].

Definition document_without_declaration : pyval :=
  document [("UUID", PStr "dddd-0004")] [] [exchange_numbered 0].

(** The folder of the end-to-end scenario and what processing it with the
    example process gives, starting from an empty database. *)
Definition scenario_folder : string := "data_stock_Default_uuid_1111-2222_20240101".

Definition run_folder (listing : list (string * result pyval)) : progress :=
  @process_datastock_folder example_runtime scenario_folder listing []
    (mk_progress fresh_connection [] 0).


(* ================================================================== *)
(** ** Vocabulary of the further properties *)

(** The text holds a comma. *)
Fixpoint has_comma (s : string) : bool :=
  match s with
  | EmptyString => false
  | String c r => Ascii.eqb c "," || has_comma r
  end.

(** The dictionary entry a CSV row contributes, if it does. *)
Definition row_entry (row : list string) : option (string * string) :=
  match row with
  | g :: e :: _ =>
      if negb (String.eqb (strip g) "") && negb (String.eqb (strip e) "")
      then Some (lower (strip g), strip e) else None
  | _ => None
  end.

(** The English term of the last row that contributes the key [k]. *)
Fixpoint last_row_for (k : string) (rows : list (list string)) : option string :=
  match rows with
  | [] => None
  | row :: r =>
      match last_row_for k r with
      | Some e => Some e
      | None =>
          match row_entry row with
          | Some (k', e) => if String.eqb k' k then Some e else None
          | None => None
          end
      end
  end.

(** The list [nf'] is [nf] followed by new terms, each of them once, none
    of them empty, translatable or already in [nf]. *)
Definition records_untranslated (tr : translations) (nf nf' : list string) : Prop :=
  exists extra,
    nf' = nf ++ extra /\ NoDup extra /\
    forall s, In s extra ->
              s <> "" /\ tr_lookup (normalized s) tr = None /\ ~ In s nf.

(** The unit an extension entry offers: the entry is named
    [referenceToUnitGroupDataSet], its value is an object, and a
    description in its [shortDescription] list is an object with a
    [value]. *)
Definition unit_of (item : pyval) : option pyval :=
  match item with
  | PDict d =>
      match dict_lookup (PStr "name") d with
      | Some n =>
          if eq_str n "referenceToUnitGroupDataSet" then
            match dict_lookup (PStr "value") d with
            | Some (PDict uv) =>
                match dict_lookup (PStr "shortDescription") uv with
                | Some (PList descs) => find_value descs
                | _ => None
                end
            | _ => None
            end
          else None
      | None => None
      end
  | _ => None
  end.

(** An entry the unit loop does not raise on: an object whose
    [shortDescription], where the loop reads it, is a list. *)
Definition unit_entry_ok (item : pyval) : Prop :=
  match item with
  | PDict d =>
      match dict_lookup (PStr "name") d, dict_lookup (PStr "value") d with
      | Some n, Some (PDict uv) =>
          eq_str n "referenceToUnitGroupDataSet" = true ->
          match dict_lookup (PStr "shortDescription") uv with
          | Some sd => is_list sd = true
          | None => True
          end
      | _, _ => True
      end
  | _ => False
  end.

(** The URLs an extension entry of the document offers as the original
    EPD. *)
Definition original_epd_urls (item : pyval) : list pyval :=
  match item with
  | PDict d =>
      match dict_lookup (PStr "name") d with
      | Some n =>
          if eq_str n "referenceToOriginalEPD" then
            match dict_lookup (PStr "value") d with
            | Some (PDict v) =>
                match dict_lookup (PStr "resourceURLs") v with
                | Some (PList urls) => urls
                | _ => []
                end
            | _ => []
            end
          else []
      | None => []
      end
  | _ => []
  end.

(** An entry the URL loop reads as the format intends: an object whose
    value, when it is named [referenceToOriginalEPD], is absent or an
    object whose [resourceURLs] is absent or a list. *)
Definition url_entry_ok (item : pyval) : Prop :=
  match item with
  | PDict d =>
      match dict_lookup (PStr "name") d with
      | Some n =>
          eq_str n "referenceToOriginalEPD" = true ->
          match dict_lookup (PStr "value") d with
          | Some (PDict v) =>
              match dict_lookup (PStr "resourceURLs") v with
              | Some urls => is_list urls = true
              | None => True
              end
          | Some _ => False
          | None => True
          end
      | None => True
      end
  | _ => False
  end.

(** The only outcomes of a conversion that catches [ValueError] and
    [TypeError]. *)
Definition none_or (p : pyval -> bool) (r : result pyval) (raised : exn -> bool) : Prop :=
  match r with
  | Ok PNone => True
  | Ok v => p v = true
  | Raise e => raised e = true
  end.

Definition is_str (v : pyval) : bool :=
  match v with PStr _ => true | _ => false end.

Definition is_float (v : pyval) : bool :=
  match v with PFloat _ => true | _ => false end.

Definition overflow_or_os (e : exn) : bool :=
  match e with OverflowError | OSError => true | _ => false end.

Definition overflow_only (e : exn) : bool :=
  match e with OverflowError => true | _ => false end.


(** Every character of [s] satisfies [p]. *)
Fixpoint all_chars (p : ascii -> bool) (s : string) : bool :=
  match s with
  | EmptyString => true
  | String c r => p c && all_chars p r
  end.

(** What [.] matches: anything but a line feed. *)
Definition is_dot_char (c : ascii) : bool := negb (Ascii.eqb c "010").

(** The UUID part of the pattern matches at a position after the first
    character of [s]. *)
Fixpoint later_mark (s : string) : bool :=
  match s with
  | EmptyString => false
  | String _ r =>
      match match_uuid_part r with Some _ => true | None => later_mark r end
  end.

(** *** The store, table by table *)

(** No transaction is open: what the session sees is what is committed. *)
Definition settled (c : connection) : Prop := committed c = working c.

Definition table_eqb (a b : table) : bool :=
  match a, b with
  | DataStocks, DataStocks
  | Products, Products
  | Classifications, Classifications
  | Exchanges, Exchanges
  | Exchange_ModuleAmounts, Exchange_ModuleAmounts
  | LCIA_Results, LCIA_Results
  | LCIA_ModuleAmounts, LCIA_ModuleAmounts
  | Reviews, Reviews
  | Compliances, Compliances
  | Flow_Properties, Flow_Properties
  | Material_Properties, Material_Properties => true
  | _, _ => false
  end.

(** [n] rows in the table [t], none elsewhere. *)
Definition rows_in (t : table) (n : nat) (t' : table) : nat :=
  if table_eqb t t' then n else 0.

(** The row [r] of the table [t] is a row of the product [pid] imported
    for the datastock [datastock_id]: the product row carries both, a row
    of a child table the key of the product.  The rows of the two
    module-amount tables carry the serial key of their parent instead. *)
Definition belongs (pid : string) (datastock_id : pyval) (t : table) (r : row) : Prop :=
  match t with
  | DataStocks => False
  | Products => column 0 r = PStr pid /\ column 40 r = datastock_id
  | Exchanges | LCIA_Results => column 1 r = PStr pid
  | Exchange_ModuleAmounts | LCIA_ModuleAmounts => exists id, column 0 r = PInt id
  | Classifications | Reviews | Compliances | Flow_Properties
  | Material_Properties => column 0 r = PStr pid
  end.

(** A statement that, when it returns, has appended [n t] rows satisfying
    [P t] to every table [t] and changed nothing else of the tables. *)
Definition adds {A : Type} (P : table -> row -> Prop) (m : stm A)
    (n : table -> nat) : Prop :=
  forall db a db',
    m db = (Ok a, db') ->
    forall t, exists l,
      rows t db' = rows t db ++ l /\ List.length l = n t /\ Forall (P t) l.

(** The rows a record is stored as, table by table. *)
Definition item_rows (it : item) (t : table) : nat :=
  match t with
  | DataStocks => 0
  | Products => 1
  | Classifications => List.length (classifications it)
  | Exchanges => List.length (exchanges it)
  | Exchange_ModuleAmounts =>
      list_sum (map (fun e => List.length (ex_module_amounts e)) (exchanges it))
  | LCIA_Results => List.length (lcia_results it)
  | LCIA_ModuleAmounts =>
      list_sum (map (fun l => List.length (lc_module_amounts l)) (lcia_results it))
  | Reviews => list_sum (map (fun reviewers => List.length reviewers) (reviews it))
  | Compliances => List.length (compliances it)
  | Flow_Properties =>
      list_sum (map (fun rf => List.length (rf_flow_properties rf)) (reference_flow it))
  | Material_Properties =>
      list_sum (map (fun rf => List.length (rf_material_properties rf)) (reference_flow it))
  end.

(** The folders [store_data] processes and the files it looks at. *)
Definition data_folders (data_dir : list dir_entry) : list dir_entry :=
  filter (fun f => entry_is_dir f && has_prefix "data_stock_" (entry_name f)) data_dir.

Definition json_files (listing : list (string * result pyval))
  : list (string * result pyval) :=
  filter (fun f => ends_with ".json" (fst f)) listing.

Definition json_file_count (data_dir : list dir_entry) : nat :=
  list_sum (map (fun f => List.length (json_files (entry_listing f)))
                (data_folders data_dir)).

(** Every table of [db'] is the table of [db] followed by new rows, at
    most [products] of them in Products and [datastocks] in DataStocks. *)
Definition grows_by (db db' : database) (products datastocks : nat) : Prop :=
  (forall t, exists l, rows t db' = rows t db ++ l)
  /\ (List.length (rows Products db') <= List.length (rows Products db) + products)%nat
  /\ (List.length (rows DataStocks db') <= List.length (rows DataStocks db) + datastocks)%nat.

(** A document that parses and whose last row cannot be stored: the value
    of its material property is an integer beyond the floats. *)
Definition document_unstorable : pyval :=
  document [("UUID", PStr "eeee-0005")] (declares 0)
    [ obj [ ("dataSetInternalID", PInt 0);
            ("materialProperties",
             PList [obj [ ("name", PStr "gross density");
                          ("value", PInt (2 ^ 1024));
                          ("unit", PStr "kg/m^3") ]]) ] ].

(** A data directory: the folder of the scenario with the well-formed
    document twice, the document that cannot be stored, a file that is not
    JSON and one that cannot be loaded; a folder and a file that
    [store_data] does not look at. *)
Definition example_data_dir : list dir_entry :=
  [ mk_dir_entry "notes" true [("x.json", Ok well_formed_document)];
    mk_dir_entry scenario_folder true
      [ ("a.json", Ok well_formed_document);
        ("b.json", Ok document_unstorable);
        ("readme.txt", Ok well_formed_document);
        ("c.json", Raise ValueError);
        ("d.json", Ok well_formed_document) ];
    mk_dir_entry "data_stock_list.csv" false [] ].

(** The impact-result entries and the compliance entries of a document. *)
Definition lcia_entries (data : pyval) : result (list pyval) :=
  ls <- get2 data "LCIAResults" "LCIAResult" empty_list ;; iter ls.

Definition compliance_entries (data : pyval) : result (list pyval) :=
  mv <- getitem data "modellingAndValidation" ;;
  cp <- get2 mv "complianceDeclarations" "compliance" empty_list ;;
  iter cp.

(** *** Material properties *)

(** Key and entry the comprehension derives from one material property:
    it needs the keys [name], [value] and [unit]. *)
Definition material_of (mp : pyval) : option (pyval * material_property) :=
  match mp with
  | PDict d =>
      match dict_lookup (PStr "name") d, dict_lookup (PStr "value") d,
            dict_lookup (PStr "unit") d with
      | Some k, Some v, Some u =>
          Some (k, mk_material_property v u (dget d "unitDescription"))
      | _, _, _ => None
      end
  | _ => None
  end.

(** A property with its three keys, named by a [str]. *)
Definition material_entry_ok (mp : pyval) : Prop :=
  match material_of mp with
  | Some (PStr _, _) => True
  | _ => False
  end.

(** What the last property named [s] says. *)
Fixpoint last_material (s : string) (mps : list pyval) : option material_property :=
  match mps with
  | [] => None
  | mp :: r =>
      match last_material s r with
      | Some p => Some p
      | None =>
          match material_of mp with
          | Some (k, p) => if eq_str k s then Some p else None
          | None => None
          end
      end
  end.

(** *** The formats column *)

(** The format names that reach the [formats] column: the non-empty
    strings. *)
Definition format_names (formats : list pyval) : list string :=
  flat_map (fun f => match f with
                     | PStr s => if String.eqb s "" then [] else [s]
                     | _ => []
                     end) formats.

(** A format value [filter(None, ...)] keeps and [join] refuses. *)
Definition unjoinable (f : pyval) : bool := truthy f && negb (is_str f).

(** A document that names two formats, the second by a number. *)
Definition document_numbered_format : pyval :=
  obj [ ("processInformation",
         obj [ ("dataSetInformation", obj [("UUID", PStr "abab-0007")]);
               ("quantitativeReference", obj [("referenceToReferenceFlow", PList [PInt 0])]) ]);
        ("modellingAndValidation", obj []);
        ("administrativeInformation",
         obj [("dataEntryBy",
               obj [("referenceToDataSetFormat",
                     PList [ obj [("shortDescription", PList [lang_entry "en" "ILCD format"])];
                             obj [("shortDescription", PList [obj [("value", PInt 5)]])] ])])]) ].

(** *** Importing a folder again *)

(** The file parses to a record, the same whatever terms are already
    unresolved, and the database holds a product with its key. *)
Definition already_stored `{Runtime} (tr : translations) (db : database)
    (f : string * result pyval) : Prop :=
  exists data it,
    snd f = Ok data
    /\ (forall nf, fst (parse_json data tr nf) = Ok it)
    /\ product_exists (process_id it) db = true.

(** *** The product key *)

Definition no_underscore (s : string) : bool :=
  all_chars (fun c => negb (Ascii.eqb c "_")) s.

(** *** Data sources and reviewers *)

(** The data-source entries of a document. *)
Definition source_entries (data : pyval) : result (list pyval) :=
  mv <- getitem data "modellingAndValidation" ;;
  rds <- get2 mv "dataSourcesTreatmentAndRepresentativeness" "referenceToDataSource"
              empty_list ;;
  iter rds.

(** The reviewer entries of the reviews of a document, review by review. *)
Fixpoint reviewer_entries (rvs : list pyval) : result (list (list pyval)) :=
  match rvs with
  | [] => Ok []
  | r :: rest =>
      refs <- get r "referenceToNameOfReviewerAndInstitution" empty_list ;;
      es <- iter refs ;;
      t <- reviewer_entries rest ;;
      Ok (es :: t)
  end.

Definition review_entries (data : pyval) : result (list pyval) :=
  mv <- getitem data "modellingAndValidation" ;;
  rv <- get2 mv "validation" "review" empty_list ;;
  iter rv.

(** A document with one data source whose description has a null value,
    and one review whose reviewer has one. *)
Definition document_null_source : pyval :=
  obj [ ("processInformation",
         obj [ ("dataSetInformation", obj [("UUID", PStr "cdcd-0008")]);
               ("quantitativeReference", obj [("referenceToReferenceFlow", PList [PInt 0])]) ]);
        ("modellingAndValidation",
         obj [("dataSourcesTreatmentAndRepresentativeness",
               obj [("referenceToDataSource",
                     PList [obj [("shortDescription", PList [obj [("value", PNone)]])]])])]) ].

Definition document_null_reviewer : pyval :=
  obj [ ("processInformation",
         obj [ ("dataSetInformation", obj [("UUID", PStr "cdcd-0009")]);
               ("quantitativeReference", obj [("referenceToReferenceFlow", PList [PInt 0])]) ]);
        ("modellingAndValidation",
         obj [("validation",
               obj [("review",
                     PList [obj [("referenceToNameOfReviewerAndInstitution",
                                  PList [obj [("shortDescription",
                                               PList [obj [("value", PNone)]])]])]])])]) ].

(** *** Parents and their module amounts *)

(** The two parent tables with a serial key, each with its child table
    and its sequence. *)
Inductive family : Type := ExchangeFamily | LciaFamily.

Definition parent_table (f : family) : table :=
  match f with ExchangeFamily => Exchanges | LciaFamily => LCIA_Results end.

Definition child_table (f : family) : table :=
  match f with
  | ExchangeFamily => Exchange_ModuleAmounts
  | LciaFamily => LCIA_ModuleAmounts
  end.

Definition seq_of (f : family) (db : database) : Z :=
  match f with ExchangeFamily => seq_exchange db | LciaFamily => seq_lcia db end.

(** What a family is made of in a database. *)
Definition view (f : family) (db : database) : list row * list row * Z :=
  (rows (parent_table f) db, rows (child_table f) db, seq_of f db).

(** A statement that leaves the family [f] alone, whatever it returns. *)
Definition keeps {A : Type} (f : family) (m : stm A) : Prop :=
  forall db, view f (snd (m db)) = view f db.

(** The rows of the exchanges of a record, numbered from [seq + 1] in the
    order of the record, and the rows of their module amounts. *)
Definition exchange_row (pid : pyval) (id : Z) (e : exchange) : row :=
  [PInt id; pid; dget (ex_flow e) "de"; dget (ex_flow e) "en"; ex_indicator_key e;
   ex_direction e; ex_meanAmount e; ex_unit e].

Fixpoint exchange_rows (pid : pyval) (seq : Z) (l : list exchange) : list row :=
  match l with
  | [] => []
  | e :: r => exchange_row pid (seq + 1) e :: exchange_rows pid (seq + 1) r
  end.

Fixpoint exchange_amount_rows (seq : Z) (l : list exchange) : list row :=
  match l with
  | [] => []
  | e :: r =>
      map (module_amount_row (seq + 1)) (ex_module_amounts e)
      ++ exchange_amount_rows (seq + 1) r
  end.

Definition lcia_row (pid : pyval) (id : Z) (l : lcia_result) : row :=
  [PInt id; pid; dget (lc_method l) "de"; dget (lc_method l) "en"; lc_indicator_key l;
   lc_meanAmount l; lc_unit l].

Fixpoint lcia_rows (pid : pyval) (seq : Z) (l : list lcia_result) : list row :=
  match l with
  | [] => []
  | x :: r => lcia_row pid (seq + 1) x :: lcia_rows pid (seq + 1) r
  end.

Fixpoint lcia_amount_rows (seq : Z) (l : list lcia_result) : list row :=
  match l with
  | [] => []
  | x :: r =>
      map (module_amount_row (seq + 1)) (lc_module_amounts x)
      ++ lcia_amount_rows (seq + 1) r
  end.
(* ================================================================== *)
(** * Properties *)

(** ** Dictionaries with string keys *)

Section DictFacts.
Context {V : Type}.
Implicit Types (d : list (pyval * V)) (s t : string) (v : V).

Lemma dict_lookup_set d s t v :
  string_keys d ->
  dict_lookup (PStr t) (dict_set (PStr s) v d)
  = if String.eqb s t then Some v else dict_lookup (PStr t) d.
Proof.
  induction 1 as [|[k w] r [u Hk] Hr IH]; simpl.
  - now rewrite String.eqb_sym.
  - simpl in Hk; subst k; simpl.
    destruct (String.eqb u s) eqn:Eus; simpl.
    + apply String.eqb_eq in Eus; subst u.
      destruct (String.eqb s t); reflexivity.
    + destruct (String.eqb u t) eqn:Eut; [|exact IH].
      apply String.eqb_eq in Eut; subst u.
      rewrite String.eqb_sym, Eus; reflexivity.
Qed.

Lemma dict_set_string_keys d s v :
  string_keys d -> string_keys (dict_set (PStr s) v d).
Proof.
  induction 1 as [|[k w] r [u Hk] Hr IH]; simpl.
  - repeat constructor; now exists s.
  - simpl in Hk; subst k; simpl.
    destruct (String.eqb u s); constructor; try (now exists u); assumption.
Qed.

Lemma dict_set_keys_in d s v k :
  In k (map fst (dict_set (PStr s) v d)) -> k = PStr s \/ In k (map fst d).
Proof.
  induction d as [|[k' w] r IH]; simpl.
  - intros [<-|[]]; now left.
  - destruct (key_eqb k' (PStr s)); simpl; intros [<-|Hin]; auto.
    destruct (IH Hin); auto.
Qed.

Lemma dict_set_nodup d s v :
  string_keys d -> NoDup (map fst d) -> NoDup (map fst (dict_set (PStr s) v d)).
Proof.
  induction 1 as [|[k w] r [u Hk] Hr IH]; simpl; intros Hn.
  - repeat constructor; intros [].
  - simpl in Hk; subst k; simpl.
    destruct (String.eqb u s) eqn:Eus; simpl; [exact Hn|].
    inversion Hn as [|? ? Hnotin Hn']; subst.
    constructor; [|now apply IH].
    intros Hin. destruct (dict_set_keys_in _ _ _ _ Hin) as [E|Hin']; [|tauto].
    inversion E; subst. now rewrite String.eqb_refl in Eus.
Qed.

Lemma dict_lookup_not_key d k :
  (forall kv, In kv d -> key_eqb (fst kv) k = false) -> dict_lookup k d = None.
Proof.
  induction d as [|[k' w] r IH]; simpl; intros Hall; [reflexivity|].
  pose proof (Hall (k', w) (or_introl eq_refl)) as Hk; simpl in Hk; rewrite Hk.
  apply IH; intros; apply Hall; now right.
Qed.

End DictFacts.

(** ** [extract_multilang] *)

Lemma last_value_none s l :
  (forall entry, In (PDict entry) l -> entry_lang entry <> PStr s) ->
  Forall string_lang l ->
  last_value s l = None.
Proof.
  intros Hno Hl; induction Hl as [|e r He Hr IH]; simpl; [reflexivity|].
  rewrite IH by (intros; apply Hno; now right).
  destruct e; try reflexivity.
  destruct He as [u Hu]. rewrite Hu; simpl.
  destruct (String.eqb u s) eqn:E; [|reflexivity].
  apply String.eqb_eq in E; subst u.
  exfalso; apply (Hno d); [now left|exact Hu].
Qed.

Lemma last_value_last s l1 entry l2 :
  entry_lang entry = PStr s ->
  (forall e', In (PDict e') l2 -> entry_lang e' <> PStr s) ->
  Forall string_lang l2 ->
  last_value s (l1 ++ PDict entry :: l2) = Some (entry_value entry).
Proof.
  intros Hs Hno Hl2; induction l1 as [|e r IH]; simpl.
  - rewrite (last_value_none s l2 Hno Hl2), Hs; simpl.
    now rewrite String.eqb_refl.
  - now rewrite IH.
Qed.

Lemma collapse_spec l :
  Forall string_lang l ->
  forall acc, string_keys acc -> NoDup (map fst acc) ->
  exists d, collapse l acc = Ok d /\ string_keys d /\ NoDup (map fst d) /\
            forall s, dict_lookup (PStr s) d
                      = match last_value s l with
                        | Some v => Some v
                        | None => dict_lookup (PStr s) acc
                        end.
Proof.
  induction 1 as [|e r He Hr IH]; intros acc Hk Hn.
  - exists acc; auto.
  - destruct e; simpl;
      try (destruct (IH acc Hk Hn) as (d' & Hd' & ? & ? & Hl); exists d';
           repeat split; auto; intros lang; rewrite Hl;
           now destruct (last_value lang r)).
    destruct He as [u Hu]. rewrite Hu; simpl.
    destruct (IH (dict_set (PStr u) (entry_value d) acc)) as (d' & -> & ? & ? & Hl).
    + now apply dict_set_string_keys.
    + now apply dict_set_nodup.
    + exists d'; repeat split; auto.
      intros s; rewrite Hl, dict_lookup_set by assumption.
      destruct (last_value s r); [reflexivity|].
      now destruct (String.eqb u s).
Qed.

(** C5.  [extract_multilang] collapses a multilingual array to the map from
    each language to its value: the array [[{lang:"en",value:"A"},
    {lang:"de",value:"B"}]] gives [{en:"A", de:"B"}]; an empty array, and
    anything that is not an array (the default of an absent field, [None]),
    gives the empty map; for an array [l] whose languages are strings the
    result has one key per language, an entry's language is paired with the
    entry's value (the last entry for a language when it is repeated), and a
    language without entry is a missing key of the map (a lookup finds
    nothing, not an empty string). *)
Theorem extract_multilang_collapse (l : list pyval) (v : pyval) :
  extract_multilang (PList [lang_entry "en" "A"; lang_entry "de" "B"])
  = Ok [(PStr "en", PStr "A"); (PStr "de", PStr "B")]
  /\ extract_multilang (PList []) = Ok []
  /\ (is_list v = false -> extract_multilang v = Ok [])
  /\ (Forall string_lang l ->
      exists d,
        extract_multilang (PList l) = Ok d
        /\ NoDup (dict_keys d)
        /\ (forall s, dict_lookup (PStr s) d = last_value s l)
        /\ (forall l1 entry l2 s,
               l = l1 ++ PDict entry :: l2 ->
               entry_lang entry = PStr s ->
               (forall e', In (PDict e') l2 -> entry_lang e' <> PStr s) ->
               dict_lookup (PStr s) d = Some (entry_value entry))
        /\ (forall s,
               (forall entry, In (PDict entry) l -> entry_lang entry <> PStr s) ->
               dict_lookup (PStr s) d = None)).
Proof.
  split; [reflexivity|]. split; [reflexivity|]. split.
  - destruct v; simpl; intros Hv; try reflexivity; discriminate.
  - intros Hl.
    destruct (collapse_spec l Hl [] (Forall_nil _) (NoDup_nil _))
      as (d & Hd & _ & Hn & Hlook).
    exists d. split; [exact Hd|]. split; [exact Hn|].
    assert (Hlast : forall s, dict_lookup (PStr s) d = last_value s l).
    { intros s; rewrite Hlook; now destruct (last_value s l). }
    split; [exact Hlast|]. split.
    + intros l1 entry l2 s -> Hs Hno. rewrite Hlast.
      apply last_value_last; auto.
      apply Forall_app in Hl as [_ Hl]. now inversion Hl.
    + intros s Hno. rewrite Hlast. now apply last_value_none.
Qed.

(** The entries of a German/English name with a repeated language: the
    later English entry is the one kept, and no French key appears. *)
Lemma extract_multilang_collapse_witness :
  exists d,
    extract_multilang
      (PList [lang_entry "en" "old"; lang_entry "de" "B"; lang_entry "en" "A"]) = Ok d
    /\ dict_lookup (PStr "en") d = Some (PStr "A")
    /\ dict_lookup (PStr "fr") d = None.
Proof.
  destruct (extract_multilang_collapse
              [lang_entry "en" "old"; lang_entry "de" "B"; lang_entry "en" "A"] PNone)
    as (_ & _ & _ & H).
  destruct H as (d & Hd & _ & Hlook & _).
  - repeat constructor; simpl; eexists; reflexivity.
  - exists d. split; [exact Hd|]. split; rewrite Hlook; reflexivity.
Defined.

(** ** Module amounts *)

Lemma last_module_amount_none s items :
  (forall y, In y items -> module_of y <> Some (PStr s)) ->
  Forall module_entry_ok items ->
  last_module_amount s items = None.
Proof.
  intros Hno Hl; induction Hl as [|x r Hx Hr IH]; simpl; [reflexivity|].
  rewrite IH by (intros; apply Hno; now right).
  destruct x; try contradiction. simpl in *.
  destruct (dict_lookup (PStr "module") d) as [m|] eqn:Em; [|reflexivity].
  destruct Hx as [[u ->] _]; simpl.
  destruct (String.eqb u s) eqn:E; [|reflexivity].
  apply String.eqb_eq in E; subst u.
  exfalso; apply (Hno (PDict d)); [now left|exact Em].
Qed.

Lemma module_loop_spec items :
  Forall module_entry_ok items ->
  forall acc, string_keys acc -> NoDup (map fst acc) ->
  exists ma, module_loop items acc = Ok ma /\ string_keys ma /\ NoDup (map fst ma) /\
             forall s, dict_lookup (PStr s) ma
                       = match last_module_amount s items with
                         | Some a => Some a
                         | None => dict_lookup (PStr s) acc
                         end.
Proof.
  induction 1 as [|x r Hx Hr IH]; intros acc Hk Hn.
  - exists acc; auto.
  - destruct x; try contradiction.
    destruct Hx as [Hm Ha].
    unfold entry_amount, last_module_amount; fold last_module_amount.
    cbn [module_loop contains bind module_of].
    destruct (dict_lookup (PStr "module") d) as [m|] eqn:Em.
    + destruct Hm as [u ->].
      unfold entry_amount.
      destruct (amount_of (PDict d)) as [a|] eqn:Ea; [|discriminate].
      cbn [bind get]. rewrite Em. cbn [setitem hashable bind].
      destruct (IH (dict_set (PStr u) (mk_module_amount a (entry_scenario (PDict d))) acc))
        as (ma & Hma & ? & ? & Hl).
      * now apply dict_set_string_keys.
      * now apply dict_set_nodup.
      * exists ma; repeat split; auto.
        intros s; rewrite Hl, dict_lookup_set by assumption.
        destruct (last_module_amount s r); [reflexivity|].
        cbn [key_eqb]. now destruct (String.eqb u s).
    + destruct (IH acc Hk Hn) as (ma & Hma & ? & ? & Hl).
      exists ma; repeat split; auto.
      intros s; rewrite Hl. now destruct (last_module_amount s r).
Qed.

(** Inversion of a chain of binds that returned normally. *)
Ltac inv_bind H :=
  repeat match type of H with
         | bind ?m _ = Ok _ =>
             let E := fresh "E" in
             destruct m eqn:E; cbn [bind] in H; [|discriminate H]
         end.

Lemma extension_fields_inv o unit ma :
  extension_fields o = Ok (unit, ma) ->
  exists items, anies_of o = Ok items /\ unit_loop items PNone = Ok unit /\
                module_loop items [] = Ok ma.
Proof.
  unfold extension_fields, anies_of; intros H.
  inv_bind H. injection H as <- <-.
  eexists; cbn [bind]; eauto.
Qed.

Section ModuleAmounts.
Context {rt : Runtime}.

Lemma exchange_of_module_amounts ex e :
  exchange_of ex = Ok e ->
  exists items, anies_of ex = Ok items /\ module_loop items [] = Ok (ex_module_amounts e).
Proof.
  unfold exchange_of; intros H. inv_bind H. injection H as <-; cbn.
  destruct a4 as [u ma]. apply extension_fields_inv in E4 as (items & ? & ? & ?).
  eauto.
Qed.

Lemma lcia_of_module_amounts lcia e :
  lcia_of lcia = Ok e ->
  exists items, anies_of lcia = Ok items /\ module_loop items [] = Ok (lc_module_amounts e).
Proof.
  unfold lcia_of; intros H. inv_bind H. injection H as <-; cbn.
  destruct a3 as [u ma]. apply extension_fields_inv in E3 as (items & ? & ? & ?).
  eauto.
Qed.

End ModuleAmounts.

Lemma last_module_amount_last s l1 x l2 :
  module_of x = Some (PStr s) ->
  (forall y, In y l2 -> module_of y <> Some (PStr s)) ->
  Forall module_entry_ok l2 ->
  last_module_amount s (l1 ++ x :: l2)
  = Some (mk_module_amount (entry_amount x) (entry_scenario x)).
Proof.
  intros Hs Hno Hl2; induction l1 as [|y r IH]; simpl.
  - rewrite (last_module_amount_none s l2 Hno Hl2), Hs; simpl.
    now rewrite String.eqb_refl.
  - now rewrite IH.
Qed.

Lemma rows_add_row t r db : rows t (add_row t r db) = rows t db ++ [r].
Proof. destruct db, t; reflexivity. Qed.

Lemma store_module_amounts_rows (rt : Runtime) t parent ma : forall db db',
  store_module_amounts t parent ma db = (Ok tt, db') ->
  rows t db' = rows t db ++ map (module_amount_row parent) ma.
Proof.
  unfold store_module_amounts.
  induction ma as [|kv r IH]; intros db db'; simpl.
  - intros [= <-]. now rewrite app_nil_r.
  - unfold sbind at 1, insert at 1.
    destruct (adapts t _ && constraints t _ db); [|discriminate].
    intros Hr. rewrite (IH _ _ Hr), rows_add_row, <- app_assoc. reflexivity.
Qed.

(** C10.  The module amounts extracted from the extension list of one
    exchange or LCIA result hold at most one entry per lifecycle-module
    code (the keys are pairwise distinct), and the entry of a code is made
    of the amount and the scenario of the last list element carrying that
    code; earlier elements with the same code leave no trace.  The store
    writes one row per entry of these module amounts. *)
Theorem module_amounts_last_entry_wins (items : list pyval) :
  Forall module_entry_ok items ->
  exists ma,
    module_loop items [] = Ok ma
    /\ NoDup (map fst ma)
    /\ (forall s, dict_lookup (PStr s) ma = last_module_amount s items)
    /\ (forall l1 x l2 s,
           items = l1 ++ x :: l2 ->
           module_of x = Some (PStr s) ->
           (forall y, In y l2 -> module_of y <> Some (PStr s)) ->
           dict_lookup (PStr s) ma
           = Some (mk_module_amount (entry_amount x) (entry_scenario x)))
    /\ (forall (rt : Runtime) ex e,
           exchange_of ex = Ok e -> anies_of ex = Ok items ->
           ex_module_amounts e = ma)
    /\ (forall (rt : Runtime) lcia e,
           lcia_of lcia = Ok e -> anies_of lcia = Ok items ->
           lc_module_amounts e = ma)
    /\ (forall (rt : Runtime) t parent db db',
           store_module_amounts t parent ma db = (Ok tt, db') ->
           rows t db' = rows t db ++ map (module_amount_row parent) ma).
Proof.
  intros Hl.
  destruct (module_loop_spec items Hl [] (Forall_nil _) (NoDup_nil _))
    as (ma & Hma & _ & Hn & Hlook).
  exists ma. split; [exact Hma|]. split; [exact Hn|].
  assert (Hlast : forall s, dict_lookup (PStr s) ma = last_module_amount s items).
  { intros s; rewrite Hlook; now destruct (last_module_amount s items). }
  split; [exact Hlast|]. split; [|split; [|split]].
  - intros l1 x l2 s -> Hs Hno. rewrite Hlast.
    apply last_module_amount_last; auto.
    apply Forall_app in Hl as [_ Hl]. now inversion Hl.
  - intros rt ex e He Hitems.
    destruct (exchange_of_module_amounts ex e He) as (items' & Hi & Hm).
    rewrite Hitems in Hi; injection Hi as <-. congruence.
  - intros rt lcia e He Hitems.
    destruct (lcia_of_module_amounts lcia e He) as (items' & Hi & Hm).
    rewrite Hitems in Hi; injection Hi as <-. congruence.
  - intros rt t parent db db'. apply store_module_amounts_rows.
Qed.

(** Three entries, two of them for module A1: the amount 2.5 and the
    default scenario of the later one are kept. *)
Lemma module_amounts_last_entry_wins_witness :
  exists ma,
    module_loop
      [ PDict [(PStr "module", PStr "A1"); (PStr "value", PStr "1.0");
               (PStr "scenario", PStr "s1")];
        PDict [(PStr "module", PStr "A2"); (PStr "value", PStr "")];
        PDict [(PStr "module", PStr "A1"); (PStr "value", PStr "2.5")] ] [] = Ok ma
    /\ dict_lookup (PStr "A1") ma
       = Some (mk_module_amount (PFloat (S754_finite false 5629499534213120 (-51)))
                                (PStr "")).
Proof.
  destruct (module_amounts_last_entry_wins
              [ PDict [(PStr "module", PStr "A1"); (PStr "value", PStr "1.0");
                       (PStr "scenario", PStr "s1")];
                PDict [(PStr "module", PStr "A2"); (PStr "value", PStr "")];
                PDict [(PStr "module", PStr "A1"); (PStr "value", PStr "2.5")] ])
    as (ma & Hma & _ & Hlook & _).
  - repeat constructor; simpl; eexists; reflexivity.
  - exists ma. split; [exact Hma|]. rewrite Hlook. vm_compute. reflexivity.
Defined.

(** The entries of the specification: a decimal value, an empty value and
    no value; the scenario defaults to the empty string. *)
Example module_amount_examples :
  module_loop [obj [("module", PStr "A1"); ("value", PStr "1.23")]] []
  = Ok [(PStr "A1", mk_module_amount
                      (PFloat (S754_finite false 5539427541665710 (-52))) (PStr ""))]
  /\ module_loop [obj [("module", PStr "A1"); ("value", PStr "")]] []
     = Ok [(PStr "A1", mk_module_amount PNone (PStr ""))]
  /\ module_loop [obj [("module", PStr "A1")]] []
     = Ok [(PStr "A1", mk_module_amount PNone (PStr ""))]
  /\ module_loop [obj [("module", PStr "A1"); ("value", PStr "n/a");
                       ("scenario", PStr "S1")]] []
     = Ok [(PStr "A1", mk_module_amount PNone (PStr "S1"))].
Proof. repeat split; vm_compute; reflexivity. Qed.

(** ** The rules on extension entries *)

(** C9, as stated, fails: the entry [unit_and_module_entry] satisfies the
    unit rule and the module-amount rule, and an exchange whose extension
    list holds it alone gets both its unit ("kg") and a module amount (for
    A1) from that one entry. *)
Lemma one_entry_feeds_two_rules :
  unit_rule unit_and_module_entry = true
  /\ module_rule unit_and_module_entry = true
  /\ extension_fields
       (PDict [(PStr "other", PDict [(PStr "anies", PList [unit_and_module_entry])])])
     = Ok (PStr "kg", [(PStr "A1", mk_module_amount PNone (PStr ""))]).
Proof. repeat split; reflexivity. Qed.

(** C9, amended.  The unit rule and the original-source-URL rule exclude
    each other (an entry has one name), and each of the three loops passes
    over an entry that does not satisfy its rule; the module-amount rule is
    the presence of a [module] key alone, whatever the name of the entry. *)
Theorem extension_rules (d : dict) (r : list pyval) :
  unit_rule (PDict d) && url_rule (PDict d) = false
  /\ (unit_rule (PDict d) = false ->
      forall u, unit_loop (PDict d :: r) u = unit_loop r u)
  /\ (url_rule (PDict d) = false ->
      first_resource_url (PDict d :: r) = first_resource_url r)
  /\ (module_rule (PDict d) = false ->
      forall acc, module_loop (PDict d :: r) acc = module_loop r acc)
  /\ (module_rule (PDict d) = true <-> dict_lookup (PStr "module") d <> None).
Proof.
  unfold unit_rule, url_rule, module_rule; cbn [get contains].
  split; [|split; [|split; [|split]]].
  - destruct (dict_lookup (PStr "name") d) as [[]|]; try reflexivity.
    unfold eq_str.
    destruct (String.eqb s "referenceToUnitGroupDataSet") eqn:E; [|reflexivity].
    apply String.eqb_eq in E; subst s; reflexivity.
  - intros Hu u. cbn [unit_loop get bind]. now rewrite Hu.
  - intros Hu. cbn [first_resource_url get bind]. now rewrite Hu.
  - intros Hm acc. cbn [module_loop contains bind]. now rewrite Hm.
  - destruct (dict_lookup (PStr "module") d); split; congruence.
Qed.

(** An entry that only names the original EPD leaves the unit and the
    module amounts alone. *)
Lemma extension_rules_witness :
  unit_loop [PDict [(PStr "name", PStr "referenceToOriginalEPD")]] (PStr "kg")
  = Ok (PStr "kg")
  /\ module_loop [PDict [(PStr "name", PStr "referenceToOriginalEPD")]] [] = Ok [].
Proof.
  destruct (extension_rules [(PStr "name", PStr "referenceToOriginalEPD")] [])
    as (_ & Hu & _ & Hm & _).
  split; [apply Hu | apply Hm]; reflexivity.
Defined.

(** ** Indicator resolution *)

Lemma first_matching_key_find keys t :
  first_matching_key keys (PStr t) = Ok (find (fun k => matches k t) keys).
Proof.
  induction keys as [|k r IH]; simpl; [reflexivity|].
  unfold matches at 1. now destruct (Re.search_from k None t).
Qed.

Lemma scan_languages_first_hit keys ts :
  scan_languages keys (map PStr ts) = Ok (key_or_none (first_hit keys ts)).
Proof.
  induction ts as [|t r IH]; simpl; [reflexivity|].
  rewrite first_matching_key_find; simpl.
  now destruct (find (fun k => matches k t) keys).
Qed.

Lemma find_only (p : string -> bool) (k0 : string) keys :
  (forall k, In k keys -> p k = true -> k = k0) ->
  In k0 keys -> p k0 = true -> find p keys = Some k0.
Proof.
  intros Honly Hin Hp.
  destruct (find p keys) as [k|] eqn:E.
  - apply find_some in E as [Hk Hpk]. now rewrite (Honly k Hk Hpk).
  - now rewrite (find_none _ _ E k0 Hin) in Hp.
Qed.

Lemma find_nothing (p : string -> bool) keys :
  (forall k, In k keys -> p k = false) -> find p keys = None.
Proof.
  intros Hno. destruct (find p keys) as [k|] eqn:E; [|reflexivity].
  apply find_some in E as [Hk Hpk]. now rewrite (Hno k Hk) in Hpk.
Qed.

Lemma first_hit_only k0 keys ts :
  In k0 keys ->
  (forall t k, In t ts -> In k keys -> matches k t = true -> k = k0) ->
  (exists t, In t ts /\ matches k0 t = true) ->
  first_hit keys ts = Some k0.
Proof.
  intros Hin Honly. induction ts as [|t r IH]; intros (t' & Ht' & Hm); [destruct Ht'|].
  simpl. destruct (find (fun k => matches k t) keys) as [k|] eqn:E.
  - apply find_some in E as [Hk Hpk]. f_equal. apply (Honly t k); auto. now left.
  - apply IH.
    + intros; apply (Honly t0); auto. now right.
    + destruct Ht' as [<-|Ht']; [|eauto].
      now rewrite (find_none _ _ E k0 Hin) in Hm.
Qed.

Lemma first_hit_nothing keys ts :
  (forall t k, In t ts -> In k keys -> matches k t = false) ->
  first_hit keys ts = None.
Proof.
  induction ts as [|t r IH]; intros Hno; simpl; [reflexivity|].
  rewrite find_nothing by (intros; apply Hno; auto; now left).
  apply IH; intros; apply Hno; auto; now right.
Qed.

Lemma first_hit_sound keys ts k :
  first_hit keys ts = Some k ->
  In k keys /\
  exists pre t post,
    ts = pre ++ t :: post /\ matches k t = true /\
    forall t' k', In t' pre -> In k' keys -> matches k' t' = false.
Proof.
  induction ts as [|t r IH]; simpl; [discriminate|].
  destruct (find (fun k => matches k t) keys) as [k1|] eqn:E.
  - intros [= <-]. apply find_some in E as [Hk Hm].
    split; [exact Hk|]. exists [], t, r. repeat split; auto. intros ? ? [].
  - intros Hr. destruct (IH Hr) as (Hk & pre & t0 & post & -> & Hm & Hpre).
    split; [exact Hk|]. exists (t :: pre), t0, post. repeat split; auto.
    intros t' k' [<-|Ht'] Hk'; [|now apply Hpre].
    apply (find_none _ _ E k' Hk').
Qed.

Lemma only_odp_matches_odp :
  forall k, In k target_indicator_list -> matches k "ODP" = true -> k = "ODP".
Proof.
  assert (H : forallb (fun k => implb (matches k "ODP") (String.eqb k "ODP"))
                target_indicator_list = true) by (vm_compute; reflexivity).
  intros k Hk Hm. rewrite forallb_forall in H. specialize (H k Hk).
  rewrite Hm in H. now apply String.eqb_eq.
Qed.

Lemma nothing_matches_gwptotal :
  forall k, In k target_indicator_list -> matches k "GWPtotal" = false.
Proof.
  assert (H : forallb (fun k => negb (matches k "GWPtotal")) target_indicator_list = true)
    by (vm_compute; reflexivity).
  intros k Hk. rewrite forallb_forall in H. specialize (H k Hk).
  now destruct (matches k "GWPtotal").
Qed.

Section IndicatorKey.
Context {rt : Runtime}.

Lemma in_target_indicators k :
  In k target_indicators <-> In k target_indicator_list.
Proof.
  split; apply Permutation_in;
    [apply target_indicators_perm | apply Permutation_sym, target_indicators_perm].
Qed.

Lemma get_indicator_key_first_hit d ts :
  dict_values d = map PStr ts ->
  get_indicator_key (PDict d) = Ok (key_or_none (first_hit target_indicators ts)).
Proof.
  intros Hv; unfold get_indicator_key; rewrite Hv. apply scan_languages_first_hit.
Qed.

End IndicatorKey.

(** Word boundaries at work: brackets, hyphens and blanks bound a token,
    letters, digits and underscores do not; case is ignored. *)
Example word_boundary_examples :
  matches "GWP-total" "Climate change (GWP-total), 100 years" = true
  /\ matches "GWP-total" "gwp-TOTAL" = true
  /\ matches "GWP-total" "GWP-total-fossil" = true
  /\ matches "GWP-total" "GWPtotal" = false
  /\ matches "GWP-total" "GWP-totals" = false
  /\ matches "GWP-total" "xGWP-total" = false
  /\ matches "PM" "PM10" = false
  /\ matches "PM" "Particulate matter_PM" = false
  /\ matches "AP" "Versauerungspotenzial, AP" = true.
Proof. repeat split; vm_compute; reflexivity. Qed.

(** *** The pattern [\bKEY\b] is whole-word presence *)

Lemma last_char_app prev a b :
  last_char prev (a ++ b)%string = last_char (last_char prev a) b.
Proof. revert prev; induction a as [|c a IH]; intros prev; simpl; auto. Qed.

Lemma literal_ci_iff pat : forall txt prev last rest,
  Re.literal_ci pat txt prev = Some (last, rest) <->
  exists mid, txt = (mid ++ rest)%string /\ lower mid = lower pat /\
              last = last_char prev mid.
Proof.
  induction pat as [|p pat IH]; intros txt prev last rest; simpl.
  - split.
    + intros [= <- <-]. exists ""%string. auto.
    + intros (mid & -> & Hm & ->). destruct mid; [reflexivity|discriminate].
  - destruct txt as [|c txt].
    + split; [discriminate|].
      intros (mid & Ht & Hm & _). destruct mid; discriminate.
    + destruct (Ascii.eqb (lower_char p) (lower_char c)) eqn:E.
      * apply Ascii.eqb_eq in E. rewrite IH. split.
        -- intros (mid & -> & Hm & ->). exists (String c mid); simpl.
           repeat split; congruence.
        -- intros (mid & Ht & Hm & ->). destruct mid as [|c' mid]; [discriminate|].
           simpl in *. injection Ht as -> ->. injection Hm as _ Hm.
           exists mid; auto.
      * split; [discriminate|].
        intros (mid & Ht & Hm & _). destruct mid as [|c' mid]; [discriminate|].
        simpl in *. injection Ht as -> _. injection Hm as Hc _.
        rewrite Hc, Ascii.eqb_refl in E. discriminate.
Qed.

Lemma search_from_iff key : forall txt prev,
  Re.search_from key prev txt = true <->
  exists pre mid post,
    txt = (pre ++ mid ++ post)%string /\ lower mid = lower key /\
    Re.boundary (last_char prev pre) (Re.head (mid ++ post)%string) = true /\
    Re.boundary (last_char (last_char prev pre) mid) (Re.head post) = true.
Proof.
  assert (Hhere : forall txt prev,
             Re.match_here key prev txt = true <->
             exists mid post,
               txt = (mid ++ post)%string /\ lower mid = lower key /\
               Re.boundary prev (Re.head (mid ++ post)%string) = true /\
               Re.boundary (last_char prev mid) (Re.head post) = true).
  { intros txt prev; unfold Re.match_here. rewrite andb_true_iff. split.
    - intros [Hb Hl].
      destruct (Re.literal_ci key txt prev) as [[last rest]|] eqn:E; [|discriminate].
      apply literal_ci_iff in E as (mid & -> & Hm & ->). exists mid, rest; auto.
    - intros (mid & post & -> & Hm & Hb1 & Hb2). split; [exact Hb1|].
      assert (E : Re.literal_ci key (mid ++ post)%string prev
                  = Some (last_char prev mid, post))
        by (apply literal_ci_iff; exists mid; auto).
      now rewrite E. }
  induction txt as [|c txt IH]; intros prev; simpl; rewrite orb_true_iff.
  - split.
    + intros [H|H]; [|discriminate].
      apply Hhere in H as (mid & post & Ht & ? & ? & ?).
      exists ""%string, mid, post; auto.
    + intros (pre & mid & post & Ht & Hm & Hb1 & Hb2). left.
      destruct pre; [|discriminate]. apply Hhere. exists mid, post; auto.
  - rewrite IH. split.
    + intros [H|(pre & mid & post & -> & ? & ? & ?)].
      * apply Hhere in H as (mid & post & Ht & ? & ? & ?).
        exists ""%string, mid, post; auto.
      * exists (String c pre), mid, post; auto.
    + intros (pre & mid & post & Ht & Hm & Hb1 & Hb2).
      destruct pre as [|c' pre]; simpl in *.
      * left. apply Hhere. exists mid, post; auto.
      * injection Ht as -> ->. right. exists pre, mid, post; auto.
Qed.

(** The model of the regular expression is the word-boundary reading of
    the specification. *)
Lemma matches_whole_word key t :
  matches key t = true <-> whole_word_occurrence key t.
Proof.
  unfold matches, whole_word_occurrence. rewrite search_from_iff.
  split; intros (pre & mid & post & Ht & Hm & Hb1 & Hb2); exists pre, mid, post;
    repeat split; auto; now rewrite ?last_char_app in *.
Qed.

Lemma not_matches_whole_word key t :
  matches key t = false <-> ~ whole_word_occurrence key t.
Proof.
  rewrite <- matches_whole_word. destruct (matches key t); split; congruence.
Qed.

(** C6, as stated, fails: the English variant of [odp_then_gwp] is the
    standalone token GWP-total, yet the map resolves to ODP, whatever the
    order in which the set yields its candidates: the German variant comes
    first and ODP matches it. *)
Lemma gwp_total_variant_resolves_to_odp :
  whole_word_occurrence "GWP-total" "GWP-total"
  /\ forall rt : Runtime, get_indicator_key (PDict odp_then_gwp) = Ok (PStr "ODP").
Proof.
  split; [apply matches_whole_word; reflexivity|].
  intros rt. rewrite (get_indicator_key_first_hit _ ["ODP"; "GWP-total"]) by reflexivity.
  simpl. rewrite (find_only _ "ODP"); [reflexivity| | |reflexivity].
  - intros k Hk. apply only_odp_matches_odp. now apply in_target_indicators.
  - apply in_target_indicators. vm_compute. tauto.
Qed.

(** C6, amended.  Resolution is whole-word, case-insensitive matching over
    the candidate set: the result is the first candidate, in the order of
    the set, found in the first language variant in which any candidate is
    found.  Hence a map in which GWP-total is the only candidate found
    resolves to GWP-total; the text GWPtotal does not contain GWP-total as
    a whole word, and a map holding it alone resolves to null; a map in
    which no candidate is found resolves to null; and the result is a
    function of the map (within one process, where the order of the set is
    fixed). *)
Theorem indicator_resolution (rt : Runtime) (d : dict) (ts : list string) :
  dict_values d = map PStr ts ->
  get_indicator_key (PDict d) = Ok (key_or_none (first_hit target_indicators ts))
  /\ (forall k,
         get_indicator_key (PDict d) = Ok (PStr k) ->
         In k target_indicator_list /\
         exists pre t post,
           ts = pre ++ t :: post /\ whole_word_occurrence k t /\
           forall t' k', In t' pre -> In k' target_indicator_list ->
                         ~ whole_word_occurrence k' t')
  /\ ((exists t, In t ts /\ whole_word_occurrence "GWP-total" t) ->
      (forall t k, In t ts -> In k target_indicator_list ->
                   whole_word_occurrence k t -> k = "GWP-total") ->
      get_indicator_key (PDict d) = Ok (PStr "GWP-total"))
  /\ ~ whole_word_occurrence "GWP-total" "GWPtotal"
  /\ (ts = ["GWPtotal"] -> get_indicator_key (PDict d) = Ok PNone)
  /\ ((forall t k, In t ts -> In k target_indicator_list ->
                   ~ whole_word_occurrence k t) ->
      get_indicator_key (PDict d) = Ok PNone)
  /\ (forall d', d' = d -> get_indicator_key (PDict d') = get_indicator_key (PDict d)).
Proof.
  intros Hv. pose proof (get_indicator_key_first_hit d ts Hv) as Hk.
  assert (Hnone : (forall t k, In t ts -> In k target_indicator_list ->
                               ~ whole_word_occurrence k t) ->
                  get_indicator_key (PDict d) = Ok PNone).
  { intros Hno. rewrite Hk, first_hit_nothing; [reflexivity|].
    intros t k Ht Hin. apply not_matches_whole_word, Hno; auto.
    now apply in_target_indicators. }
  split; [exact Hk|]. split; [|split; [|split; [|split; [|split]]]].
  - intros k Hres. rewrite Hk in Hres.
    destruct (first_hit target_indicators ts) as [k1|] eqn:E; [|discriminate].
    injection Hres as ->.
    apply first_hit_sound in E as (Hin & pre & t & post & -> & Hm & Hpre).
    split; [now apply in_target_indicators|].
    exists pre, t, post. split; [reflexivity|]. split; [now apply matches_whole_word|].
    intros t' k' Ht' Hk'. apply not_matches_whole_word, Hpre; auto.
    now apply in_target_indicators.
  - intros (t & Ht & Hm) Honly. rewrite Hk, (first_hit_only "GWP-total"); auto.
    + apply in_target_indicators. vm_compute. tauto.
    + intros t' k Ht' Hin Hmk. apply (Honly t'); auto.
      * now apply in_target_indicators.
      * now apply matches_whole_word.
    + exists t. split; [exact Ht|]. now apply matches_whole_word.
  - apply not_matches_whole_word. reflexivity.
  - intros ->. apply Hnone. intros t k [<-|[]] Hin.
    apply not_matches_whole_word. now apply nothing_matches_gwptotal.
  - exact Hnone.
  - now intros d' ->.
Qed.

(** A flow whose English description names GWP-total and whose German one
    names no indicator resolves to GWP-total. *)
Lemma indicator_resolution_witness :
  @get_indicator_key example_runtime
    (PDict [(PStr "de", PStr "Treibhauspotenzial gesamt");
            (PStr "en", PStr "Global warming potential (gwp-TOTAL)")])
  = Ok (PStr "GWP-total").
Proof.
  rewrite (proj1 (indicator_resolution example_runtime
                    [(PStr "de", PStr "Treibhauspotenzial gesamt");
                     (PStr "en", PStr "Global warming potential (gwp-TOTAL)")]
                    ["Treibhauspotenzial gesamt";
                     "Global warming potential (gwp-TOTAL)"] eq_refl)).
  vm_compute. reflexivity.
Defined.

(** ** Time stamps *)

(** *** Binary64 rounding

    What [SpecFloat] computes when it shifts a mantissa right and rounds
    it to 53 bits, in arithmetic. *)

Lemma iter_pos_nat {A} (f : A -> A) p : forall x,
  iter_pos f p x = Nat.iter (Pos.to_nat p) f x.
Proof.
  induction p as [p IH|p IH|]; intros x; cbn [iter_pos].
  - rewrite !IH, Pos2Nat.inj_xI. rewrite <- Nat.iter_add.
    replace (Pos.to_nat p + Pos.to_nat p)%nat with (2 * Pos.to_nat p)%nat by lia.
    now rewrite <- Nat.iter_succ_r.
  - rewrite !IH, Pos2Nat.inj_xO. rewrite <- Nat.iter_add.
    f_equal; lia.
  - reflexivity.
Qed.

Lemma shr_1_spec m r s :
  0 <= m ->
  shr_1 (Build_shr_record m r s) = Build_shr_record (m / 2) (Z.odd m) (r || s).
Proof.
  intros Hm. destruct m as [|[p|p|]|p]; try lia; cbn [shr_1].
  - reflexivity.
  - f_equal. rewrite (Pos2Z.inj_xI p). apply Z.div_unique with 1; lia.
  - f_equal. rewrite (Pos2Z.inj_xO p). apply Z.div_unique with 0; lia.
  - reflexivity.
Qed.

Lemma shr_nat_spec m0 : 0 <= m0 -> forall n,
  exists q rem,
    shr_m (Nat.iter n shr_1 (Build_shr_record m0 false false)) = q
    /\ loc_of_shr_record (Nat.iter n shr_1 (Build_shr_record m0 false false))
       = loc_of rem (2 ^ Z.of_nat n)
    /\ m0 = 2 ^ Z.of_nat n * q + rem /\ 0 <= rem < 2 ^ Z.of_nat n /\ 0 <= q.
Proof.
  intros Hm0. induction n as [|n IH].
  - exists m0, 0. change (2 ^ Z.of_nat 0) with 1.
    split; [reflexivity|]. split; [reflexivity|]. lia.
  - destruct IH as (q & rem & Hq & Hl & Hm & Hr & Hq0).
    rewrite !Nat.iter_succ.
    destruct (Nat.iter n shr_1 (Build_shr_record m0 false false)) as [m r s].
    cbn [shr_m] in Hq. subst m. rewrite (shr_1_spec q r s Hq0).
    rewrite Nat2Z.inj_succ, Z.pow_succ_r by lia.
    set (P := 2 ^ Z.of_nat n) in *.
    exists (q / 2), (rem + (if Z.odd q then P else 0)).
    assert (Hq2 : q = 2 * (q / 2) + (if Z.odd q then 1 else 0)).
    { rewrite (Z.div_mod q 2) at 1 by lia. f_equal.
      rewrite Zmod_odd. reflexivity. }
    assert (Hrs : r || s = negb (Z.eqb rem 0)).
    { unfold loc_of in Hl. destruct (Z.eqb rem 0); destruct r, s; simpl in *;
        congruence. }
    split; [reflexivity|]. split.
    + rewrite Hrs. unfold loc_of.
      destruct (Z.odd q).
      * destruct (Z.eqb_spec (rem + P) 0); [lia|].
        destruct (Z.eqb_spec rem 0); cbn [negb loc_of_shr_record].
        -- subst rem. f_equal. symmetry. apply Z.compare_eq_iff. lia.
        -- f_equal. symmetry. apply Z.compare_gt_iff. lia.
      * rewrite Z.add_0_r. destruct (Z.eqb_spec rem 0); cbn [negb loc_of_shr_record];
          [reflexivity|].
        f_equal. symmetry. apply Z.compare_lt_iff. lia.
    + split; [|split].
      * destruct (Z.odd q); nia.
      * destruct (Z.odd q); lia.
      * apply Z.div_pos; lia.
Qed.

(** Rounding a mantissa of 53 bits or more to nearest even. *)

Lemma digits2_pos_spec p :
  2 ^ (Z.pos (digits2_pos p) - 1) <= Z.pos p < 2 ^ Z.pos (digits2_pos p).
Proof.
  induction p as [p IH|p IH|]; cbn [digits2_pos].
  - rewrite Pos2Z.inj_succ, (Pos2Z.inj_xI p).
    replace (Z.succ (Z.pos (digits2_pos p)) - 1) with (Z.succ (Z.pos (digits2_pos p) - 1))
      by lia.
    rewrite !Z.pow_succ_r by lia. lia.
  - rewrite Pos2Z.inj_succ, (Pos2Z.inj_xO p).
    replace (Z.succ (Z.pos (digits2_pos p)) - 1) with (Z.succ (Z.pos (digits2_pos p) - 1))
      by lia.
    rewrite !Z.pow_succ_r by lia. lia.
  - simpl. lia.
Qed.

Lemma digits2_pos_unique p k :
  2 ^ (k - 1) <= Z.pos p < 2 ^ k -> Z.pos (digits2_pos p) = k.
Proof.
  intros [Hl Hu]. pose proof (digits2_pos_spec p) as [Hl' Hu'].
  assert (0 < k).
  { destruct (Z.ltb_spec 0 k); [assumption|].
    assert (2 ^ k <= 2 ^ 0) by (apply Z.pow_le_mono_r; lia).
    simpl in *. lia. }
  assert (Z.pos (digits2_pos p) - 1 < k).
  { apply (Z.pow_lt_mono_r_iff 2); lia. }
  assert (k - 1 < Z.pos (digits2_pos p)).
  { apply (Z.pow_lt_mono_r_iff 2); lia. }
  lia.
Qed.

Lemma fexp_normal e : -1021 <= e -> fexp prec emax e = e - 53.
Proof. unfold fexp, emin, prec, emax. lia. Qed.

Lemma round_nearest_even_near q rem P :
  0 <= rem < P ->
  (round_nearest_even q (loc_of rem P) = q
   \/ round_nearest_even q (loc_of rem P) = q + 1)
  /\ 2 * Z.abs (P * round_nearest_even q (loc_of rem P) - (P * q + rem)) <= P.
Proof.
  intros Hr. unfold loc_of.
  destruct (Z.eqb_spec rem 0); cbn [round_nearest_even].
  - split; [now left|]. nia.
  - destruct (Z.compare_spec (2 * rem) P).
    + destruct (Z.even q); split; auto; nia.
    + split; [now left|]. nia.
    + split; [now right|]. nia.
Qed.

(** Rounding [M * 2^E] to binary64, for a mantissa of at least 53 bits in
    the normal range: a finite float with a full mantissa, within half a
    unit of its last place; the very number when [M] has 53 bits. *)
Lemma binary_round_aux_spec (sx : bool) (M : positive) (E : Z) :
  53 <= Z.pos (digits2_pos M) ->
  -1021 <= Z.pos (digits2_pos M) + E ->
  Z.pos (digits2_pos M) + E <= 1023 ->
  exists m' e',
    binary_round_aux prec emax sx (Z.pos M) E loc_Exact = S754_finite sx m' e'
    /\ 2 ^ 52 <= Z.pos m' < 2 ^ 53
    /\ E + (Z.pos (digits2_pos M) - 53) <= e' <= E + (Z.pos (digits2_pos M) - 53) + 1
    /\ 2 * Z.abs (Z.pos m' * 2 ^ (e' - E) - Z.pos M) <= 2 ^ (e' - E)
    /\ (Z.pos (digits2_pos M) = 53 -> m' = M /\ e' = E).
Proof.
  set (d := Z.pos (digits2_pos M)). intros Hd Hlo Hhi.
  pose proof (digits2_pos_spec M) as HM. fold d in HM.
  unfold binary_round_aux, shr_fexp. cbn [Zdigits2]. fold d.
  rewrite fexp_normal by lia.
  replace (d + E - 53 - E) with (d - 53) by lia.
  cbn [shr_record_of_loc].
  destruct (d - 53) as [|pp|pp] eqn:Ep; [| |lia].
  - (* no shift *)
    assert (d = 53) by lia.
    cbn [shr loc_of_shr_record shr_m round_nearest_even Zdigits2]. fold d.
    rewrite fexp_normal by lia.
    replace (d + E - 53 - E) with 0 by lia.
    cbn [shr shr_record_of_loc shr_m].
    replace (Z.leb E (emax - prec)) with true
      by (symmetry; apply Z.leb_le; unfold emax, prec; lia).
    exists M, E. split; [reflexivity|]. split; [rewrite H in HM; exact HM|].
    split; [lia|]. split; [|auto].
    rewrite Z.sub_diag, Z.mul_1_r, Z.sub_diag. simpl. lia.
  - (* shift by pp *)
    cbn [shr]. rewrite iter_pos_nat.
    destruct (shr_nat_spec (Z.pos M) ltac:(lia) (Pos.to_nat pp))
      as (q & rem & Hq & Hl & Hm & Hr & Hq0).
    rewrite positive_nat_Z in *.
    destruct (Nat.iter (Pos.to_nat pp) shr_1 _) as [m r s] eqn:Eit.
    cbn [shr_m] in Hq. subst m. cbn [shr_m].
    rewrite Hl.
    set (P := 2 ^ Z.pos pp) in *.
    assert (HP : 0 < P) by (apply Z.pow_pos_nonneg; lia).
    assert (Hpow : forall j, 0 <= j -> 2 ^ (j + Z.pos pp) = 2 ^ j * P)
      by (intros; unfold P; apply Z.pow_add_r; lia).
    assert (Hq52 : 2 ^ 52 <= q < 2 ^ 53).
    { replace (d - 1) with (52 + Z.pos pp) in HM by lia.
      replace d with (53 + Z.pos pp) in HM by lia.
      rewrite !Hpow in HM by lia. nia. }
    destruct (round_nearest_even_near q rem P Hr) as [Hm1 Hnear].
    set (m1 := round_nearest_even q (loc_of rem P)) in *.
    rewrite <- Hm in Hnear.
    assert (Hm1r : 2 ^ 52 <= m1 <= 2 ^ 53) by lia.
    destruct m1 as [|m1p|m1p] eqn:Em1; [lia| |lia].
    cbn [Zdigits2].
    destruct (Z.eq_dec (Z.pos m1p) (2 ^ 53)) as [Htop|Hlow].
    + (* the carry reaches 2^53 *)
      assert (Hdig : Z.pos (digits2_pos m1p) = 54).
      { apply digits2_pos_unique. rewrite Htop. simpl. lia. }
      rewrite Hdig, fexp_normal by lia.
      replace (54 + (E + Z.pos pp) - 53 - (E + Z.pos pp)) with 1 by lia.
      cbn [shr iter_pos shr_record_of_loc]. rewrite shr_1_spec by lia.
      cbn [shr_m]. rewrite Htop.
      change (2 ^ 53 / 2) with (Z.pos (2 ^ 52)).
      replace (Z.leb (E + Z.pos pp + 1) (emax - prec)) with true
        by (symmetry; apply Z.leb_le; unfold emax, prec; lia).
      exists (2 ^ 52)%positive, (E + Z.pos pp + 1).
      split; [reflexivity|]. split; [simpl; lia|]. split; [lia|]. split; [|lia].
      replace (E + Z.pos pp + 1 - E) with (1 + Z.pos pp) by lia.
      rewrite Hpow by lia. rewrite Htop in Hnear.
      change (Z.pos (2 ^ 52)) with (2 ^ 52). change (2 ^ 1) with 2.
      change (2 ^ 53) with 9007199254740992 in *.
      change (2 ^ 52) with 4503599627370496 in *. lia.
    + assert (Hdig : Z.pos (digits2_pos m1p) = 53).
      { apply digits2_pos_unique. change (53 - 1) with 52. lia. }
      rewrite Hdig, fexp_normal by lia.
      replace (53 + (E + Z.pos pp) - 53 - (E + Z.pos pp)) with 0 by lia.
      cbn [shr shr_record_of_loc shr_m].
      replace (Z.leb (E + Z.pos pp) (emax - prec)) with true
        by (symmetry; apply Z.leb_le; unfold emax, prec; lia).
      exists m1p, (E + Z.pos pp).
      split; [reflexivity|]. split; [lia|]. split; [lia|]. split; [|lia].
      replace (E + Z.pos pp - E) with (Z.pos pp) by lia. fold P.
      rewrite (Z.mul_comm (Z.pos m1p) P). exact Hnear.
Qed.

(** *** Milliseconds to seconds

    The float [a / 1000] of an int below [2^33 * 1000] has an exponent of
    at most -20, and is within half a thousandth of its last place of
    the quotient. *)

(** The float of [a / 1000]. *)
Lemma round_div_1000 a :
  0 < a < 8589934592000 ->
  exists m' e',
    round_div a 1000 = S754_finite false m' e'
    /\ 2 ^ 52 <= Z.pos m' < 2 ^ 53
    /\ -62 <= e' <= -20
    /\ Z.abs (1000 * Z.pos m' - a * 2 ^ (- e')) <= 500.
Proof.
  intros Ha. unfold round_div.
  destruct (Z.eqb_spec a 0) as [|_]; [lia|].
  change (Z.log2 1000) with 9.
  pose proof (Z.log2_spec a ltac:(lia)) as HL.
  pose proof (Z.log2_nonneg a) as HL0.
  assert (HL1 : Z.log2 a < 43).
  { apply Z.log2_lt_pow2; [lia|]. change (2 ^ 43) with 8796093022208. lia. }
  set (L := Z.log2 a) in *.
  replace (Z.max 0 (64 + 9 - L)) with (73 - L) by lia.
  set (k := 73 - L).
  set (K := 2 ^ k).
  assert (HK : 0 < K) by (apply Z.pow_pos_nonneg; lia).
  assert (HKL : 2 ^ L * K = 2 ^ 73).
  { unfold K, k. rewrite <- Z.pow_add_r by lia. f_equal; lia. }
  assert (HA : 2 ^ 73 <= a * K < 2 ^ 74).
  { rewrite Z.pow_succ_r in HL by lia.
    change (2 ^ 74) with (2 * 2 ^ 73). rewrite <- HKL. nia. }
  pose proof (Z.div_mod (a * K) 1000 ltac:(lia)) as Hdm.
  pose proof (Z.mod_pos_bound (a * K) 1000 ltac:(lia)) as Hrho.
  set (Q := a * K / 1000) in *. set (rho := (a * K) mod 1000) in *.
  set (st := if Z.eqb rho 0 then 0 else 1).
  assert (Hst : (st = 0 /\ rho = 0) \/ (st = 1 /\ 0 < rho)).
  { unfold st. destruct (Z.eqb_spec rho 0); [left|right]; lia. }
  change (2 ^ 73) with 9444732965739290427392 in HA.
  change (2 ^ 74) with 18889465931478580854784 in HA.
  assert (HN : 2 ^ 64 <= 2 * Q + st < 2 ^ 66).
  { change (2 ^ 64) with 18446744073709551616.
    change (2 ^ 66) with 73786976294838206464. lia. }
  destruct (2 * Q + st) as [|Np|Np] eqn:EN; [simpl in HN; lia| |lia].
  cbn [binary_normalize]. unfold binary_round.
  pose proof (digits2_pos_spec Np) as HdN.
  set (dN := Z.pos (digits2_pos Np)) in *.
  assert (HdN' : 65 <= dN <= 66).
  { assert (64 < dN) by (apply (Z.pow_lt_mono_r_iff 2); lia).
    assert (dN - 1 < 66) by (apply (Z.pow_lt_mono_r_iff 2); lia).
    lia. }
  rewrite fexp_normal by lia.
  unfold shl_align.
  destruct (dN + (- k - 1) - 53 - (- k - 1)) eqn:Eshift; [lia| |lia].
  destruct (binary_round_aux_spec false Np (- k - 1)) as (m' & e' & -> & Hm' & He' & Hnear & _).
  { fold dN. lia. } { fold dN. lia. } { fold dN. lia. }
  fold dN in He'.
  exists m', e'. split; [reflexivity|]. split; [exact Hm'|].
  set (u := e' - (- k - 1)) in *.
  assert (Hu : 12 <= u <= 14) by lia.
  set (U4 := 2 ^ (u - 2)).
  assert (HU4 : 0 < U4) by (apply Z.pow_pos_nonneg; lia).
  assert (HU : 2 ^ u = 4 * U4).
  { unfold U4. change 4 with (2 ^ 2). rewrite <- Z.pow_add_r by lia. f_equal; lia. }
  rewrite HU in Hnear.
  assert (Hne : - e' = k + 1 - u) by lia.
  assert (HW : 2 * K = 4 * U4 * 2 ^ (- e')).
  { rewrite <- HU, Hne, <- Z.pow_add_r by lia. unfold K.
    replace (u + (k + 1 - u)) with (Z.succ k) by lia.
    rewrite Z.pow_succ_r by lia. reflexivity. }
  set (W := 2 ^ (- e')) in *.
  assert (HWpos : 0 < W) by (apply Z.pow_pos_nonneg; lia).
  assert (Hmain : Z.abs (1000 * Z.pos m' - a * W) <= 500).
  { set (G := Z.pos m' * U4) in *.
    assert (HG : Z.pos m' * (4 * U4) = 4 * G) by (unfold G; ring).
    rewrite HG in Hnear.
    assert (Hscaled : Z.abs (1000 * (4 * G) - 2 * (a * K)) <= 500 * (4 * U4)) by lia.
    assert (Heq : 1000 * (4 * G) - 2 * (a * K)
                  = (1000 * Z.pos m' - a * W) * (4 * U4)).
    { unfold G. replace (2 * (a * K)) with (a * (2 * K)) by ring. rewrite HW. ring. }
    rewrite Heq in Hscaled. nia. }
  split; [|exact Hmain].
  split; [lia|].
  destruct (Z.leb_spec e' (-20)); [assumption|]. exfalso.
  assert (He : e' = -19 \/ e' = -18) by lia.
  change (2 ^ 52) with 4503599627370496 in Hm'.
  destruct He as [He|He]; unfold W in Hmain; rewrite He in Hmain.
  - change (2 ^ (- (-19))) with 524288 in Hmain. lia.
  - change (2 ^ (- (-18))) with 262144 in Hmain. lia.
Qed.

(** *** Seconds and microseconds

    The fraction of that float, times a million and rounded, is the
    millisecond count times a thousand. *)

Lemma round_half_even_near m e c :
  e < 0 -> 2 * Z.abs (m - c * 2 ^ (- e)) < 2 ^ (- e) ->
  Datetime.round_half_even m e = c.
Proof.
  intros He Hn. unfold Datetime.round_half_even.
  destruct (Z.leb_spec 0 e); [lia|].
  set (d := 2 ^ (- e)) in *.
  assert (Hd : 0 < d) by (apply Z.pow_pos_nonneg; lia).
  pose proof (Z.div_mod m d ltac:(lia)) as Hdm.
  pose proof (Z.mod_pos_bound m d Hd) as Hr.
  set (q := m / d) in *. set (r := m mod d) in *.
  assert (Hq : q = c \/ q = c - 1) by nia.
  destruct Hq as [Hq|Hq].
  - destruct (Z.compare_spec (2 * r) d); [nia| lia | nia].
  - destruct (Z.compare_spec (2 * r) d); [nia| nia | lia].
Qed.

Lemma pos_iter_xO m n : Z.pos (Pos.iter xO m n) = Z.pos m * 2 ^ Z.pos n.
Proof.
  induction n as [|n IH] using Pos.peano_ind.
  - change (Pos.iter xO m 1) with (xO m). rewrite (Pos2Z.inj_xO m).
    change (2 ^ 1) with 2. ring.
  - rewrite Pos.iter_succ, Pos2Z.inj_succ, Z.pow_succ_r by lia.
    rewrite (Pos2Z.inj_xO (Pos.iter xO m n)), IH. ring.
Qed.

Lemma million_eq :
  Datetime.million = S754_finite false 8589934592000000 (-33).
Proof. reflexivity. Qed.

(** The fraction of a time stamp is a float: no bit is lost. *)
Lemma fraction_exact (s : bool) (fm e : Z) :
  0 < fm < 2 ^ 53 -> -62 <= e <= -20 ->
  exists m2 t,
    binary_normalize prec emax ((if s then (-1) else 1) * fm) e false
    = S754_finite s m2 (e - t)
    /\ 0 <= t /\ Z.pos m2 = fm * 2 ^ t /\ 2 ^ 52 <= Z.pos m2 < 2 ^ 53.
Proof.
  intros Hfm He.
  destruct fm as [|fp|fp]; try lia.
  assert (Hn : binary_normalize prec emax ((if s then (-1) else 1) * Z.pos fp) e false
               = binary_round prec emax s fp e) by now destruct s.
  rewrite Hn. unfold binary_round.
  pose proof (digits2_pos_spec fp) as Hd.
  set (df := Z.pos (digits2_pos fp)) in *.
  assert (Hdf : 1 <= df <= 53).
  { split; [unfold df; lia|].
    assert (df - 1 < 53) by (apply (Z.pow_lt_mono_r_iff 2); lia). lia. }
  rewrite fexp_normal by lia. unfold shl_align.
  destruct (df + e - 53 - e) as [|pp|pp] eqn:Es; [|lia|].
  - assert (Hdf53 : df = 53) by lia.
    destruct (binary_round_aux_spec s fp e) as (m2 & e2 & -> & Hm2 & _ & _ & Hex).
    { fold df. lia. } { fold df. lia. } { fold df. lia. }
    destruct (Hex Hdf53) as [-> ->].
    exists fp, 0. rewrite Z.sub_0_r, Z.mul_1_r. repeat split; lia.
  - assert (Ht : Z.pos pp = 53 - df) by lia.
    pose proof (pos_iter_xO fp pp) as Hsh.
    set (M := Pos.iter xO fp pp) in *.
    assert (HT : 2 ^ (df - 1) * 2 ^ Z.pos pp = 2 ^ 52).
    { rewrite <- Z.pow_add_r by lia. f_equal; lia. }
    assert (HT' : 2 ^ df * 2 ^ Z.pos pp = 2 ^ 53).
    { rewrite <- Z.pow_add_r by lia. f_equal; lia. }
    assert (HTp : 0 < 2 ^ Z.pos pp) by (apply Z.pow_pos_nonneg; lia).
    assert (HM : 2 ^ 52 <= Z.pos M < 2 ^ 53).
    { rewrite Hsh, <- HT, <- HT'. nia. }
    assert (HdM : Z.pos (digits2_pos M) = 53).
    { apply digits2_pos_unique. exact HM. }
    destruct (binary_round_aux_spec s M (df + e - 53)) as (m2 & e2 & -> & Hm2 & _ & _ & Hex).
    { lia. } { lia. } { lia. }
    destruct (Hex HdM) as [-> ->].
    exists M, (Z.pos pp). replace (e - Z.pos pp) with (df + e - 53) by lia.
    repeat split; lia.
Qed.

Lemma near_thousand W D X delta :
  1048576 <= W -> 4294967296 <= D -> Z.abs delta <= 500 ->
  2 * Z.abs (W * X - 1000 * delta * D) <= W ->
  2 * Z.abs X < D.
Proof.
  intros HW HD Hdelta H.
  assert (Hprod : 0 <= (D - 1) * (W - 1048576)) by nia.
  destruct (Z.ltb_spec (2 * Z.abs X) D) as [|Hge]; [assumption|]. exfalso.
  assert (HWX : W * D <= 2 * Z.abs (W * X)).
  { rewrite Z.abs_mul, (Z.abs_eq W) by lia. nia. }
  assert (Hd : Z.abs (1000 * delta * D) <= 500000 * D).
  { rewrite !Z.abs_mul, (Z.abs_eq D), (Z.abs_eq 1000) by lia. nia. }
  lia.
Qed.

(** The microseconds of a fraction that is within half a microsecond of
    [r] milliseconds. *)
Lemma microseconds_exact (s : bool) (m2 : positive) (t e r delta fm : Z) :
  -62 <= e <= -20 -> 0 < fm < 2 ^ (- e) ->
  0 <= t -> Z.pos m2 = fm * 2 ^ t -> 2 ^ 52 <= Z.pos m2 < 2 ^ 53 ->
  1000 * fm = r * 2 ^ (- e) + delta -> Z.abs delta <= 500 -> 0 <= r <= 999 ->
  match SFmul prec emax (S754_finite s m2 (e - t)) Datetime.million with
  | S754_finite s' m' e' =>
      Datetime.round_half_even (if s' then Z.neg m' else Z.pos m') e'
  | _ => 0
  end = (if s then (-1) else 1) * (1000 * r).
Proof.
  intros He Hfm Ht Hm2 Hm2r Hfrac Hdelta Hr.
  set (W := 2 ^ (- e)) in *.
  assert (HW : 1048576 <= W).
  { change 1048576 with (2 ^ 20). apply Z.pow_le_mono_r; lia. }
  set (T := 2 ^ t) in *.
  assert (HT : 0 < T) by (apply Z.pow_pos_nonneg; lia).
  assert (HTW : T * W = 2 ^ (t - e)).
  { unfold T, W. rewrite <- Z.pow_add_r by lia. f_equal; lia. }
  assert (Hte : 53 <= t - e).
  { assert (52 < t - e); [|lia].
    apply (Z.pow_lt_mono_r_iff 2); [lia|lia|]. rewrite <- HTW. nia. }
  assert (Ht52 : t <= 52).
  { assert (t < 53); [|lia].
    apply (Z.pow_lt_mono_r_iff 2); [lia|lia|]. fold T. nia. }
  rewrite million_eq. cbn [SFmul]. rewrite xorb_false_r.
  set (Mm := 8589934592000000%positive).
  assert (HP : 2 ^ 104 <= Z.pos (m2 * Mm) < 2 ^ 106).
  { rewrite Pos2Z.inj_mul. unfold Mm.
    change (2 ^ 104) with (2 ^ 52 * 2 ^ 52). change (2 ^ 106) with (2 ^ 53 * 2 ^ 53).
    change (2 ^ 52) with 4503599627370496 in *.
    change (2 ^ 53) with 9007199254740992 in *. nia. }
  pose proof (digits2_pos_spec (m2 * Mm)) as Hdp.
  set (dp := Z.pos (digits2_pos (m2 * Mm))) in *.
  assert (Hdp' : 105 <= dp <= 106).
  { assert (104 < dp) by (apply (Z.pow_lt_mono_r_iff 2); lia).
    assert (dp - 1 < 106) by (apply (Z.pow_lt_mono_r_iff 2); lia).
    lia. }
  destruct (binary_round_aux_spec s (m2 * Mm) (e - t + -33))
    as (m3 & e3 & -> & Hm3 & He3 & Hnear & _).
  { fold dp. lia. } { fold dp. lia. } { fold dp. lia. }
  fold dp in He3.
  set (v := e3 - (e - t + -33)) in *.
  assert (Hv : 52 <= v <= 54) by lia.
  assert (He3neg : e3 <= -32) by lia.
  set (V := 2 ^ v) in *. set (D := 2 ^ (- e3)).
  assert (HD : 4294967296 <= D).
  { change 4294967296 with (2 ^ 32). apply Z.pow_le_mono_r; lia. }
  assert (HV : 0 < V) by (apply Z.pow_pos_nonneg; lia).
  assert (HVD : V * D = 8589934592 * T * W).
  { unfold V, D, T, W. change 8589934592 with (2 ^ 33).
    rewrite <- !Z.pow_add_r by lia. f_equal; lia. }
  assert (HX : 2 * Z.abs (Z.pos m3 - 1000 * r * D) < D).
  { apply (near_thousand W D _ delta HW HD Hdelta).
    assert (S1 : 2 * Z.abs ((Z.pos m3 * V - Z.pos (m2 * Mm)) * D) <= V * D).
    { rewrite Z.abs_mul, (Z.abs_eq D) by lia. nia. }
    assert (E1 : (Z.pos m3 * V - Z.pos (m2 * Mm)) * D
                 = (8589934592 * T) * (W * (Z.pos m3 - 1000 * r * D) - 1000 * delta * D)).
    { rewrite Pos2Z.inj_mul, Hm2.
      replace ((Z.pos m3 * V - fm * T * Z.pos Mm) * D)
        with (Z.pos m3 * (V * D) - fm * T * Z.pos Mm * D) by ring.
      rewrite HVD. unfold Mm.
      replace (fm * T * 8589934592000000 * D)
        with (8589934592 * T * (1000 * D * (1000 * fm))) by ring.
      rewrite Hfrac. ring. }
    rewrite E1, HVD, Z.abs_mul, (Z.abs_eq (8589934592 * T)) in S1 by lia.
    nia. }
  destruct s.
  - apply round_half_even_near; [lia|]. fold D.
    replace (Z.neg m3 - -1 * (1000 * r) * D) with (- (Z.pos m3 - 1000 * r * D))
      by (rewrite <- Pos2Z.opp_pos; ring).
    now rewrite Z.abs_opp.
  - apply round_half_even_near; [lia|]. fold D.
    replace (Z.pos m3 - 1 * (1000 * r) * D) with (Z.pos m3 - 1000 * r * D) by ring.
    exact HX.
Qed.

(** A float that near to a count of milliseconds splits into its seconds
    and its milliseconds, exactly. *)
Lemma to_timeval_exact (s : bool) (m' : positive) (e' a : Z) :
  2 ^ 52 <= Z.pos m' < 2 ^ 53 -> -62 <= e' <= -20 ->
  0 < a < 8589934592000 ->
  Z.abs (1000 * Z.pos m' - a * 2 ^ (- e')) <= 500 ->
  Datetime.to_timeval (S754_finite s m' e')
  = Ok ((if s then - a else a) / 1000, (if s then - a else a) mod 1000 * 1000).
Proof.
  intros Hm' He' Ha Hnear.
  set (W := 2 ^ (- e')) in *.
  assert (HW : 1048576 <= W).
  { change 1048576 with (2 ^ 20). apply Z.pow_le_mono_r; lia. }
  pose proof (Z.div_mod a 1000 ltac:(lia)) as Hdm.
  pose proof (Z.mod_pos_bound a 1000 ltac:(lia)) as Hr.
  set (S := a / 1000) in *. set (r := a mod 1000) in *.
  set (delta := 1000 * Z.pos m' - a * W) in *.
  set (fm := Z.pos m' - S * W).
  assert (Hfrac : 1000 * fm = r * W + delta).
  { unfold fm, delta. rewrite Hdm. ring. }
  assert (Hfm : 0 <= fm < W) by nia.
  assert (Hip : Z.pos m' / W = S).
  { symmetry. apply Z.div_unique with fm; [lia|unfold fm; ring]. }
  assert (Hfm' : Z.pos m' mod W = fm).
  { symmetry. apply Z.mod_unique with S; [lia|unfold fm; ring]. }
  assert (HS : 0 <= S < 8589934592) by lia.
  unfold Datetime.to_timeval.
  destruct (Z.leb_spec 0 e'); [lia|]. cbv zeta. fold W. rewrite Hip, Hfm'.
  assert (Hz : forall z : Z, z = (if s then - a else a) ->
               z / 1000 = (if s then (if Z.eqb r 0 then - S else - S - 1) else S)
               /\ z mod 1000 = (if s then (if Z.eqb r 0 then 0 else 1000 - r) else r)).
  { intros z ->. destruct s.
    - destruct (Z.eqb_spec r 0).
      + split; symmetry;
          [apply Z.div_unique with 0|apply Z.mod_unique with (- S)]; lia.
      + split; symmetry;
          [apply Z.div_unique with (1000 - r)|apply Z.mod_unique with (- S - 1)]; lia.
    - split; reflexivity. }
  destruct (Hz _ eq_refl) as [-> ->]. clear Hz.
  destruct (Z.eq_dec fm 0) as [Hz0|Hnz].
  - assert (r = 0) by nia.
    rewrite Hz0, Z.mul_0_r. cbn [binary_normalize].
    rewrite million_eq. cbn [SFmul].
    replace (Z.eqb r 0) with true by (symmetry; apply Z.eqb_eq; assumption).
    subst r. rewrite H0.
    destruct s; cbn [Z.leb Z.ltb Z.compare];
      [replace (-1 * S) with (- S) by ring|replace (1 * S) with S by ring];
      match goal with
      | |- (if ?c then _ else _) = _ => replace c with true; [reflexivity|]
      end; symmetry; apply andb_true_iff; split;
      [apply Z.leb_le|apply Z.ltb_lt|apply Z.leb_le|apply Z.ltb_lt];
      change (2 ^ 63) with 9223372036854775808; lia.
  - assert (Hr1 : 1 <= r) by nia.
    destruct (fraction_exact s fm e' ltac:(lia) ltac:(lia))
      as (m2 & t & -> & Ht & Hm2 & Hm2r).
    rewrite (microseconds_exact s m2 t e' r delta fm); try assumption; try lia.
    replace (Z.eqb r 0) with false by (symmetry; apply Z.eqb_neq; lia).
    destruct s.
    + replace (1000000 <=? -1 * (1000 * r))%Z with false
        by (symmetry; apply Z.leb_gt; lia).
      replace (-1 * (1000 * r) <? 0)%Z with true by (symmetry; apply Z.ltb_lt; lia).
      match goal with
      | |- (if ?c then _ else _) = _ => replace c with true
      end.
      * f_equal. f_equal; lia.
      * symmetry; apply andb_true_iff; split; [apply Z.leb_le|apply Z.ltb_lt];
          change (2 ^ 63) with 9223372036854775808; lia.
    + replace (1000000 <=? 1 * (1000 * r))%Z with false
        by (symmetry; apply Z.leb_gt; lia).
      replace (1 * (1000 * r) <? 0)%Z with false by (symmetry; apply Z.ltb_ge; lia).
      match goal with
      | |- (if ?c then _ else _) = _ => replace c with true
      end.
      * f_equal. f_equal; lia.
      * symmetry; apply andb_true_iff; split; [apply Z.leb_le|apply Z.ltb_lt];
          change (2 ^ 63) with 9223372036854775808; lia.
Qed.

(** *** The date

    [civil_from_days] is checked against [days_from_civil], day by day,
    over the days that [2^33] seconds reach on either side of the epoch. *)

(** A run of [check_step] ends true only when every day passed. *)
Lemma check_iter n : forall d0,
  fst (Pos.iter check_step (d0, true) n) = d0 + Z.pos n
  /\ (snd (Pos.iter check_step (d0, true) n) = true ->
      forall d, d0 <= d < d0 + Z.pos n -> date_check d = true).
Proof.
  induction n as [|n IH] using Pos.peano_ind; intros d0.
  - change (Pos.iter check_step (d0, true) 1) with (check_step (d0, true)).
    unfold check_step; cbn [fst snd andb]. split; [reflexivity|].
    intros H d Hd. replace d with d0 by lia. exact H.
  - rewrite Pos.iter_succ. destruct (IH d0) as [Hf Hs].
    destruct (Pos.iter check_step (d0, true) n) as [d1 b]. cbn [fst snd] in *.
    unfold check_step; cbn [fst snd]. split; [lia|].
    intros H d Hd. apply andb_true_iff in H as [Hb Hc]. subst d1.
    destruct (Z.eq_dec d (d0 + Z.pos n)) as [->|]; [exact Hc|].
    apply Hs; [exact Hb|lia].
Qed.

Lemma dates_checked :
  snd (Pos.iter check_step (-99421, true) 198842) = true.
Proof. vm_compute. reflexivity. Qed.

Lemma date_check_range d : -99421 <= d < 99421 -> date_check d = true.
Proof.
  intros Hd. apply (proj2 (check_iter 198842 (-99421)) dates_checked). lia.
Qed.

Lemma int_truediv_1000 z :
  z <> 0 -> - exact_limit < z < exact_limit ->
  exists m' e',
    int_truediv z 1000 = Ok (S754_finite (Z.ltb z 0) m' e')
    /\ 2 ^ 52 <= Z.pos m' < 2 ^ 53 /\ -62 <= e' <= -20
    /\ Z.abs (1000 * Z.pos m' - Z.abs z * 2 ^ (- e')) <= 500.
Proof.
  unfold exact_limit. intros Hz Hr.
  destruct (round_div_1000 (Z.abs z)) as (m' & e' & Hq & Hm & He & Hd); [lia|].
  exists m', e'. split; [|auto].
  unfold int_truediv, signed_div.
  change (Z.abs 1000) with 1000. change (Z.sgn 1000) with 1.
  rewrite Hq, Z.mul_1_r.
  destruct (Z.ltb_spec z 0) as [Hn|Hp].
  - replace (Z.sgn z) with (-1) by lia. reflexivity.
  - replace (Z.sgn z) with 1 by lia. reflexivity.
Qed.

Lemma timeval_of_milliseconds z :
  - exact_limit < z < exact_limit ->
  exists ts, int_truediv z 1000 = Ok ts
    /\ Datetime.to_timeval ts = Ok (z / 1000, z mod 1000 * 1000).
Proof.
  intros Hr. destruct (Z.eq_dec z 0) as [->|Hz].
  - exists (S754_zero false). split; reflexivity.
  - destruct (int_truediv_1000 z Hz Hr) as (m' & e' & Hq & Hm & He & Hd).
    exists (S754_finite (Z.ltb z 0) m' e'). split; [exact Hq|].
    unfold exact_limit in Hr.
    rewrite (to_timeval_exact (Z.ltb z 0) m' e' (Z.abs z) Hm He); [|lia|exact Hd].
    destruct (Z.ltb_spec z 0) as [Hn|Hp].
    + replace (- Z.abs z) with z by lia. reflexivity.
    + replace (Z.abs z) with z by lia. reflexivity.
Qed.

(** Hours, minutes and seconds of the seconds since the epoch. *)
Lemma clock_of_seconds sec D :
  D = sec / 86400 ->
  let s := sec mod 86400 in
  (D * 86400 + s / 3600 * 3600 + s mod 3600 / 60 * 60 + s mod 60) = sec
  /\ 0 <= s / 3600 < 24 /\ 0 <= s mod 3600 / 60 < 60 /\ 0 <= s mod 60 < 60.
Proof.
  intros -> s. subst s.
  pose proof (Z.div_mod sec 86400 ltac:(lia)) as H1.
  pose proof (Z.mod_pos_bound sec 86400 ltac:(lia)) as B1.
  set (s := sec mod 86400) in *.
  pose proof (Z.div_mod s 3600 ltac:(lia)) as H2.
  pose proof (Z.mod_pos_bound s 3600 ltac:(lia)) as B2.
  set (r := s mod 3600) in *.
  pose proof (Z.div_mod r 60 ltac:(lia)) as H3.
  pose proof (Z.mod_pos_bound r 60 ltac:(lia)) as B3.
  assert (Hs60 : s mod 60 = r mod 60).
  { rewrite H2 at 1.
    replace (3600 * (s / 3600) + r) with (r + s / 3600 * 60 * 60) by lia.
    apply Z.mod_add. lia. }
  rewrite Hs60.
  assert (0 <= s / 3600 < 24).
  { split; [apply Z.div_pos; lia|apply Z.div_lt_upper_bound; lia]. }
  assert (0 <= r / 60 < 60).
  { split; [apply Z.div_pos; lia|apply Z.div_lt_upper_bound; lia]. }
  repeat split; try lia.
Qed.

(** Below [exact_limit], the datetime of [z / 1000] is a date of the
    calendar at the instant [z] ms. *)
Lemma fromtimestamp_of_milliseconds z :
  - exact_limit < z < exact_limit ->
  exists ts dt,
    int_truediv z 1000 = Ok ts
    /\ Datetime.fromtimestamp_utc ts = Ok dt
    /\ epoch_milliseconds dt = z
    /\ Datetime.microsecond dt mod 1000 = 0
    /\ valid_datetime dt = true.
Proof.
  intros Hr. destruct (timeval_of_milliseconds z Hr) as (ts & Hq & Htv).
  unfold exact_limit in Hr.
  set (sec := z / 1000) in *.
  assert (Hsec : -8589934592 <= sec < 8589934592).
  { subst sec. split; [apply Z.div_le_lower_bound; lia|apply Z.div_lt_upper_bound; lia]. }
  assert (HD : -99421 <= sec / 86400 < 99421).
  { split; [apply Z.div_le_lower_bound; lia|apply Z.div_lt_upper_bound; lia]. }
  pose proof (date_check_range _ HD) as Hc. unfold date_check in Hc.
  destruct (clock_of_seconds sec _ eq_refl) as (Hclock & Hh & Hmi & Hs).
  cbv zeta in Hclock, Hh, Hmi, Hs.
  pose proof (Z.div_mod z 1000 ltac:(lia)) as Hz.
  pose proof (Z.mod_pos_bound z 1000 ltac:(lia)) as Bz.
  destruct (Datetime.civil_from_days (sec / 86400)) as [[y m] d] eqn:Ecivil.
  apply andb_true_iff in Hc as [Hvalid Hback]. apply Z.eqb_eq in Hback.
  assert (Hy : 1 <= y <= 9999).
  { unfold valid_date in Hvalid.
    repeat (apply andb_true_iff in Hvalid as [Hvalid ?]). lia. }
  exists ts, (Datetime.mk_datetime y m d (sec mod 86400 / 3600)
                (sec mod 86400 mod 3600 / 60) (sec mod 86400 mod 60)
                (z mod 1000 * 1000)).
  split; [exact Hq|]. split; [|split; [|split]].
  - unfold Datetime.fromtimestamp_utc. rewrite Htv. cbn [bind]. rewrite Ecivil.
    replace ((- 2 ^ 31 <=? y - 1900) && (y - 1900 <? 2 ^ 31))%Z with true
      by (symmetry; apply andb_true_iff; split; [apply Z.leb_le|apply Z.ltb_lt];
          change (2 ^ 31) with 2147483648; lia).
    replace ((1 <=? y) && (y <=? 9999))%Z with true
      by (symmetry; apply andb_true_iff; split; apply Z.leb_le; lia).
    reflexivity.
  - unfold epoch_milliseconds.
    cbn [Datetime.year Datetime.month Datetime.day Datetime.hour Datetime.minute
         Datetime.second Datetime.microsecond].
    rewrite Hback, Z.div_mul by lia. fold sec in Hz. lia.
  - cbn [Datetime.microsecond]. apply Z.mod_mul. lia.
  - unfold valid_datetime.
    cbn [Datetime.year Datetime.month Datetime.day Datetime.hour Datetime.minute
         Datetime.second Datetime.microsecond].
    rewrite Hvalid. cbn [andb].
    repeat (apply andb_true_iff; split);
      try (apply Z.leb_le; lia); try (apply Z.ltb_lt; lia).
Qed.

(** C7, amended.  [convert_timestamp] reads a truthy input that [int()]
    takes for [z] as Unix milliseconds, and for every [z] of magnitude
    below [exact_limit] (2^33 seconds: the years 1697 to 2242) returns the
    ISO 8601 text of a datetime of the calendar whose instant is exactly
    [z] ms, a whole number of milliseconds; 1700000000000 becomes
    2023-11-14 22:13:20 UTC; [None], and every other falsy input, the
    number 0 among them, gives [None]; and input that is not a number (a
    string that is no integer literal, an array, an object) gives [None]
    without raising. *)
Theorem convert_timestamp_spec (v : pyval) :
  (forall z, truthy v = true -> py_int v = Ok z ->
     - exact_limit < z < exact_limit ->
     exists dt,
       convert_timestamp v = Ok (PStr (Datetime.isoformat dt))
       /\ (ts <- int_truediv z 1000 ;; Datetime.fromtimestamp_utc ts) = Ok dt
       /\ epoch_milliseconds dt = z
       /\ Datetime.microsecond dt mod 1000 = 0
       /\ valid_datetime dt = true)
  /\ convert_timestamp (PInt 1700000000000) = Ok (PStr "2023-11-14T22:13:20+00:00")
  /\ (ts <- int_truediv 1700000000000 1000 ;; Datetime.fromtimestamp_utc ts)
     = Ok (Datetime.mk_datetime 2023 11 14 22 13 20 0)
  /\ epoch_milliseconds (Datetime.mk_datetime 2023 11 14 22 13 20 0) = 1700000000000
  /\ convert_timestamp PNone = Ok PNone
  /\ (truthy v = false -> convert_timestamp v = Ok PNone)
  /\ (non_numeric v -> convert_timestamp v = Ok PNone).
Proof.
  split.
  { intros z Ht Hint Hr.
    destruct (fromtimestamp_of_milliseconds z Hr)
      as (ts & dt & Hq & Hdt & Hms & Hus & Hvalid).
    exists dt. split; [|split; [|auto]].
    - unfold convert_timestamp. rewrite Ht, Hint. cbn [negb bind].
      rewrite Hq. cbn [bind]. rewrite Hdt. reflexivity.
    - rewrite Hq. exact Hdt. }
  split; [vm_compute; reflexivity|]. split; [vm_compute; reflexivity|].
  split; [vm_compute; reflexivity|]. split; [reflexivity|].
  split; [intros Hf; unfold convert_timestamp; rewrite Hf; reflexivity|].
  unfold convert_timestamp. destruct v as [| | | |s|l|d]; simpl; try tauto.
  - intros Hs. destruct (String.eqb s ""); simpl; [reflexivity|].
    now rewrite Hs.
  - intros _. now destruct l.
  - intros _. now destruct d.
Qed.

(** C7, as stated, fails.  Read as Unix milliseconds, 0 is the epoch, and
    the string "0" is converted to it; the number 0 gives [None].  And the
    first instant past [exact_limit], 8589934592001 ms, comes back as
    12:56:32.000999: its millisecond is lost, and the instant of the result
    is 8589934592000 ms; so it is with 32503680000001 ms, in the year
    3000. *)
Lemma timestamp_zero_and_far_future :
  convert_timestamp (PInt 0) = Ok PNone
  /\ convert_timestamp (PStr "0") = Ok (PStr "1970-01-01T00:00:00+00:00")
  /\ convert_timestamp (PInt 8589934592001)
     = Ok (PStr "2242-03-16T12:56:32.000999+00:00")
  /\ (ts <- int_truediv 8589934592001 1000 ;; Datetime.fromtimestamp_utc ts)
     = Ok (Datetime.mk_datetime 2242 3 16 12 56 32 999)
  /\ epoch_milliseconds (Datetime.mk_datetime 2242 3 16 12 56 32 999)
     = 8589934592000
  /\ convert_timestamp (PInt 32503680000001)
     = Ok (PStr "3000-01-01T00:00:00.000999+00:00").
Proof. repeat split; vm_compute; reflexivity. Qed.

(** Other instants: a millisecond fraction, the leap day of 2000, the
    last second before the epoch, and [True], which Python takes for 1. *)
Example convert_timestamp_samples :
  convert_timestamp (PInt 1700000000123) = Ok (PStr "2023-11-14T22:13:20.123000+00:00")
  /\ convert_timestamp (PInt 951782400000) = Ok (PStr "2000-02-29T00:00:00+00:00")
  /\ convert_timestamp (PInt (-1000)) = Ok (PStr "1969-12-31T23:59:59+00:00")
  /\ convert_timestamp (PStr "1700000000000") = Ok (PStr "2023-11-14T22:13:20+00:00")
  /\ convert_timestamp (PBool true) = Ok (PStr "1970-01-01T00:00:00.001000+00:00")
  /\ convert_timestamp (PInt 0) = Ok PNone.
Proof. repeat split; vm_compute; reflexivity. Qed.

(** The string "1700000000123" is read as that many milliseconds, the last
    millisecond below the limit and the first above its negative are kept,
    the empty string is falsy, and the strings "abc" and "12.5" and a
    one-element array are not numbers. *)
Lemma convert_timestamp_spec_witness :
  (exists dt,
      convert_timestamp (PStr "1700000000123") = Ok (PStr (Datetime.isoformat dt))
      /\ epoch_milliseconds dt = 1700000000123
      /\ valid_datetime dt = true)
  /\ (exists dt,
      convert_timestamp (PInt 8589934591999) = Ok (PStr (Datetime.isoformat dt))
      /\ epoch_milliseconds dt = 8589934591999)
  /\ (exists dt,
      convert_timestamp (PInt (-8589934591999)) = Ok (PStr (Datetime.isoformat dt))
      /\ epoch_milliseconds dt = -8589934591999)
  /\ convert_timestamp (PStr "") = Ok PNone
  /\ convert_timestamp (PStr "abc") = Ok PNone
  /\ convert_timestamp (PStr "12.5") = Ok PNone
  /\ convert_timestamp (PList [PInt 1700000000000]) = Ok PNone.
Proof.
  split; [|split; [|split; [|split; [|split; [|split]]]]].
  - destruct (proj1 (convert_timestamp_spec (PStr "1700000000123"))
                1700000000123 eq_refl eq_refl)
      as (dt & Hc & _ & Hms & _ & Hvalid); [unfold exact_limit; lia|].
    exists dt. auto.
  - destruct (proj1 (convert_timestamp_spec (PInt 8589934591999))
                8589934591999 eq_refl eq_refl)
      as (dt & Hc & _ & Hms & _); [unfold exact_limit; lia|].
    exists dt. auto.
  - destruct (proj1 (convert_timestamp_spec (PInt (-8589934591999)))
                (-8589934591999) eq_refl eq_refl)
      as (dt & Hc & _ & Hms & _); [unfold exact_limit; lia|].
    exists dt. auto.
  - apply (convert_timestamp_spec (PStr "")). reflexivity.
  - apply (convert_timestamp_spec (PStr "abc")). reflexivity.
  - apply (convert_timestamp_spec (PStr "12.5")). reflexivity.
  - apply (convert_timestamp_spec (PList [PInt 1700000000000])). exact I.
Defined.

(** ** Structural anchors *)

Section Anchors.
Context {rt : Runtime}.

Lemma parse_fields_inv data it :
  parse_fields data = Ok it ->
  (exists pi dsi mv,
      getitem data "processInformation" = Ok pi
      /\ getitem pi "dataSetInformation" = Ok dsi
      /\ getitem data "modellingAndValidation" = Ok mv)
  /\ (pi <- get data "processInformation" empty_dict ;;
      dsi <- get pi "dataSetInformation" empty_dict ;;
      get dsi "UUID" (PStr "")) = Ok (uuid it)
  /\ (ai <- get data "administrativeInformation" empty_dict ;;
      get2 ai "publicationAndOwnership" "dataSetVersion" (PStr "")) = Ok (version it)
  /\ process_id it = (py_str (uuid it) ++ "_" ++ py_str (version it))%string
  /\ classification_entries data = Ok (classifications it)
  /\ exists id exs,
       declared_reference data = Ok id /\ exchanges_of data = Ok exs
       /\ reference_flow_loop id exs = Ok (reference_flow it).
Proof.
  unfold parse_fields; intros H. inv_bind H.
  injection H as <-. cbn [uuid version process_id reference_flow classifications].
  unfold declared_reference, exchanges_of, classification_entries.
  repeat match goal with
         | E : ?m = Ok _ |- context [?m] => rewrite E; cbn [bind]
         end.
  repeat split; eauto 10.
Qed.

End Anchors.

(** ** Category projection *)

Lemma translate_text_value text tr nf v nf' :
  translate_text text tr nf = (Ok v, nf') -> v = translated tr text.
Proof.
  unfold translate_text, translated.
  destruct (truthy text) eqn:Ht; simpl.
  - destruct text as [| | | |s| |]; try discriminate.
    simpl in Ht. destruct (String.eqb s ""); [discriminate|].
    fold (normalized s). destruct (tr_lookup (normalized s) tr); now intros [= <-].
  - intros [= <-]. destruct text as [| | | |s| |]; try reflexivity.
    simpl in Ht. now destruct (String.eqb s "").
Qed.

Lemma translate_text_total text tr nf :
  (truthy text = true -> exists s, text = PStr s) ->
  exists nf', translate_text text tr nf = (Ok (translated tr text), nf').
Proof.
  intros Hs. destruct (translate_text text tr nf) as [[v|e] nf'] eqn:E.
  - exists nf'. now rewrite (translate_text_value _ _ _ _ _ E).
  - exfalso. unfold translate_text in E.
    destruct (truthy text) eqn:Ht; simpl in E; [|discriminate].
    destruct (Hs eq_refl) as [s ->].
    destruct (tr_lookup _ tr); discriminate.
Qed.

Lemma level_of_assign k z v st :
  0 <= k <= 2 ->
  level_of k (assign_level z v st) = if Z.eqb z k then v else level_of k st.
Proof.
  intros Hk. assert (Hc : k = 0 \/ k = 1 \/ k = 2) by lia.
  destruct Hc as [Hc | [Hc | Hc]]; subst k;
    unfold assign_level, level_of; simpl;
    destruct (Z.eqb_spec z 0); subst; simpl; try reflexivity;
    destruct (Z.eqb_spec z 1); subst; simpl; try reflexivity;
    destruct (Z.eqb_spec z 2); subst; simpl; reflexivity.
Qed.

Lemma project_classes_spec tr k classes :
  0 <= k <= 2 ->
  forall st nf st' nf',
    project_classes classes tr st nf = (Ok st', nf') ->
    level_of k st' = match last_match (at_level k) classes with
                     | Some c => translated tr (cl_classification c)
                     | None => level_of k st
                     end.
Proof.
  intros Hk. induction classes as [|c r IH]; intros st nf st' nf'; simpl.
  - now intros [= <- _].
  - unfold at_level at 2.
    destruct (py_int (cl_level c)) as [z|] eqn:Ez; [|discriminate].
    destruct (translate_text (cl_classification c) tr nf) as [[v|] nf1] eqn:Et;
      [|discriminate].
    intros Hr. rewrite (IH _ _ _ _ Hr).
    destruct (last_match (at_level k) r); [reflexivity|].
    rewrite level_of_assign by assumption.
    rewrite (translate_text_value _ _ _ _ _ Et).
    now destruct (Z.eqb z k).
Qed.

Lemma is_oekobau_spec c b :
  is_oekobau c = Ok b -> (exists n, cl_name c = PStr n) /\ b = oekobau c.
Proof.
  unfold is_oekobau, oekobau, py_lower.
  destruct (cl_name c); simpl; try discriminate.
  intros [= <-]. eauto.
Qed.

Lemma oekobau_classes_spec all classes :
  oekobau_classes all = Ok classes -> classes = filter oekobau all.
Proof.
  revert classes; induction all as [|c r IH]; intros classes; simpl.
  - now intros [= <-].
  - destruct (is_oekobau c) as [b|] eqn:Eb; simpl; [|discriminate].
    destruct (oekobau_classes r) as [t|]; simpl; [|discriminate].
    apply is_oekobau_spec in Eb as [_ ->].
    intros [= <-]. rewrite (IH t eq_refl). now destruct (oekobau c).
Qed.

Lemma last_match_filter (p q : classification -> bool) cs :
  last_match q (filter p cs) = last_match (fun c => p c && q c) cs.
Proof.
  induction cs as [|c r IH]; simpl; [reflexivity|].
  destruct (p c) eqn:Ep; simpl; rewrite IH;
    now destruct (last_match (fun c => p c && q c) r).
Qed.

Lemma last_match_none p cs :
  (forall c, In c cs -> p c = false) -> last_match p cs = None.
Proof.
  induction cs as [|c r IH]; simpl; intros Hno; [reflexivity|].
  rewrite IH by (intros; apply Hno; now right).
  now rewrite Hno by now left.
Qed.

Lemma category_loop_spec tr k all :
  0 <= k <= 2 ->
  forall todo st nf st' nf',
    category_loop todo all tr st nf = (Ok st', nf') ->
    level_of k st' = match last_match (fun c => oekobau c && at_level k c) all with
                     | Some c => translated tr (cl_classification c)
                     | None => level_of k st
                     end
    \/ (st' = st /\ forall c, In c todo -> oekobau c = false).
Proof.
  intros Hk. induction todo as [|c r IH]; intros st nf st' nf'; simpl.
  - intros [= <- _]. right. split; [reflexivity|]. intros ? [].
  - destruct (is_oekobau c) as [b|] eqn:Eb; [|discriminate].
    apply is_oekobau_spec in Eb as [_ ->].
    destruct (oekobau c) eqn:Eo.
    + destruct (oekobau_classes all) as [classes|] eqn:Ec; [|discriminate].
      apply oekobau_classes_spec in Ec; subst classes.
      destruct (project_classes (filter oekobau all) tr st nf) as [[st1|] nf1] eqn:Ep;
        [|discriminate].
      apply (project_classes_spec tr k _ Hk) in Ep.
      rewrite last_match_filter in Ep.
      intros Hr. left. destruct (IH _ _ _ _ Hr) as [H1|[-> _]].
      * rewrite H1, Ep. now destruct (last_match _ all).
      * exact Ep.
    + intros Hr. destruct (IH _ _ _ _ Hr) as [H1|[-> Hno]]; [now left|].
      right. split; [reflexivity|]. intros c' [<-|Hc']; auto.
Qed.

Lemma category_loop_projected tr k all nf st' nf' :
  0 <= k <= 2 ->
  category_loop all all tr no_categories nf = (Ok st', nf') ->
  level_of k st' = projected tr k all.
Proof.
  intros Hk Hl. unfold projected.
  destruct (category_loop_spec tr k all Hk _ _ _ _ _ Hl) as [H|[-> Hno]].
  - rewrite H. destruct (last_match _ all); [reflexivity|].
    unfold level_of, no_categories; simpl. now destruct (Z.eqb k 0), (Z.eqb k 1).
  - rewrite last_match_none by (intros c Hc; now rewrite (Hno c Hc)).
    unfold level_of, no_categories; simpl. now destruct (Z.eqb k 0), (Z.eqb k 1).
Qed.

Lemma oekobau_classes_total all :
  Forall projectable all -> oekobau_classes all = Ok (filter oekobau all).
Proof.
  induction 1 as [|c r [[n Hn] _] Hr IH]; simpl; [reflexivity|].
  rewrite IH. unfold is_oekobau, oekobau. rewrite Hn; simpl.
  now destruct (String.eqb (lower n) "oekobau.dat").
Qed.

Lemma project_classes_total tr classes :
  Forall (fun c => projectable c /\ oekobau c = true) classes ->
  forall st nf, exists st' nf', project_classes classes tr st nf = (Ok st', nf').
Proof.
  induction 1 as [|c r [[_ Hc] Ho] Hr IH]; intros st nf; simpl; [eauto|].
  destruct (Hc Ho) as [Hi Hv].
  destruct (py_int (cl_level c)) as [z|]; [|discriminate].
  destruct (translate_text_total (cl_classification c) tr nf Hv) as [nf1 ->].
  apply IH.
Qed.

Lemma category_loop_total tr all :
  Forall projectable all ->
  forall todo, Forall projectable todo ->
  forall st nf, exists st' nf', category_loop todo all tr st nf = (Ok st', nf').
Proof.
  intros Hall. induction 1 as [|c r [[n Hn] Hc] Hr IH]; intros st nf; simpl; [eauto|].
  unfold is_oekobau. rewrite Hn; simpl.
  destruct (String.eqb (lower n) "oekobau.dat"); [|apply IH].
  rewrite (oekobau_classes_total all Hall).
  destruct (project_classes_total tr (filter oekobau all)) with (st := st) (nf := nf)
    as (st1 & nf1 & ->); [|apply IH].
  apply Forall_forall. intros c' Hc'. apply filter_In in Hc' as [Hin Ho].
  split; [|exact Ho]. now apply (proj1 (Forall_forall _ _) Hall).
Qed.

Lemma last_match_last p cs1 c cs2 :
  p c = true -> (forall c', In c' cs2 -> p c' = false) ->
  last_match p (cs1 ++ c :: cs2) = Some c.
Proof.
  intros Hp Hno. induction cs1 as [|c1 r IH]; simpl.
  - now rewrite (last_match_none _ cs2 Hno), Hp.
  - now rewrite IH.
Qed.

Lemma projected_last tr k cs1 c cs2 :
  oekobau c = true -> at_level k c = true ->
  (forall c', In c' cs2 -> oekobau c' && at_level k c' = false) ->
  projected tr k (cs1 ++ c :: cs2) = translated tr (cl_classification c).
Proof.
  intros Ho Hl Hno. unfold projected.
  rewrite last_match_last; auto. now rewrite Ho, Hl.
Qed.

(** C8.  The classification entries of the system "oekobau.dat" (the name
    compared without case) are projected by level 0, 1 and 2 onto
    [category_level_1], [_2] and [_3]: each field is the value of the last
    such entry at its level, in document order, passed through the
    Translation Lookup (the English term when the dictionary maps the
    normalized text, the original text otherwise), and [None] when there is
    no such entry.  On projectable entries the projection returns, and
    whenever [parse_json] returns a record its classifications are the
    classification entries of the document, in document order, and its
    three category fields are these projections of them. *)
Theorem category_projection (rt : Runtime) (tr : translations) :
  (forall cs nf,
      Forall projectable cs ->
      exists st nf',
        category_loop cs cs tr no_categories nf = (Ok st, nf')
        /\ level_1 st = projected tr 0 cs
        /\ level_2 st = projected tr 1 cs
        /\ level_3 st = projected tr 2 cs)
  /\ (forall data nf it nf',
         parse_json data tr nf = (Ok it, nf') ->
         classification_entries data = Ok (classifications it)
         /\ category_level_1 it = projected tr 0 (classifications it)
         /\ category_level_2 it = projected tr 1 (classifications it)
         /\ category_level_3 it = projected tr 2 (classifications it))
  /\ (forall k cs1 c cs2,
         oekobau c = true -> at_level k c = true ->
         (forall c', In c' cs2 -> oekobau c' && at_level k c' = false) ->
         projected tr k (cs1 ++ c :: cs2) = translated tr (cl_classification c))
  /\ (forall s english,
         s <> "" -> tr_lookup (normalized s) tr = Some english ->
         translated tr (PStr s) = PStr english)
  /\ (forall s, tr_lookup (normalized s) tr = None -> translated tr (PStr s) = PStr s).
Proof.
  split; [|split; [|split; [|split]]].
  - intros cs nf Hcs.
    destruct (category_loop_total tr cs Hcs cs Hcs no_categories nf) as (st & nf' & Hl).
    exists st, nf'. split; [exact Hl|].
    pose proof (category_loop_projected tr 0 cs nf st nf' ltac:(lia) Hl) as H0.
    pose proof (category_loop_projected tr 1 cs nf st nf' ltac:(lia) Hl) as H1.
    pose proof (category_loop_projected tr 2 cs nf st nf' ltac:(lia) Hl) as H2.
    auto.
  - intros data nf it nf'. unfold parse_json.
    destruct (parse_fields data) as [it0|] eqn:Ef; [|discriminate].
    destruct (category_loop _ _ tr no_categories nf) as [[st|] nf1] eqn:Hl;
      [|discriminate].
    intros [= <- _]. simpl.
    apply parse_fields_inv in Ef as (_ & _ & _ & _ & Hc & _).
    split; [exact Hc|].
    pose proof (category_loop_projected tr 0 _ nf st nf1 ltac:(lia) Hl) as H0.
    pose proof (category_loop_projected tr 1 _ nf st nf1 ltac:(lia) Hl) as H1.
    pose proof (category_loop_projected tr 2 _ nf st nf1 ltac:(lia) Hl) as H2.
    auto.
  - intros; now apply projected_last.
  - intros s english Hs Hl. unfold translated.
    destruct (String.eqb_spec s ""); [contradiction|]. now rewrite Hl.
  - intros s Hl. unfold translated. rewrite Hl. now destruct (String.eqb s "").
Qed.

(** Two entries of the system at level 0 and 1, the second under the name
    "OEKOBAU.DAT", and one entry of another system: the dictionary knows
    the first German term only, the second is kept as it is. *)
Lemma category_projection_witness :
  exists st nf',
    category_loop
      [ mk_classification (PStr "oekobau.dat") (PInt 0) (PStr "1") (PStr "Mineralische Baustoffe");
        mk_classification (PStr "other") (PInt 0) (PStr "9") (PStr "Sonstiges");
        mk_classification (PStr "OEKOBAU.DAT") (PStr "1") (PStr "1.3") (PStr "Beton") ]
      [ mk_classification (PStr "oekobau.dat") (PInt 0) (PStr "1") (PStr "Mineralische Baustoffe");
        mk_classification (PStr "other") (PInt 0) (PStr "9") (PStr "Sonstiges");
        mk_classification (PStr "OEKOBAU.DAT") (PStr "1") (PStr "1.3") (PStr "Beton") ]
      [("mineralische baustoffe", "Mineral building products")] no_categories []
    = (Ok st, nf')
    /\ level_1 st = PStr "Mineral building products"
    /\ level_2 st = PStr "Beton"
    /\ level_3 st = PNone.
Proof.
  destruct (proj1 (category_projection example_runtime
                     [("mineralische baustoffe", "Mineral building products")])
              [ mk_classification (PStr "oekobau.dat") (PInt 0) (PStr "1") (PStr "Mineralische Baustoffe");
                mk_classification (PStr "other") (PInt 0) (PStr "9") (PStr "Sonstiges");
                mk_classification (PStr "OEKOBAU.DAT") (PStr "1") (PStr "1.3") (PStr "Beton") ] [])
    as (st & nf' & Hl & H1 & H2 & H3).
  - repeat (apply Forall_cons;
            [split;
             [eexists; reflexivity
             |vm_compute; intros Ho;
              first [discriminate Ho
                    |split; [reflexivity|intros _; eexists; reflexivity]]]|]).
    apply Forall_nil.
  - exists st, nf'. split; [exact Hl|]. rewrite H1, H2, H3.
    split; [|split]; vm_compute; reflexivity.
Defined.

(** ** The store: insert-once *)

Lemma keeps_products_sret {A} (a : A) : keeps_products (sret a).
Proof. now intros db. Qed.

Lemma keeps_products_lift {A} (m : result A) : keeps_products (lift m).
Proof. now intros db. Qed.

Lemma keeps_products_sbind {A B} (m : stm A) (k : A -> stm B) :
  keeps_products m -> (forall a, keeps_products (k a)) -> keeps_products (sbind m k).
Proof.
  intros Hm Hk db. unfold sbind. specialize (Hm db).
  destruct (m db) as [[a|e] db1]; simpl in *; [|exact Hm].
  now rewrite Hk.
Qed.

Lemma keeps_products_for_each {A} (f : A -> stm unit) l :
  (forall a, keeps_products (f a)) -> keeps_products (for_each f l).
Proof.
  intros Hf. induction l as [|x r IH]; simpl.
  - apply keeps_products_sret.
  - apply keeps_products_sbind; auto.
Qed.

Lemma add_row_products t r db :
  t <> Products -> t_products (add_row t r db) = t_products db.
Proof. destruct db, t; simpl; congruence. Qed.

Lemma nextval_products t db : t_products (snd (nextval t db)) = t_products db.
Proof. destruct db, t; reflexivity. Qed.

Section StoreFacts.
Context {rt : Runtime}.

Lemma keeps_products_insert t params :
  t <> Products -> keeps_products (insert t params).
Proof.
  intros Ht db. unfold insert.
  destruct (adapts t params && constraints t params db); simpl; [|reflexivity].
  now apply add_row_products.
Qed.

Lemma keeps_products_insert_returning t params :
  t <> Products -> keeps_products (insert_returning t params).
Proof.
  intros Ht db. unfold insert_returning.
  pose proof (nextval_products t db) as Hn.
  destruct (nextval t db) as [id db1]; simpl in Hn.
  destruct (adapts t params && constraints t (PInt id :: params) db1); simpl;
    [|exact Hn].
  now rewrite add_row_products.
Qed.

Lemma keeps_products_module_amounts t parent ma :
  t <> Products -> keeps_products (store_module_amounts t parent ma).
Proof.
  intros Ht. apply keeps_products_for_each. intros kv.
  now apply keeps_products_insert.
Qed.

(** What follows the product row in [insert_item] writes child tables
    only. *)
Lemma keeps_products_children it :
  keeps_products
    (for_each (fun c : classification =>
                 insert Classifications
                   [PStr (process_id it); cl_name c; cl_level c; cl_classId c;
                    cl_classification c]) (classifications it) ;;;
     for_each (store_exchange (PStr (process_id it))) (exchanges it) ;;;
     for_each (store_lcia (PStr (process_id it))) (lcia_results it) ;;;
     for_each (fun reviewers : list pyval =>
                 for_each (fun reviewer =>
                             insert Reviews [PStr (process_id it); reviewer; PNone; PNone])
                          reviewers) (reviews it) ;;;
     for_each (fun system : dict =>
                 insert Compliances
                   [PStr (process_id it); dget system "de"; dget system "en"; PNone])
              (compliances it) ;;;
     for_each (store_reference_flow (PStr (process_id it))) (reference_flow it)).
Proof.
  repeat first
    [ apply keeps_products_sbind; [|intros ?]
    | apply keeps_products_for_each; intros ?
    | apply keeps_products_insert; discriminate
    | apply keeps_products_insert_returning; discriminate
    | apply keeps_products_module_amounts; discriminate
    | apply keeps_products_lift
    | unfold store_exchange, store_lcia, store_reference_flow ].
Qed.

Lemma product_params_key it datastock_id params :
  product_params it datastock_id = Ok params ->
  column 0 params = PStr (process_id it).
Proof.
  unfold product_params.
  destruct (py_join _ _); simpl; [|discriminate]. now intros [= <-].
Qed.

(** A record that was not there is there afterwards, by one more row. *)
Lemma insert_item_products it datastock_id db db' :
  insert_item it datastock_id db = (Ok tt, db') ->
  exists params,
    column 0 params = PStr (process_id it) /\
    t_products db' = t_products db ++ [params].
Proof.
  unfold insert_item.
  unfold sbind at 1, lift.
  destruct (product_params it datastock_id) as [params|] eqn:Ep; [|discriminate].
  unfold sbind at 1, insert at 1.
  destruct (adapts Products params && constraints Products params db); [|discriminate].
  intros Hrest. exists params. split; [now apply product_params_key in Ep|].
  pose proof (keeps_products_children it (add_row Products params db)) as Hk.
  rewrite Hrest in Hk; simpl in Hk. rewrite Hk. now destruct db.
Qed.

End StoreFacts.

Lemma product_exists_count pid db :
  product_exists pid db = true <-> (1 <= product_count pid db)%nat.
Proof.
  unfold product_exists, has_key, product_count; simpl.
  induction (t_products db) as [|r l IH]; simpl.
  - split; [discriminate|lia].
  - destruct (sql_eq (column 0 r) (PStr pid)); simpl; [split; [lia|reflexivity]|exact IH].
Qed.

Lemma product_count_absent pid db :
  product_exists pid db = false -> product_count pid db = 0%nat.
Proof.
  intros H. destruct (product_count pid db) eqn:E; [reflexivity|].
  assert (product_exists pid db = true) by (apply product_exists_count; lia).
  congruence.
Qed.

(** The record [parse_json] returns does not depend on the list of
    unresolved terms it finds on entry. *)
Lemma translate_text_fst text tr nf1 nf2 :
  fst (translate_text text tr nf1) = fst (translate_text text tr nf2).
Proof.
  unfold translate_text. destruct (negb (truthy text)); [reflexivity|].
  destruct text; try reflexivity. now destruct (tr_lookup _ tr).
Qed.

Lemma project_classes_fst tr classes : forall st nf1 nf2,
  fst (project_classes classes tr st nf1) = fst (project_classes classes tr st nf2).
Proof.
  induction classes as [|c r IH]; intros st nf1 nf2; simpl; [reflexivity|].
  destruct (py_int (cl_level c)); [|reflexivity].
  pose proof (translate_text_fst (cl_classification c) tr nf1 nf2) as Ht.
  destruct (translate_text _ tr nf1) as [[v1|e1] n1],
           (translate_text _ tr nf2) as [[v2|e2] n2]; simpl in Ht;
    try discriminate; injection Ht as <-; [apply IH|reflexivity].
Qed.

Lemma category_loop_fst tr all todo : forall st nf1 nf2,
  fst (category_loop todo all tr st nf1) = fst (category_loop todo all tr st nf2).
Proof.
  induction todo as [|c r IH]; intros st nf1 nf2; simpl; [reflexivity|].
  destruct (is_oekobau c) as [[|]|]; [|apply IH|reflexivity].
  destruct (oekobau_classes all) as [classes|]; [|reflexivity].
  pose proof (project_classes_fst tr classes st nf1 nf2) as Hp.
  destruct (project_classes classes tr st nf1) as [[s1|e1] n1],
           (project_classes classes tr st nf2) as [[s2|e2] n2]; simpl in Hp;
    try discriminate; injection Hp as <-; [apply IH|reflexivity].
Qed.

Section Idempotence.
Context {rt : Runtime}.

Lemma parse_json_fst data tr nf1 nf2 :
  fst (parse_json data tr nf1) = fst (parse_json data tr nf2).
Proof.
  unfold parse_json. destruct (parse_fields data) as [it|]; [|reflexivity].
  pose proof (category_loop_fst tr (classifications it) (classifications it)
                no_categories nf1 nf2) as Hc.
  destruct (category_loop _ _ tr no_categories nf1) as [[s1|e1] n1],
           (category_loop _ _ tr no_categories nf2) as [[s2|e2] n2]; simpl in Hc;
    try discriminate; injection Hc as <-; reflexivity.
Qed.

Lemma store_items_skip it rest datastock_id db :
  product_exists (process_id it) db = true ->
  store_items (it :: rest) datastock_id db = store_items rest datastock_id db.
Proof. intros H; simpl; now rewrite H. Qed.

Lemma store_items_once it datastock_id db db' :
  store_items [it] datastock_id db = (Ok tt, db') ->
  product_exists (process_id it) db' = true
  /\ ((product_count (process_id it) db <= 1)%nat ->
      product_count (process_id it) db' = 1%nat).
Proof.
  simpl. destruct (product_exists (process_id it) db) eqn:Ex.
  - intros [= <-]. split; [exact Ex|].
    apply product_exists_count in Ex. lia.
  - unfold sbind. destruct (insert_item it datastock_id db) as [[[]|e] db1] eqn:Ei;
      [|discriminate].
    intros [= <-].
    apply insert_item_products in Ei as (params & Hkey & Hp).
    assert (Hc : product_count (process_id it) db1 = 1%nat).
    { unfold product_count. rewrite Hp, filter_app, length_app; simpl.
      rewrite Hkey; simpl. rewrite String.eqb_refl; simpl.
      fold (product_count (process_id it) db).
      now rewrite (product_count_absent _ _ Ex). }
    split; [|now intros _]. apply product_exists_count. lia.
Qed.

(** C1.  Import is insert-once.  A record whose [process_id] already has a
    Product row is skipped as a whole: the loop goes on to the next record
    with the database as it was, so storing it alone commits a database in
    which no row was added or changed.  Hence when a record was stored, storing
    it again is a no-op that returns normally, the table holds exactly one
    Product row with that key, and processing the same file a second time
    leaves the connection as the first import left it. *)
Theorem import_is_insert_once (it : item) (datastock_id : pyval) :
  (forall rest db,
      product_exists (process_id it) db = true ->
      store_items (it :: rest) datastock_id db = store_items rest datastock_id db)
  /\ (forall c,
         product_exists (process_id it) (working c) = true ->
         store_data_in_db [it] c datastock_id
         = (Ok tt, mk_connection (working c) (working c)))
  /\ (forall c c1,
         store_data_in_db [it] c datastock_id = (Ok tt, c1) ->
         store_data_in_db [it] c1 datastock_id = (Ok tt, c1)
         /\ ((product_count (process_id it) (working c) <= 1)%nat ->
             product_count (process_id it) (working c1) = 1%nat))
  /\ (forall data tr st,
         file_count (process_file (Ok data) tr datastock_id st) = file_count st + 1 ->
         conn (process_file (Ok data) tr datastock_id
                 (process_file (Ok data) tr datastock_id st))
         = conn (process_file (Ok data) tr datastock_id st)).
Proof.
  assert (Hskip : forall (i : item) c,
             product_exists (process_id i) (working c) = true ->
             store_data_in_db [i] c datastock_id
             = (Ok tt, mk_connection (working c) (working c))).
  { intros i c Hex. unfold store_data_in_db. rewrite store_items_skip by exact Hex.
    reflexivity. }
  assert (Htwice : forall (i : item) c c1,
             store_data_in_db [i] c datastock_id = (Ok tt, c1) ->
             store_data_in_db [i] c1 datastock_id = (Ok tt, c1)
             /\ ((product_count (process_id i) (working c) <= 1)%nat ->
                 product_count (process_id i) (working c1) = 1%nat)).
  { intros i c c1. unfold store_data_in_db at 1.
    destruct (store_items [i] datastock_id (working c)) as [[[]|e] db1] eqn:Es;
      [|discriminate].
    intros [= <-]. apply store_items_once in Es as [Hex Hcount].
    split; [|exact Hcount]. now rewrite Hskip. }
  split; [intros; now apply store_items_skip|]. split; [apply Hskip|].
  split; [apply Htwice|].
  intros data tr st Hcount.
  assert (Hfirst : exists item_data nf1 c1,
             store_data_in_db [item_data] (conn st) datastock_id = (Ok tt, c1)
             /\ (forall nf, fst (parse_json data tr nf) = Ok item_data)
             /\ process_file (Ok data) tr datastock_id st
                = mk_progress c1 nf1 (file_count st + 1)).
  { unfold process_file in *.
    pose proof (parse_json_fst data tr (not_found st)) as Hfst.
    destruct (parse_json data tr (not_found st)) as [[item_data|e] nf1];
      simpl in *; [|lia].
    destruct (store_data_in_db [item_data] (conn st) datastock_id)
      as [[[]|e] c1] eqn:Es; simpl in *; [|lia].
    exists item_data, nf1, c1. repeat split; auto. }
  destruct Hfirst as (item_data & nf1 & c1 & Es & Hp & ->).
  unfold process_file; simpl. specialize (Hp nf1).
  destruct (parse_json data tr nf1) as [[item2|e] nf2]; simpl in Hp;
    [|discriminate]. injection Hp as ->.
  destruct (Htwice _ _ _ Es) as [-> _]. reflexivity.
Qed.

End Idempotence.

(** The well-formed document, stored twice into a database that holds its
    datastock: the second call changes nothing, and one Product row has
    its key. *)
Lemma import_is_insert_once_witness :
  exists it c1,
    record_of well_formed_document = Some it
    /\ @store_data_in_db example_runtime [it] one_datastock (PInt 1) = (Ok tt, c1)
    /\ @store_data_in_db example_runtime [it] c1 (PInt 1) = (Ok tt, c1)
    /\ product_count (process_id it) (working c1) = 1%nat.
Proof.
  destruct (record_of well_formed_document) as [it|] eqn:Er;
    [|vm_compute in Er; discriminate Er].
  destruct (@store_data_in_db example_runtime [it] one_datastock (PInt 1))
    as [[[]|e] c1] eqn:Es.
  - exists it, c1. split; [reflexivity|]. split; [exact Es|].
    destruct (proj1 (proj2 (proj2 (@import_is_insert_once example_runtime it (PInt 1))))
                one_datastock c1 Es) as [H2 H1].
    split; [exact H2|]. apply H1.
    vm_compute. apply le_S, le_n.
  - exfalso. vm_compute in Er. injection Er as <-. vm_compute in Es. discriminate Es.
Defined.

(** ** Datastock resolution *)

(** C4, as stated, fails: on a fresh database the [SELECT] finds nothing;
    another session then commits a datastock with the same UUID (it gets
    the identifier 1); the [INSERT] of this session violates the unique
    constraint, and the function returns [None] instead of the identifier
    of the existing datastock. *)
Lemma duplicate_key_conflict_returns_none :
  datastock_row "1111-2222" (working fresh_connection) = None
  /\ datastock_row "1111-2222"
       (concurrent_create "Default" "1111-2222" (working fresh_connection))
     = Some [PInt 1; PStr "Default"; PStr "1111-2222"]
  /\ forall rt : Runtime,
       fst (get_or_create_datastock_among (concurrent_create "Default" "1111-2222")
              fresh_connection "Default" "1111-2222") = PNone.
Proof.
  split; [reflexivity|]. split; [reflexivity|].
  intros rt. unfold get_or_create_datastock_among, insert_returning; simpl.
  now rewrite andb_false_r.
Qed.

Section Datastock.
Context {rt : Runtime}.

Lemma insert_returning_conflict datastock_name datastock_uuid db :
  has_key DataStocks 2 (PStr datastock_uuid) db = true ->
  exists db', insert_returning DataStocks [PStr datastock_name; PStr datastock_uuid] db
              = (Raise DatabaseError, db')
              /\ db' = snd (nextval DataStocks db).
Proof.
  intros Hk. unfold insert_returning.
  destruct (nextval DataStocks db) as [id db1] eqn:En.
  assert (Hk1 : has_key DataStocks 2 (PStr datastock_uuid) db1 = true).
  { destruct db; simpl in En; injection En as <- <-; exact Hk. }
  unfold constraints. cbn [column nth]. rewrite Hk1; simpl.
  rewrite !andb_false_r. eauto.
Qed.

(** C4, amended.  For a UUID the [SELECT] finds, the function returns the
    identifier of the existing datastock and touches nothing.  Otherwise it
    inserts: when the [INSERT] is accepted the new identifier is returned
    and the row committed; when it raises, as it does on a duplicate-key
    conflict with a row another session committed meanwhile, the
    transaction is rolled back and the result is [None] (the existing row
    is not fetched again). *)
Theorem get_or_create_datastock_cases
    (others : database -> database) (c : connection)
    (datastock_name datastock_uuid : string) :
  (forall r,
      datastock_row datastock_uuid (working c) = Some r ->
      get_or_create_datastock_among others c datastock_name datastock_uuid
      = (column 0 r, c))
  /\ (datastock_row datastock_uuid (working c) = None ->
      forall id db,
        insert_returning DataStocks [PStr datastock_name; PStr datastock_uuid]
          (others (working c)) = (Ok id, db) ->
        get_or_create_datastock_among others c datastock_name datastock_uuid
        = (PInt id, mk_connection db db)
        /\ id = seq_datastock (others (working c)) + 1
        /\ t_datastocks db
           = t_datastocks (others (working c))
             ++ [[PInt id; PStr datastock_name; PStr datastock_uuid]])
  /\ (datastock_row datastock_uuid (working c) = None ->
      has_key DataStocks 2 (PStr datastock_uuid) (others (working c)) = true ->
      get_or_create_datastock_among others c datastock_name datastock_uuid
      = (PNone,
         rollback (mk_connection (others (committed c))
                     (snd (nextval DataStocks (others (working c))))))).
Proof.
  unfold datastock_row, get_or_create_datastock_among.
  split; [|split].
  - intros r ->. reflexivity.
  - intros -> id db Hi. cbv zeta; cbn [working committed].
    rewrite Hi. split; [reflexivity|].
    unfold insert_returning in Hi.
    destruct (others (working c)) as [ds pr cl ex em lc lm rv cp fp mp s1 s2 s3];
      simpl in *.
    destruct (_ && _); [|discriminate].
    injection Hi as <- <-. split; reflexivity.
  - intros -> Hk. cbv zeta; cbn [working committed].
    destruct (insert_returning_conflict datastock_name datastock_uuid _ Hk)
      as (db' & -> & ->).
    reflexivity.
Qed.

End Datastock.

(** The datastock of [one_datastock] is found again, with its identifier 1,
    and the connection is left alone. *)
Lemma get_or_create_datastock_cases_witness :
  @get_or_create_datastock example_runtime one_datastock "Default" "1111-2222"
  = (PInt 1, one_datastock).
Proof.
  apply (proj1 (@get_or_create_datastock_cases example_runtime (fun db => db)
                  one_datastock "Default" "1111-2222")
           [PInt 1; PStr "Default"; PStr "1111-2222"]).
  reflexivity.
Defined.


(** ** Reference flow *)

Lemma reference_flow_loop_entries id exs : forall rf,
  reference_flow_loop id exs = Ok rf ->
  Forall2 (fun ex e => reference_flow_entry_of ex = Ok e)
          (filter (is_reference id) exs) rf.
Proof.
  induction exs as [|ex r IH]; intros rf; simpl.
  - intros [= <-]. constructor.
  - unfold is_reference at 1.
    destruct (get ex "dataSetInternalID" PNone) as [v|]; simpl; [|discriminate].
    destruct (py_eq v id); [|apply IH].
    intros H. inv_bind H. injection H as <-. constructor; auto.
Qed.

Lemma reference_flow_loop_length id exs rf :
  reference_flow_loop id exs = Ok rf ->
  List.length rf = List.length (filter (is_reference id) exs).
Proof.
  intros H. apply reference_flow_loop_entries in H.
  symmetry. induction H; simpl; congruence.
Qed.

Lemma reference_flow_loop_no_match id exs :
  Forall (fun ex => is_dict ex = true) exs ->
  (forall ex, In ex exs -> is_reference id ex = false) ->
  reference_flow_loop id exs = Ok [].
Proof.
  induction 1 as [|ex r Hd Hr IH]; intros Hno; simpl; [reflexivity|].
  pose proof (Hno ex (or_introl eq_refl)) as He. unfold is_reference in He.
  destruct ex; try discriminate. simpl in *. rewrite He.
  apply IH. intros; apply Hno; now right.
Qed.

(** C3, as stated, fails: a document whose declared reference ID matches
    no exchange parses to a record with an empty reference-flow list, and
    one whose declared ID matches two exchanges parses to a record with two
    reference-flow entries; neither raises, in any process. *)
Lemma reference_flow_mismatch_does_not_raise :
  (forall rt : Runtime,
      exists it nf,
        parse_json document_no_reference_exchange [] [] = (Ok it, nf)
        /\ reference_flow it = [])
  /\ (forall rt : Runtime,
         exists it nf,
           parse_json document_two_reference_exchanges [] [] = (Ok it, nf)
           /\ List.length (reference_flow it) = 2%nat).
Proof.
  split; intros rt.
  - destruct (parse_json document_no_reference_exchange [] []) as [[it|e] nf] eqn:E;
      vm_compute in E; [|discriminate E].
    injection E as <- <-. eexists _, _. split; reflexivity.
  - destruct (parse_json document_two_reference_exchanges [] []) as [[it|e] nf] eqn:E;
      vm_compute in E; [|discriminate E].
    injection E as <- <-. eexists _, _. split; reflexivity.
Qed.

Section ReferenceFlow.
Context {rt : Runtime}.

(** C3, amended.  The reference-flow list holds one entry per exchange
    whose internal ID equals the declared one, in document order: it is
    empty when no exchange matches and has several entries when several
    match, and the parser raises on neither.  The parser raises when the
    declaration itself cannot be read. *)
Theorem reference_flow_entries (data : pyval) (tr : translations) (nf : list string) :
  (forall id exs rf,
      reference_flow_loop id exs = Ok rf ->
      Forall2 (fun ex e => reference_flow_entry_of ex = Ok e)
              (filter (is_reference id) exs) rf
      /\ List.length rf = List.length (filter (is_reference id) exs))
  /\ (forall id exs,
         Forall (fun ex => is_dict ex = true) exs ->
         (forall ex, In ex exs -> is_reference id ex = false) ->
         reference_flow_loop id exs = Ok [])
  /\ (forall it nf',
         parse_json data tr nf = (Ok it, nf') ->
         exists id exs,
           declared_reference data = Ok id
           /\ exchanges_of data = Ok exs
           /\ Forall2 (fun ex e => reference_flow_entry_of ex = Ok e)
                 (filter (is_reference id) exs) (reference_flow it))
  /\ (is_ok (declared_reference data) = false ->
      is_ok (fst (parse_json data tr nf)) = false).
Proof.
  assert (Hinv : forall it nf',
             parse_json data tr nf = (Ok it, nf') ->
             exists id exs,
               declared_reference data = Ok id /\ exchanges_of data = Ok exs
               /\ reference_flow_loop id exs = Ok (reference_flow it)).
  { intros it nf'. unfold parse_json.
    destruct (parse_fields data) as [it0|] eqn:Ef; [|discriminate].
    destruct (category_loop _ _ tr no_categories nf) as [[st|] nf1]; [|discriminate].
    intros [= <- _]. simpl.
    now apply parse_fields_inv in Ef as (_ & _ & _ & _ & _ & Hr). }
  split.
  { intros; split;
      [now apply reference_flow_loop_entries | now apply reference_flow_loop_length]. }
  split; [intros; now apply reference_flow_loop_no_match|].
  split.
  - intros it nf' Hp. destruct (Hinv it nf' Hp) as (id & exs & Hd & He & Hl).
    exists id, exs. repeat split; auto. now apply reference_flow_loop_entries.
  - intros Hd. destruct (parse_json data tr nf) as [[it|e] nf'] eqn:Hp; [|reflexivity].
    destruct (Hinv it nf' eq_refl) as (id & exs & Hd' & _).
    rewrite Hd' in Hd. discriminate.
Qed.

End ReferenceFlow.

(** The document without a reference-flow declaration does not parse. *)
Lemma reference_flow_entries_witness :
  is_ok (fst (@parse_json example_runtime document_without_declaration [] [])) = false.
Proof.
  apply (proj2 (proj2 (proj2 (@reference_flow_entries example_runtime
                                document_without_declaration [] [])))).
  reflexivity.
Defined.

(** ** Missing anchors *)

(** C2, as stated, fails: the document without its UUID field parses, in
    any process, to a record whose UUID is the empty string; and the folder
    of the scenario, holding the well-formed document and that one, imports
    two Products and counts two files. *)
Lemma missing_uuid_is_imported :
  declared_uuid document_without_uuid = None
  /\ (forall rt : Runtime,
         exists it nf,
           parse_json document_without_uuid [] [] = (Ok it, nf)
           /\ uuid it = PStr "" /\ process_id it = "_00.01.000")
  /\ file_count (run_folder [("good.json", Ok well_formed_document);
                             ("no_uuid.json", Ok document_without_uuid)]) = 2
  /\ map (column 0)
       (t_products (committed (conn
          (run_folder [("good.json", Ok well_formed_document);
                       ("no_uuid.json", Ok document_without_uuid)]))))
     = [PStr "aaaa-0001_00.01.000"; PStr "_00.01.000"].
Proof.
  split; [reflexivity|]. split; [|split; vm_compute; reflexivity].
  intros rt.
  destruct (parse_json document_without_uuid [] []) as [[it|e] nf] eqn:E;
    vm_compute in E; [|discriminate E].
  injection E as <- <-. eexists _, _. repeat split; reflexivity.
Qed.

Section MissingAnchors.
Context {rt : Runtime}.

Lemma parse_json_fields data tr nf it nf' :
  parse_json data tr nf = (Ok it, nf') ->
  exists it0, parse_fields data = Ok it0
              /\ uuid it = uuid it0 /\ version it = version it0
              /\ process_id it = process_id it0.
Proof.
  unfold parse_json. destruct (parse_fields data) as [it0|]; [|discriminate].
  destruct (category_loop _ _ tr no_categories nf) as [[st|] nf1]; [|discriminate].
  intros [= <- _]. exists it0. auto.
Qed.

Lemma parse_json_raises data tr nf :
  is_ok (parse_fields data) = false -> is_ok (fst (parse_json data tr nf)) = false.
Proof.
  unfold parse_json. destruct (parse_fields data); [discriminate|reflexivity].
Qed.

Lemma declared_uuid_read data pi dsi u :
  getitem data "processInformation" = Ok pi ->
  getitem pi "dataSetInformation" = Ok dsi ->
  (pi <- get data "processInformation" empty_dict ;;
   dsi <- get pi "dataSetInformation" empty_dict ;;
   get dsi "UUID" (PStr "")) = Ok u ->
  u = or_empty (declared_uuid data).
Proof.
  unfold declared_uuid, or_empty.
  destruct data as [| | | | | |d]; simpl; try discriminate.
  destruct (dict_lookup (PStr "processInformation") d) as [p|]; [|discriminate].
  intros [= ->]. destruct pi as [| | | | | |q]; simpl; try discriminate.
  destruct (dict_lookup (PStr "dataSetInformation") q) as [p|]; [|discriminate].
  intros [= ->]. destruct dsi as [| | | | | |x]; simpl; try discriminate.
  now intros [= <-].
Qed.

Lemma declared_version_read data v :
  (ai <- get data "administrativeInformation" empty_dict ;;
   get2 ai "publicationAndOwnership" "dataSetVersion" (PStr "")) = Ok v ->
  is_dict data = true ->
  v = or_empty (declared_version data).
Proof.
  unfold declared_version, or_empty, get2.
  destruct data as [| | | | | |d]; simpl; try discriminate.
  destruct (dict_lookup (PStr "administrativeInformation") d) as [ai|]; simpl.
  - destruct ai as [| | | | | |a]; simpl; try discriminate.
    destruct (dict_lookup (PStr "publicationAndOwnership") a) as [po|]; simpl.
    + destruct po as [| | | | | |p]; simpl; try discriminate. now intros [= <-].
    + now intros [= <-].
  - now intros [= <-].
Qed.

End MissingAnchors.

Section StructuralErrors.
Context {rt : Runtime}.

(** C2, amended.  An absent UUID or version does not make the parser
    raise: each defaults to the empty string and [process_id] is
    [{uuid}_{version}], so the document is stored like any other.  The
    parser raises when [processInformation], its [dataSetInformation],
    [modellingAndValidation] or the reference-flow declaration cannot be
    read; a file whose parse raises is skipped: nothing is stored for it,
    it is not counted, and the run goes on. *)
Theorem structural_anchors (data : pyval) (tr : translations) (nf : list string) :
  (forall it nf',
      parse_json data tr nf = (Ok it, nf') ->
      uuid it = or_empty (declared_uuid data)
      /\ version it = or_empty (declared_version data)
      /\ process_id it = (py_str (uuid it) ++ "_" ++ py_str (version it))%string)
  /\ (is_ok (getitem data "processInformation") = false ->
      is_ok (fst (parse_json data tr nf)) = false)
  /\ (is_ok (pi <- getitem data "processInformation" ;;
             getitem pi "dataSetInformation") = false ->
      is_ok (fst (parse_json data tr nf)) = false)
  /\ (is_ok (getitem data "modellingAndValidation") = false ->
      is_ok (fst (parse_json data tr nf)) = false)
  /\ (is_ok (declared_reference data) = false ->
      is_ok (fst (parse_json data tr nf)) = false)
  /\ (forall datastock_id st,
         is_ok (fst (parse_json data tr nf)) = false ->
         conn (process_file (Ok data) tr datastock_id st) = conn st
         /\ file_count (process_file (Ok data) tr datastock_id st) = file_count st).
Proof.
  assert (Hraise : forall P : Prop,
             (forall it, parse_fields data = Ok it -> P) ->
             ~ P -> is_ok (fst (parse_json data tr nf)) = false).
  { intros P Hinv HnP. apply parse_json_raises.
    destruct (parse_fields data) as [it|] eqn:E; [|reflexivity].
    exfalso. apply HnP, (Hinv it eq_refl). }
  split; [|split; [|split; [|split; [|split]]]].
  - intros it nf' Hp.
    apply parse_json_fields in Hp as (it0 & Hf & -> & -> & ->).
    apply parse_fields_inv in Hf
      as ((pi & dsi & mv & Hpi & Hdsi & _) & Hu & Hv & Hid & _).
    split; [exact (declared_uuid_read _ _ _ _ Hpi Hdsi Hu)|].
    split; [|exact Hid].
    apply (declared_version_read _ _ Hv). now destruct data.
  - intros Hno. apply (Hraise (is_ok (getitem data "processInformation") = true)).
    + intros it Hf.
      apply parse_fields_inv in Hf as ((pi & dsi & mv & -> & _) & _). reflexivity.
    + congruence.
  - intros Hno.
    apply (Hraise (is_ok (pi <- getitem data "processInformation" ;;
                          getitem pi "dataSetInformation") = true)).
    + intros it Hf.
      apply parse_fields_inv in Hf as ((pi & dsi & mv & -> & Hd & _) & _).
      cbn [bind]. now rewrite Hd.
    + congruence.
  - intros Hno. apply (Hraise (is_ok (getitem data "modellingAndValidation") = true)).
    + intros it Hf.
      apply parse_fields_inv in Hf as ((pi & dsi & mv & _ & _ & ->) & _). reflexivity.
    + congruence.
  - intros Hno. apply (Hraise (is_ok (declared_reference data) = true)).
    + intros it Hf.
      apply parse_fields_inv in Hf as (_ & _ & _ & _ & _ & id & exs & -> & _).
      reflexivity.
    + congruence.
  - intros datastock_id st Hno. unfold process_file.
    pose proof (parse_json_fst data tr nf (not_found st)) as Hfst.
    destruct (parse_json data tr (not_found st)) as [[it|e] nf1]; simpl in *.
    + rewrite Hfst in Hno. discriminate.
    + split; reflexivity.
Qed.

End StructuralErrors.

(** The scenario with a document that lacks its reference-flow declaration
    instead: after the well-formed document is imported, the second file
    changes neither the database nor the count, so the folder yields one
    Product and reports one file of two. *)
Lemma structural_anchors_witness :
  conn (@process_file example_runtime (Ok document_without_declaration) [] (PInt 1)
          (run_folder [("good.json", Ok well_formed_document)]))
  = conn (run_folder [("good.json", Ok well_formed_document)])
  /\ file_count (@process_file example_runtime (Ok document_without_declaration) []
                   (PInt 1) (run_folder [("good.json", Ok well_formed_document)]))
     = file_count (run_folder [("good.json", Ok well_formed_document)]).
Proof.
  apply (proj2 (proj2 (proj2 (proj2 (proj2
           (@structural_anchors example_runtime document_without_declaration [] [])))))).
  apply (proj1 (proj2 (proj2 (proj2 (proj2
           (@structural_anchors example_runtime document_without_declaration [] [])))))).
  reflexivity.
Defined.

(** The same scenario run as a folder: one Product, one file counted. *)
Example missing_declaration_scenario :
  file_count (run_folder [("good.json", Ok well_formed_document);
                          ("no_declaration.json", Ok document_without_declaration)]) = 1
  /\ map (column 0)
       (t_products (committed (conn
          (run_folder [("good.json", Ok well_formed_document);
                       ("no_declaration.json", Ok document_without_declaration)]))))
     = [PStr "aaaa-0001_00.01.000"].
Proof. split; vm_compute; reflexivity. Qed.

(* ================================================================== *)
(** * Further properties of the script *)

(** ** The translation dictionary *)

Lemma tr_lookup_set k k' v t :
  tr_lookup k (tr_set k' v t) = if String.eqb k' k then Some v else tr_lookup k t.
Proof.
  induction t as [|[a b] r IH]; simpl.
  - reflexivity.
  - destruct (String.eqb a k') eqn:Eak; simpl.
    + apply String.eqb_eq in Eak; subst a. now destruct (String.eqb k' k).
    + destruct (String.eqb a k) eqn:Ea; [|exact IH].
      apply String.eqb_eq in Ea; subst a. now rewrite String.eqb_sym, Eak.
Qed.

Lemma load_rows_lookup k rows : forall t,
  tr_lookup k (load_rows rows t)
  = match last_row_for k rows with
    | Some e => Some e
    | None => tr_lookup k t
    end.
Proof.
  induction rows as [|row r IH]; intros t; simpl; [reflexivity|].
  unfold row_entry.
  destruct row as [|g [|e rest]]; try (rewrite IH; now destruct (last_row_for k r)).
  destruct (negb (String.eqb (strip g) "") && negb (String.eqb (strip e) ""));
    rewrite IH; destruct (last_row_for k r); try reflexivity.
  rewrite tr_lookup_set. now destruct (String.eqb (lower (strip g)) k).
Qed.

Lemma is_space_lower_char c : is_space (lower_char c) = is_space c.
Proof. destruct c as [[] [] [] [] [] [] [] []]; reflexivity. Qed.

Lemma lstrip_lower s : lstrip_by is_space (lower s) = lower (lstrip_by is_space s).
Proof.
  induction s as [|c r IH]; simpl; [reflexivity|].
  rewrite is_space_lower_char. now destruct (is_space c).
Qed.

Lemma rstrip_lower s : rstrip_by is_space (lower s) = lower (rstrip_by is_space s).
Proof.
  induction s as [|c r IH]; simpl; [reflexivity|].
  rewrite IH, is_space_lower_char.
  destruct (rstrip_by is_space r); simpl; [now destruct (is_space c)|reflexivity].
Qed.

Lemma strip_lower s : strip (lower s) = lower (strip s).
Proof. unfold strip. now rewrite lstrip_lower, rstrip_lower. Qed.

Lemma remove_char_no_comma s : has_comma s = false -> remove_char "," s = s.
Proof.
  induction s as [|c r IH]; simpl; [reflexivity|].
  destruct (Ascii.eqb c ","); simpl; [discriminate|]. intros H. now rewrite IH.
Qed.

Lemma has_comma_remove s : has_comma (remove_char "," s) = false.
Proof.
  induction s as [|c r IH]; simpl; [reflexivity|].
  destruct (Ascii.eqb c ",") eqn:E; simpl; [exact IH|]. now rewrite E.
Qed.

Lemma lower_char_comma c : Ascii.eqb (lower_char c) "," = Ascii.eqb c ",".
Proof. destruct c as [[] [] [] [] [] [] [] []]; reflexivity. Qed.

Lemma has_comma_lower s : has_comma (lower s) = has_comma s.
Proof.
  induction s as [|c r IH]; simpl; [reflexivity|]. now rewrite lower_char_comma, IH.
Qed.

Lemma has_comma_lstrip p s : has_comma s = false -> has_comma (lstrip_by p s) = false.
Proof.
  induction s as [|c r IH]; simpl; [reflexivity|].
  intros H. destruct (p c); [|exact H].
  apply IH. now apply orb_false_iff in H.
Qed.

Lemma has_comma_rstrip p s : has_comma s = false -> has_comma (rstrip_by p s) = false.
Proof.
  induction s as [|c r IH]; simpl; [reflexivity|].
  intros H. apply orb_false_iff in H as [Hc Hr]. specialize (IH Hr).
  destruct (rstrip_by p r); simpl in *.
  - destruct (p c); simpl; [reflexivity|]. now rewrite Hc.
  - now rewrite Hc, IH.
Qed.

Lemma has_comma_normalized s : has_comma (normalized s) = false.
Proof.
  unfold normalized, strip.
  apply has_comma_rstrip, has_comma_lstrip.
  rewrite has_comma_lower. apply has_comma_remove.
Qed.

Lemma normalized_no_comma s : has_comma s = false -> normalized s = lower (strip s).
Proof.
  intros H. unfold normalized. now rewrite (remove_char_no_comma s H), strip_lower.
Qed.

Lemma last_row_for_last k rows1 row rows2 e :
  row_entry row = Some (k, e) ->
  (forall row' e', In row' rows2 -> row_entry row' <> Some (k, e')) ->
  last_row_for k (rows1 ++ row :: rows2) = Some e.
Proof.
  intros Hrow Hno.
  assert (Hnone : last_row_for k rows2 = None).
  { induction rows2 as [|r2 t IH]; simpl; [reflexivity|].
    rewrite IH by (intros; apply (Hno row'); now right).
    destruct (row_entry r2) as [[k' e']|] eqn:E; [|reflexivity].
    destruct (String.eqb_spec k' k); [|reflexivity].
    subst k'. exfalso. apply (Hno r2 e'); [now left|exact E]. }
  induction rows1 as [|r1 t IH]; simpl.
  - now rewrite Hnone, Hrow, String.eqb_refl.
  - now rewrite IH.
Qed.

(** Loading the dictionary and looking a term up: a non-empty text is
    translated to the English field of the last CSV row whose German field,
    stripped and lower-cased, is the normalized text, the unresolved-terms
    list being left alone; when no row has that key the text comes back
    unchanged and is appended to the list unless it is there.  In
    particular the German field of a row translates to the stripped English
    field of that row, whatever its case and surrounding blanks, when it
    holds no comma and no later row repeats its key. *)
Theorem load_then_translate (rows : list (list string)) (s : string) (nf : list string) :
  s <> "" ->
  translate_text (PStr s) (load_translations (Some rows)) nf
  = match last_row_for (normalized s) rows with
    | Some english => (Ok (PStr english), nf)
    | None => (Ok (PStr s), if existsb (String.eqb s) nf then nf else nf ++ [s])
    end
  /\ (forall rows1 g e rest rows2,
         rows = rows1 ++ (g :: e :: rest) :: rows2 ->
         strip g <> "" -> strip e <> "" ->
         has_comma s = false -> lower (strip s) = lower (strip g) ->
         (forall row' e', In row' rows2 ->
                          row_entry row' <> Some (lower (strip g), e')) ->
         translate_text (PStr s) (load_translations (Some rows)) nf
         = (Ok (PStr (strip e)), nf)).
Proof.
  intros Hs.
  assert (Hmain : translate_text (PStr s) (load_translations (Some rows)) nf
                  = match last_row_for (normalized s) rows with
                    | Some english => (Ok (PStr english), nf)
                    | None => (Ok (PStr s),
                               if existsb (String.eqb s) nf then nf else nf ++ [s])
                    end).
  { unfold translate_text, load_translations; simpl.
    destruct (String.eqb_spec s ""); [contradiction|]. simpl.
    fold (normalized s). rewrite load_rows_lookup; simpl.
    now destruct (last_row_for (normalized s) rows). }
  split; [exact Hmain|].
  intros rows1 g e rest rows2 -> Hg He Hc Hk Hno. rewrite Hmain.
  rewrite (normalized_no_comma s Hc), Hk.
  rewrite (last_row_for_last _ rows1 (g :: e :: rest) rows2 (strip e)); auto.
  unfold row_entry.
  destruct (String.eqb_spec (strip g) ""); [contradiction|].
  destruct (String.eqb_spec (strip e) ""); [contradiction|]. reflexivity.
Qed.

(** A dictionary of two rows: "BETON " is found under the row of
    " Beton". *)
Lemma load_then_translate_witness :
  translate_text (PStr "BETON ")
    (load_translations (Some [["Holz"; "Wood"]; [" Beton"; "Concrete "; "x"]])) []
  = (Ok (PStr "Concrete"), []).
Proof.
  apply (proj2 (load_then_translate [["Holz"; "Wood"]; [" Beton"; "Concrete "; "x"]]
                  "BETON " [] ltac:(discriminate))
           [["Holz"; "Wood"]] " Beton" "Concrete " ["x"] []);
    try reflexivity; try discriminate.
  intros row' e' [].
Defined.

Lemma space_is_no_comma c : is_space c = true -> Ascii.eqb c "," = false.
Proof. destruct c as [[] [] [] [] [] [] [] []]; (reflexivity || discriminate). Qed.

Lemma has_comma_strip s : has_comma (strip s) = has_comma s.
Proof.
  unfold strip.
  assert (Hl : forall t, has_comma (lstrip_by is_space t) = has_comma t).
  { induction t as [|c r IH]; simpl; [reflexivity|].
    destruct (is_space c) eqn:E; [|reflexivity].
    now rewrite IH, (space_is_no_comma c E). }
  assert (Hr : forall t, has_comma (rstrip_by is_space t) = has_comma t).
  { induction t as [|c r IH]; simpl; [reflexivity|].
    destruct (rstrip_by is_space r) eqn:Er; simpl in *.
    - rewrite <- IH. destruct (is_space c) eqn:E; simpl.
      + now rewrite (space_is_no_comma c E).
      + now rewrite orb_false_r.
    - now rewrite IH. }
  now rewrite Hr, Hl.
Qed.

(** The lookup removes the commas of the text but [load_translations]
    keeps those of the German field, so a dictionary entry whose key holds
    a comma is dead: no text is ever found under it, and removing every
    such entry changes no translation.  So a German term with a comma is
    not translated by the row that lists it. *)
Theorem comma_keys_are_dead (tr : translations) (text : pyval) (nf : list string) :
  (forall k e s, In (k, e) tr -> has_comma k = true -> normalized s <> k)
  /\ fst (translate_text text tr nf)
     = fst (translate_text text
              (filter (fun kv => negb (has_comma (fst kv))) tr) nf)
  /\ (forall s english,
         has_comma s = true ->
         fst (translate_text (PStr s) (load_translations (Some [[s; english]])) nf)
         = Ok (PStr s)).
Proof.
  assert (Hdead : forall k s, has_comma k = true -> normalized s <> k).
  { intros k s Hk E. rewrite <- E, has_comma_normalized in Hk. discriminate. }
  assert (Hfilter : forall k, has_comma k = false ->
             tr_lookup k (filter (fun kv => negb (has_comma (fst kv))) tr)
             = tr_lookup k tr).
  { intros k Hk. induction tr as [|[a b] r IH]; simpl; [reflexivity|].
    destruct (has_comma a) eqn:Ea; simpl.
    - rewrite IH. destruct (String.eqb_spec a k); [|reflexivity]. congruence.
    - now rewrite IH. }
  split; [intros k e s _ Hk; now apply Hdead|]. split.
  - unfold translate_text. destruct (negb (truthy text)); [reflexivity|].
    destruct text; try reflexivity.
    rewrite Hfilter by apply has_comma_normalized.
    now destruct (tr_lookup _ tr).
  - intros s english Hs. unfold translate_text.
    destruct (negb (truthy (PStr s))); [reflexivity|].
    fold (normalized s). simpl.
    destruct (negb (String.eqb (strip s) "") && negb (String.eqb (strip english) ""));
      [|reflexivity].
    simpl. destruct (String.eqb_spec (lower (strip s)) (normalized s)); [|reflexivity].
    exfalso. apply (Hdead (lower (strip s)) s); [|now symmetry].
    now rewrite has_comma_lower, has_comma_strip.
Qed.

(** The row "Holz, massiv" does not translate the text "Holz, massiv". *)
Lemma comma_keys_are_dead_witness :
  fst (translate_text (PStr "Holz, massiv")
         (load_translations (Some [["Holz, massiv"; "Solid wood"]])) [])
  = Ok (PStr "Holz, massiv").
Proof.
  apply (proj2 (proj2 (comma_keys_are_dead [] PNone []))). reflexivity.
Defined.

(** ** The list of unresolved terms *)

Lemma records_refl tr nf : records_untranslated tr nf nf.
Proof.
  exists []. rewrite app_nil_r. split; [reflexivity|].
  split; [constructor|intros ? []].
Qed.

Lemma records_trans tr nf nf1 nf2 :
  records_untranslated tr nf nf1 -> records_untranslated tr nf1 nf2 ->
  records_untranslated tr nf nf2.
Proof.
  intros (e1 & -> & Hn1 & H1) (e2 & -> & Hn2 & H2).
  exists (e1 ++ e2). rewrite app_assoc. split; [reflexivity|]. split.
  - apply NoDup_app; try assumption. 
    intros s Hs1 Hs2. destruct (H2 s Hs2) as (_ & _ & Hnot).
    apply Hnot, in_or_app. now right.
  - intros s Hs. apply in_app_or in Hs as [Hs|Hs].
    + now apply H1.
    + destruct (H2 s Hs) as (Hne & Hl & Hnot). repeat split; auto.
      intros Hin. apply Hnot, in_or_app. now left.
Qed.

Lemma existsb_eqb_In s nf : existsb (String.eqb s) nf = true <-> In s nf.
Proof.
  rewrite existsb_exists. split.
  - intros (x & Hx & E). apply String.eqb_eq in E. now subst.
  - intros H. exists s. split; [exact H|apply String.eqb_refl].
Qed.

Lemma translate_text_records text tr nf :
  records_untranslated tr nf (snd (translate_text text tr nf)).
Proof.
  unfold translate_text. destruct (truthy text) eqn:Ht; simpl; [|apply records_refl].
  destruct text as [| | | |s| |]; try apply records_refl.
  fold (normalized s). destruct (tr_lookup (normalized s) tr) eqn:El; simpl;
    [apply records_refl|].
  destruct (existsb (String.eqb s) nf) eqn:Ex; [apply records_refl|].
  exists [s]. split; [reflexivity|]. split; [repeat constructor; intros []|].
  intros s' [<-|[]]. repeat split; auto.
  - intros ->. discriminate.
  - intros Hin. apply existsb_eqb_In in Hin. congruence.
Qed.

Lemma translate_text_recorded s tr nf :
  s <> "" -> tr_lookup (normalized s) tr = None ->
  In s (snd (translate_text (PStr s) tr nf)).
Proof.
  intros Hs Hl. unfold translate_text; simpl.
  destruct (String.eqb_spec s ""); [contradiction|]. simpl.
  fold (normalized s). rewrite Hl; simpl.
  destruct (existsb (String.eqb s) nf) eqn:Ex.
  - now apply existsb_eqb_In.
  - apply in_or_app. right. now left.
Qed.

Lemma records_In tr nf nf' s :
  records_untranslated tr nf nf' -> In s nf -> In s nf'.
Proof. intros (e & -> & _) H. apply in_or_app. now left. Qed.

Lemma project_classes_records tr classes : forall st nf,
  records_untranslated tr nf (snd (project_classes classes tr st nf)).
Proof.
  induction classes as [|c r IH]; intros st nf; simpl; [apply records_refl|].
  destruct (py_int (cl_level c)); [|apply records_refl].
  pose proof (translate_text_records (cl_classification c) tr nf) as Ht.
  destruct (translate_text (cl_classification c) tr nf) as [[v|e] nf1]; simpl in Ht.
  - eapply records_trans; [exact Ht|apply IH].
  - exact Ht.
Qed.

Lemma category_loop_records tr all todo : forall st nf,
  records_untranslated tr nf (snd (category_loop todo all tr st nf)).
Proof.
  induction todo as [|c r IH]; intros st nf; simpl; [apply records_refl|].
  destruct (is_oekobau c) as [[|]|]; [|apply IH|apply records_refl].
  destruct (oekobau_classes all) as [classes|]; [|apply records_refl].
  pose proof (project_classes_records tr classes st nf) as Hp.
  destruct (project_classes classes tr st nf) as [[st1|e] nf1]; simpl in Hp.
  - eapply records_trans; [exact Hp|apply IH].
  - exact Hp.
Qed.

Lemma project_classes_complete tr classes : forall st nf st' nf' c s,
  project_classes classes tr st nf = (Ok st', nf') ->
  In c classes -> cl_classification c = PStr s -> s <> "" ->
  tr_lookup (normalized s) tr = None ->
  In s nf'.
Proof.
  induction classes as [|c0 r IH]; intros st nf st' nf' c s; simpl; [now intros|].
  destruct (py_int (cl_level c0)) as [z|]; [|discriminate].
  destruct (translate_text (cl_classification c0) tr nf) as [[v|e] nf1] eqn:Et;
    [|discriminate].
  intros Hr [<-|Hin] Hc Hs Hl.
  - pose proof (project_classes_records tr r (assign_level z v st) nf1) as Hrec.
    rewrite Hr in Hrec; simpl in Hrec.
    apply (records_In _ _ _ _ Hrec).
    pose proof (translate_text_recorded s tr nf Hs Hl) as Hin.
    now rewrite <- Hc, Et in Hin.
  - eapply IH; eauto.
Qed.

Lemma category_loop_complete tr all todo : forall st nf st' nf' c0 c s,
  category_loop todo all tr st nf = (Ok st', nf') ->
  In c0 todo -> oekobau c0 = true ->
  In c all -> oekobau c = true ->
  cl_classification c = PStr s -> s <> "" ->
  tr_lookup (normalized s) tr = None ->
  In s nf'.
Proof.
  induction todo as [|c1 r IH]; intros st nf st' nf' c0 c s; simpl; [now intros|].
  destruct (is_oekobau c1) as [b|] eqn:Eb; [|discriminate].
  apply is_oekobau_spec in Eb as [_ ->].
  destruct (oekobau c1) eqn:Eo1.
  - destruct (oekobau_classes all) as [classes|] eqn:Ec; [|discriminate].
    apply oekobau_classes_spec in Ec; subst classes.
    destruct (project_classes (filter oekobau all) tr st nf) as [[st1|] nf1] eqn:Ep;
      [|discriminate].
    intros Hr _ _ Hin Ho Hc Hs Hl.
    pose proof (category_loop_records tr all r st1 nf1) as Hrec.
    rewrite Hr in Hrec; simpl in Hrec.
    apply (records_In _ _ _ _ Hrec).
    eapply project_classes_complete; eauto.
    apply filter_In. now split.
  - intros Hr [<-|Hin0] Ho0; [congruence|]. eapply IH; eauto.
Qed.

Section NotFound.
Context {rt : Runtime}.

(** The unresolved-terms list across [parse_json]: whatever the outcome,
    the list on exit is the list on entry followed by new terms, each
    once, each a non-empty text without translation that was not on the
    list (so a duplicate-free list stays duplicate-free); and when a record
    is returned, every untranslatable non-empty category text of the
    system "oekobau.dat" is on the list. *)
Theorem unresolved_terms_are_recorded (data : pyval) (tr : translations)
    (nf : list string) :
  records_untranslated tr nf (snd (parse_json data tr nf))
  /\ (NoDup nf -> NoDup (snd (parse_json data tr nf)))
  /\ (forall it nf' c s,
         parse_json data tr nf = (Ok it, nf') ->
         In c (classifications it) -> oekobau c = true ->
         cl_classification c = PStr s -> s <> "" ->
         tr_lookup (normalized s) tr = None ->
         In s nf').
Proof.
  assert (Hrec : records_untranslated tr nf (snd (parse_json data tr nf))).
  { unfold parse_json. destruct (parse_fields data) as [it|]; [|apply records_refl].
    pose proof (category_loop_records tr (classifications it) (classifications it)
                  no_categories nf) as Hc.
    now destruct (category_loop _ _ tr no_categories nf) as [[st|e] nf1]. }
  split; [exact Hrec|]. split.
  - intros Hn. destruct Hrec as (extra & -> & Hne & Hx).
    apply NoDup_app; auto. intros s Hs He. now apply (Hx s He).
  - intros it nf' c s. unfold parse_json.
    destruct (parse_fields data) as [it0|]; [|discriminate].
    destruct (category_loop _ _ tr no_categories nf) as [[st|] nf1] eqn:Hl;
      [|discriminate].
    intros [= <- <-]; simpl. intros Hin Ho Hc Hs Hlk.
    eapply category_loop_complete; eauto.
Qed.

End NotFound.

(** The well-formed document, parsed with an empty dictionary and "Beton"
    already on the list: "Mineralische Baustoffe" is added, "Beton" is not
    added again. *)
Lemma unresolved_terms_are_recorded_witness :
  NoDup (snd (@parse_json example_runtime well_formed_document [] ["Beton"]))
  /\ snd (@parse_json example_runtime well_formed_document [] ["Beton"])
     = ["Beton"; "Mineralische Baustoffe"].
Proof.
  split; [|vm_compute; reflexivity].
  apply (proj1 (proj2 (@unresolved_terms_are_recorded example_runtime
                         well_formed_document [] ["Beton"]))).
  repeat constructor; intros [].
Defined.

(** ** When the category projection raises *)

Lemma translate_text_ok text tr nf v nf' :
  translate_text text tr nf = (Ok v, nf') ->
  truthy text = true -> exists s, text = PStr s.
Proof.
  unfold translate_text. intros H Ht. rewrite Ht in H; simpl in H.
  destruct text; try discriminate. eauto.
Qed.

Lemma project_classes_ok tr classes : forall st nf st' nf',
  project_classes classes tr st nf = (Ok st', nf') ->
  Forall (fun c => is_ok (py_int (cl_level c)) = true
                   /\ (truthy (cl_classification c) = true ->
                       exists s, cl_classification c = PStr s)) classes.
Proof.
  induction classes as [|c r IH]; intros st nf st' nf'; simpl; [constructor|].
  destruct (py_int (cl_level c)) as [z|] eqn:Ez; [|discriminate].
  destruct (translate_text (cl_classification c) tr nf) as [[v|e] nf1] eqn:Et;
    [|discriminate].
  intros Hr. constructor; [|eapply IH; eauto].
  split; [now rewrite Ez|]. eapply translate_text_ok; eauto.
Qed.

Lemma category_loop_ok tr all todo : forall st nf st' nf',
  category_loop todo all tr st nf = (Ok st', nf') ->
  Forall (fun c => exists n, cl_name c = PStr n) todo
  /\ ((exists c, In c todo /\ oekobau c = true) ->
      Forall (fun c => is_ok (py_int (cl_level c)) = true
                       /\ (truthy (cl_classification c) = true ->
                           exists s, cl_classification c = PStr s))
             (filter oekobau all)).
Proof.
  induction todo as [|c r IH]; intros st nf st' nf'; simpl.
  - intros _. split; [constructor|]. intros (c & [] & _).
  - destruct (is_oekobau c) as [b|] eqn:Eb; [|discriminate].
    apply is_oekobau_spec in Eb as [Hn ->].
    destruct (oekobau c) eqn:Eo.
    + destruct (oekobau_classes all) as [classes|] eqn:Ec; [|discriminate].
      apply oekobau_classes_spec in Ec; subst classes.
      destruct (project_classes (filter oekobau all) tr st nf) as [[st1|] nf1] eqn:Ep;
        [|discriminate].
      intros Hr. destruct (IH _ _ _ _ Hr) as [Hnames _].
      split; [now constructor|]. intros _. eapply project_classes_ok; eauto.
    + intros Hr. destruct (IH _ _ _ _ Hr) as [Hnames Hcls].
      split; [now constructor|].
      intros (c' & [<-|Hin] & Ho); [congruence|]. apply Hcls. eauto.
Qed.

Section ProjectionErrors.
Context {rt : Runtime}.

(** The category projection returns exactly on projectable entries: it
    raises as soon as one classification system has no string name, or one
    entry of "oekobau.dat" has a level [int] rejects or a non-empty value
    that is not a string.  So does [parse_json]: in particular an entry of
    "oekobau.dat" without a [level] key (its level defaults to the empty
    string) makes the whole document fail. *)
Theorem projection_raises_on_unprojectable (data : pyval) (tr : translations)
    (nf : list string) :
  (forall cs,
      is_ok (fst (category_loop cs cs tr no_categories nf)) = true
      <-> Forall projectable cs)
  /\ (forall it nf',
         parse_json data tr nf = (Ok it, nf') -> Forall projectable (classifications it))
  /\ (forall cs c,
         classification_entries data = Ok cs ->
         In c cs -> oekobau c = true -> cl_level c = PStr "" ->
         is_ok (fst (parse_json data tr nf)) = false).
Proof.
  assert (Hok : forall cs st nf1,
             category_loop cs cs tr no_categories nf = (Ok st, nf1) ->
             Forall projectable cs).
  { intros cs st nf1 Hl. destruct (category_loop_ok _ _ _ _ _ _ _ Hl) as [Hn Hc].
    apply Forall_forall. intros c Hin.
    split; [exact (proj1 (Forall_forall _ _) Hn c Hin)|].
    intros Ho. apply (proj1 (Forall_forall _ _) (Hc (ex_intro _ c (conj Hin Ho)))).
    apply filter_In. now split. }
  assert (Hparse : forall it nf',
             parse_json data tr nf = (Ok it, nf') ->
             Forall projectable (classifications it)
             /\ classification_entries data = Ok (classifications it)).
  { intros it nf'. unfold parse_json.
    destruct (parse_fields data) as [it0|] eqn:Ef; [|discriminate].
    destruct (category_loop _ _ tr no_categories nf) as [[st|] nf1] eqn:Hl;
      [|discriminate].
    intros [= <- _]; simpl. split; [eapply Hok; eauto|].
    now apply parse_fields_inv in Ef as (_ & _ & _ & _ & Hc & _). }
  split; [|split].
  - intros cs. split.
    + destruct (category_loop cs cs tr no_categories nf) as [[st|e] nf1] eqn:Hl;
        [|discriminate]. intros _. eapply Hok; eauto.
    + intros Hcs.
      destruct (category_loop_total tr cs Hcs cs Hcs no_categories nf)
        as (st & nf1 & ->). reflexivity.
  - intros it nf' Hp. exact (proj1 (Hparse it nf' Hp)).
  - intros cs c Hcs Hin Ho Hlevel.
    destruct (parse_json data tr nf) as [[it|e] nf'] eqn:Hp; [|reflexivity].
    exfalso. destruct (Hparse it nf' eq_refl) as [Hproj Hc].
    rewrite Hcs in Hc. injection Hc as ->.
    destruct (proj1 (Forall_forall _ _) Hproj c Hin) as [_ Hcond].
    destruct (Hcond Ho) as [Hint _]. rewrite Hlevel in Hint. discriminate.
Qed.

End ProjectionErrors.

(** A document whose only classification entry of "oekobau.dat" has no
    level does not parse. *)
Lemma projection_raises_on_unprojectable_witness :
  is_ok (fst (@parse_json example_runtime
                (document [ ("UUID", PStr "eeee-0005");
                            ("classificationInformation",
                             obj [("classification",
                                   PList [obj [("name", PStr "OEKOBAU.DAT");
                                               ("class", PList [obj [("value", PStr "Beton")]])]])]) ]
                          (declares 0) [])
                [] [])) = false.
Proof.
  apply (proj2 (proj2 (@projection_raises_on_unprojectable example_runtime _ [] []))
           [mk_classification (PStr "OEKOBAU.DAT") (PStr "") (PStr "") (PStr "Beton")]
           (mk_classification (PStr "OEKOBAU.DAT") (PStr "") (PStr "") (PStr "Beton")));
    try reflexivity.
  now left.
Defined.

(** ** Indicator resolution on values that are not strings *)

Section IndicatorErrors.
Context {rt : Runtime}.

Lemma target_indicators_nonempty :
  exists k r, target_indicators = k :: r.
Proof.
  destruct target_indicators as [|k r] eqn:E; [|eauto].
  pose proof target_indicators_perm as Hp. rewrite E in Hp.
  apply Permutation_nil in Hp. discriminate.
Qed.

Lemma first_matching_key_type_error v :
  (forall s, v <> PStr s) ->
  first_matching_key target_indicators v = Raise TypeError.
Proof.
  intros Hv. destruct target_indicators_nonempty as (k & r & ->). simpl.
  destruct v; try reflexivity. exfalso. now apply (Hv s).
Qed.

(** [get_indicator_key] on a map with a value that is not a string (an
    entry without [value] leaves [None] in the map): the variants are tried
    in order, so the result is the first candidate found in the strings
    before that value, and a [TypeError] when none is found there.  So an
    exchange whose flow description is one entry with a language and no
    value cannot be parsed.  Anything that is not a dict resolves to
    [None]. *)
Theorem indicator_key_on_non_strings (d : dict) (pre : list string) (v : pyval)
    (post : list pyval) :
  dict_values d = map PStr pre ++ v :: post ->
  (forall s, v <> PStr s) ->
  get_indicator_key (PDict d)
  = match first_hit target_indicators pre with
    | Some k => Ok (PStr k)
    | None => Raise TypeError
    end
  /\ (forall ex lang,
         get2 ex "referenceToFlowDataSet" "shortDescription" empty_list
         = Ok (PList [PDict [(PStr "lang", PStr lang)]]) ->
         exchange_of ex = Raise TypeError)
  /\ (forall x, is_dict x = false -> get_indicator_key x = Ok PNone).
Proof.
  intros Hd Hv. split; [|split].
  - unfold get_indicator_key. rewrite Hd. clear Hd.
    induction pre as [|t r IH]; simpl.
    + now rewrite first_matching_key_type_error.
    + rewrite first_matching_key_find; simpl.
      now destruct (find (fun k => matches k t) target_indicators).
  - intros ex lang Hsd. unfold exchange_of. rewrite Hsd. cbn.
    now rewrite first_matching_key_type_error.
  - intros x Hx. destruct x; try reflexivity. discriminate.
Qed.

End IndicatorErrors.

(** The description {en: "Primary energy PERE", de: None}: the English
    text decides before the missing German one is looked at. *)
Lemma indicator_key_on_non_strings_witness :
  @get_indicator_key example_runtime
    (PDict [(PStr "en", PStr "Primary energy PERE"); (PStr "de", PNone)])
  = Ok (PStr "PERE").
Proof.
  rewrite (proj1 (@indicator_key_on_non_strings example_runtime
                    [(PStr "en", PStr "Primary energy PERE"); (PStr "de", PNone)]
                    ["Primary energy PERE"] PNone [] eq_refl
                    ltac:(intros s; discriminate))).
  vm_compute. reflexivity.
Defined.

(** ** Conversions that catch [ValueError] and [TypeError] *)

Lemma py_int_raises v e :
  py_int v = Raise e -> e = ValueError \/ e = TypeError \/ e = OverflowError.
Proof.
  destruct v; simpl; try discriminate; try (intros [= <-]; auto).
  - destruct f; simpl; try discriminate; intros [= <-]; auto.
  - destruct (int_of_string s); [discriminate|]. intros [= <-]; auto.
Qed.

Lemma int_truediv_raises a b e : int_truediv a b = Raise e -> e = OverflowError.
Proof.
  unfold int_truediv. destruct (is_finite _); [discriminate|]. now intros [= <-].
Qed.

Lemma fromtimestamp_utc_raises ts e :
  Datetime.fromtimestamp_utc ts = Raise e ->
  e = ValueError \/ e = OverflowError \/ e = OSError.
Proof.
  unfold Datetime.fromtimestamp_utc, Datetime.to_timeval.
  destruct ts as [s|s| |s m x]; cbn [bind].
  - destruct (Datetime.civil_from_days _) as [[y mo] d].
    destruct (negb _); [intros [= <-]; auto|].
    destruct (negb _); [intros [= <-]; auto|discriminate].
  - intros [= <-]; auto.
  - intros [= <-]; auto.
  - match goal with
    | |- context [let '(a, b) := ?p in _] => destruct p as [sec us]
    end.
    destruct (_ && _); cbn [bind]; [|intros [= <-]; auto].
    destruct (Datetime.civil_from_days _) as [[y mo] d].
    destruct (negb _); [intros [= <-]; auto|].
    destruct (negb _); [intros [= <-]; auto|discriminate].
Qed.

Lemma float_of_Z_raises z e : float_of_Z z = Raise e -> e = OverflowError.
Proof.
  unfold float_of_Z. destruct (is_finite _); [discriminate|]. now intros [= <-].
Qed.

Lemma py_float_raises v e :
  py_float v = Raise e ->
  e = ValueError \/ e = TypeError
  \/ (e = OverflowError /\ exists z, (v = PInt z \/ v = PBool (Z.eqb z 1)) /\
                                     float_of_Z z = Raise OverflowError).
Proof.
  destruct v; simpl; try discriminate; try (intros [= <-]; auto).
  - intros H. pose proof (float_of_Z_raises _ _ H) as ->.
    right; right. split; [reflexivity|]. exists (Z_of_bool b).
    split; [|exact H]. right. now destruct b.
  - intros H. pose proof (float_of_Z_raises _ _ H) as ->.
    right; right. split; [reflexivity|]. exists z. auto.
  - destruct (float_of_string s); [discriminate|]. intros [= <-]; auto.
Qed.

(** What [convert_timestamp] and [convert_to_float] can give: the first
    returns [None] or a string and raises nothing but [OverflowError] and
    [OSError]; the second returns [None] or a float and raises nothing but
    the [OverflowError] of an int too large for a float, never on a
    string.  The amount of a module entry is [None] when the entry has no
    value or the empty string, and [convert_to_float] of its value
    otherwise. *)
Theorem conversion_outcomes (v : pyval) (d : dict) :
  none_or is_str (convert_timestamp v) overflow_or_os
  /\ none_or is_float (convert_to_float v) overflow_only
  /\ (is_ok (convert_to_float v) = false -> exists z, v = PInt z)
  /\ amount_of (PDict d)
     = match dict_lookup (PStr "value") d with
       | None => Ok PNone
       | Some x => if eq_str x "" then Ok PNone else convert_to_float x
       end.
Proof.
  split; [|split; [|split]].
  - unfold convert_timestamp. destruct (negb (truthy v)); [exact I|].
    destruct (py_int v) as [n|e] eqn:En; cbn [bind try_except].
    + destruct (int_truediv n 1000) as [ts|e] eqn:Ed; cbn [bind try_except].
      * destruct (Datetime.fromtimestamp_utc ts) as [dt|e] eqn:Ef;
          cbn [bind try_except none_or is_str]; [reflexivity|].
        destruct (fromtimestamp_utc_raises _ _ Ef) as [->|[->| ->]]; simpl; auto.
      * rewrite (int_truediv_raises _ _ _ Ed). reflexivity.
    + destruct (py_int_raises _ _ En) as [->|[->| ->]]; simpl; auto.
  - unfold convert_to_float.
    destruct (py_float v) as [f|e] eqn:Ef; cbn [bind try_except none_or is_float];
      [reflexivity|].
    destruct (py_float_raises _ _ Ef) as [->|[->|[-> _]]]; simpl; auto.
  - unfold convert_to_float.
    destruct (py_float v) as [f|e] eqn:Ef; cbn [bind try_except]; [discriminate|].
    destruct (py_float_raises _ _ Ef) as [-> | [-> | [-> (z & [-> | ->] & Hz)]]];
      try discriminate; [eauto|].
    exfalso. destruct (Z.eqb z 1); simpl in Ef; vm_compute in Ef; discriminate.
  - unfold amount_of, convert_to_float; simpl.
    destruct (dict_lookup (PStr "value") d) as [x|]; simpl; [|reflexivity].
    now destruct (eq_str x "").
Qed.

(** The integer [2^1024] is beyond the floats. *)
Lemma conversion_outcomes_witness : exists z, PInt (2 ^ 1024) = PInt z.
Proof.
  apply (proj1 (proj2 (proj2 (conversion_outcomes (PInt (2 ^ 1024)) [])))).
  vm_compute. reflexivity.
Defined.

(** ** The original EPD URL and the unit *)

Lemma first_truthy_raises v e :
  truthy v = true -> first v = Raise e -> e = KeyError \/ e = TypeError.
Proof.
  destruct v as [| | | |s|l|d]; simpl; try discriminate;
    try (intros _ [= <-]; auto).
  - now destruct s.
  - now destruct l.
  - intros _. destruct (dict_lookup (PInt 0) d); [discriminate|]. intros [= <-]; auto.
Qed.

Lemma first_resource_url_raises items e :
  first_resource_url items = Raise e ->
  e = KeyError \/ e = TypeError \/ e = AttributeError.
Proof.
  induction items as [|item r IH]; simpl; [discriminate|].
  destruct item; simpl; try (intros [= <-]; auto).
  destruct (eq_str _ "referenceToOriginalEPD"); [|exact IH].
  destruct (match dict_lookup (PStr "value") d with Some v => v | None => empty_dict end)
    as [| | | | | |v]; simpl; try (intros [= <-]; auto).
  destruct (truthy _) eqn:Ht; [|exact IH].
  intros H. destruct (first_truthy_raises _ _ Ht H); auto.
Qed.

Lemma first_resource_url_step (d : dict) r :
  url_entry_ok (PDict d) ->
  first_resource_url (PDict d :: r)
  = match original_epd_urls (PDict d) with
    | url :: _ => Ok url
    | [] => first_resource_url r
    end.
Proof.
  unfold url_entry_ok, original_epd_urls; simpl.
  destruct (dict_lookup (PStr "name") d) as [n|]; simpl; [|reflexivity].
  destruct (eq_str n "referenceToOriginalEPD"); [|reflexivity].
  intros Hok. specialize (Hok eq_refl).
  destruct (dict_lookup (PStr "value") d) as [[| | | | | |v]|]; try contradiction;
    simpl; [|reflexivity].
  destruct (dict_lookup (PStr "resourceURLs") v) as [urls|]; simpl; [|reflexivity].
  destruct urls; try discriminate. now destruct l.
Qed.

(** [extract_original_epd_url] never lets a [KeyError] or a [TypeError]
    out (only the [AttributeError] of an entry, or a container on the way,
    that is not an object); on entries shaped as the format intends the
    loop returns the first URL of the first entry named
    [referenceToOriginalEPD] that lists any, and [None] when there is
    none. *)
Theorem original_epd_url_is_first (data : pyval) (items : list pyval) :
  match extract_original_epd_url data with
  | Ok _ => True
  | Raise e => e = AttributeError
  end
  /\ (Forall url_entry_ok items ->
      first_resource_url items = Ok (hd PNone (flat_map original_epd_urls items)))
  /\ (Forall url_entry_ok items ->
      (mv <- get data "modellingAndValidation" empty_dict ;;
       ds <- get mv "dataSourcesTreatmentAndRepresentativeness" empty_dict ;;
       other <- get ds "other" empty_dict ;;
       get other "anies" empty_list) = Ok (PList items) ->
      extract_original_epd_url data
      = Ok (hd PNone (flat_map original_epd_urls items))).
Proof.
  assert (Hloop : Forall url_entry_ok items ->
            first_resource_url items = Ok (hd PNone (flat_map original_epd_urls items))).
  { induction 1 as [|item r Hi Hr IH]; [reflexivity|].
    destruct item; try contradiction.
    rewrite (first_resource_url_step d r Hi). cbn [flat_map].
    destruct (original_epd_urls (PDict d)); [exact IH|reflexivity]. }
  split; [|split; [exact Hloop|]].
  - unfold extract_original_epd_url.
    destruct (get data "modellingAndValidation" empty_dict) as [mv|e] eqn:E1;
      cbn [bind try_except].
    2:{ destruct data; simpl in E1; try discriminate; injection E1 as <-; reflexivity. }
    destruct (get mv "dataSourcesTreatmentAndRepresentativeness" empty_dict)
      as [ds|e] eqn:E2; cbn [bind try_except].
    2:{ destruct mv; simpl in E2; try discriminate; injection E2 as <-; reflexivity. }
    destruct (get ds "other" empty_dict) as [other|e] eqn:E3; cbn [bind try_except].
    2:{ destruct ds; simpl in E3; try discriminate; injection E3 as <-; reflexivity. }
    destruct (get other "anies" empty_list) as [anies|e] eqn:E4; cbn [bind try_except].
    2:{ destruct other; simpl in E4; try discriminate; injection E4 as <-; reflexivity. }
    destruct (iter anies) as [its|e] eqn:E5; cbn [bind try_except].
    2:{ destruct anies; simpl in E5; try discriminate; injection E5 as <-; exact I. }
    destruct (first_resource_url its) as [u|e] eqn:E6; cbn [try_except]; [exact I|].
    destruct (first_resource_url_raises _ _ E6) as [-> | [-> | ->]]; simpl; auto.
  - intros Hok Hpath. inv_bind Hpath. unfold extract_original_epd_url.
    repeat match goal with
           | E : ?m = Ok _ |- context [?m] => rewrite E; cbn [bind]
           end.
    cbn [bind iter]. rewrite (Hloop Hok). reflexivity.
Qed.

(** Two entries name the original EPD; the first lists no URL, the second
    two. *)
Lemma original_epd_url_is_first_witness :
  first_resource_url
    [ obj [("name", PStr "referenceToOriginalEPD"); ("value", obj [("resourceURLs", PList [])])];
      obj [("name", PStr "subType"); ("value", PStr "generic dataset")];
      obj [("name", PStr "referenceToOriginalEPD");
           ("value", obj [("resourceURLs", PList [PStr "http://a"; PStr "http://b"])])] ]
  = Ok (PStr "http://a").
Proof.
  match goal with
  | |- first_resource_url ?l = _ =>
      refine (proj1 (proj2 (original_epd_url_is_first PNone l)) _)
  end.
  repeat (apply Forall_cons;
          [vm_compute;
           first [exact I | intros _; reflexivity | intros _; exact I
                 | intros H; discriminate H]|]).
  apply Forall_nil.
Defined.

Lemma unit_loop_step (d : dict) r u :
  unit_entry_ok (PDict d) ->
  unit_loop (PDict d :: r) u
  = unit_loop r (match unit_of (PDict d) with Some x => x | None => u end).
Proof.
  unfold unit_entry_ok, unit_of; simpl.
  destruct (dict_lookup (PStr "name") d) as [n|]; simpl; [|reflexivity].
  destruct (eq_str n "referenceToUnitGroupDataSet"); [|reflexivity].
  destruct (dict_lookup (PStr "value") d) as [[| | | | | |uv]|]; simpl; try reflexivity.
  intros Hok. specialize (Hok eq_refl).
  destruct (dict_lookup (PStr "shortDescription") uv) as [sd|]; [|reflexivity].
  destruct sd; try discriminate. reflexivity.
Qed.

(** The unit of an exchange or LCIA result: the inner [break] leaves the
    outer loop running, so the unit is the one offered by the last
    extension entry that offers one, and stays what it was ([None] at the
    start) when no entry offers any. *)
Theorem unit_last_offer_wins (items : list pyval) (u : pyval) :
  Forall unit_entry_ok items ->
  (forall l1 item l2 x,
      items = l1 ++ item :: l2 ->
      unit_of item = Some x ->
      (forall y, In y l2 -> unit_of y = None) ->
      unit_loop items u = Ok x)
  /\ ((forall y, In y items -> unit_of y = None) -> unit_loop items u = Ok u).
Proof.
  intros Hok.
  assert (Hnone : forall l v, Forall unit_entry_ok l ->
             (forall y, In y l -> unit_of y = None) -> unit_loop l v = Ok v).
  { induction 1 as [|item r Hi Hr IH]; intros Hno; [reflexivity|].
    destruct item; try contradiction.
    rewrite (unit_loop_step d r v Hi), (Hno (PDict d)) by now left.
    apply IH. intros; apply Hno; now right. }
  split; [|now apply Hnone].
  intros l1 item l2 x -> Hx Hno. revert u.
  induction l1 as [|i1 r IH]; intros u; simpl app.
  - inversion Hok as [|? ? Hi Hr]; subst.
    destruct item; try contradiction.
    rewrite (unit_loop_step d l2 u Hi), Hx. now apply Hnone.
  - inversion Hok as [|? ? Hi Hr]; subst.
    destruct i1; try contradiction.
    rewrite (unit_loop_step d _ u Hi). now apply IH.
Qed.

(** Two unit entries: the later one, "MJ", is the unit. *)
Lemma unit_last_offer_wins_witness :
  unit_loop
    [ obj [("name", PStr "referenceToUnitGroupDataSet");
           ("value", obj [("shortDescription", PList [lang_entry "en" "kg"])])];
      obj [("module", PStr "A1"); ("value", PStr "1")];
      obj [("name", PStr "referenceToUnitGroupDataSet");
           ("value", obj [("shortDescription", PList [PStr "x"; lang_entry "en" "MJ"])])];
      obj [("name", PStr "referenceToUnitGroupDataSet"); ("value", PStr "none")] ]
    PNone
  = Ok (PStr "MJ").
Proof.
  match goal with
  | |- unit_loop (?a :: ?b :: ?c :: ?r) _ = Ok ?x =>
      refine (proj1 (unit_last_offer_wins (a :: b :: c :: r) PNone _)
                [a; b] c r x eq_refl eq_refl _)
  end.
  - repeat (apply Forall_cons;
            [vm_compute;
             first [exact I | intros _; reflexivity | intros H; discriminate H]|]).
    apply Forall_nil.
  - intros y [<-|[]]. reflexivity.
Defined.

(** ** The datastock of a folder name *)

Lemma has_prefix_split p : forall s,
  has_prefix p s = true -> s = (p ++ skip (String.length p) s)%string.
Proof.
  induction p as [|a p IH]; intros [|b s]; simpl; try discriminate; try reflexivity.
  intros Hp. apply andb_true_iff in Hp as [Ha Hp].
  apply Ascii.eqb_eq in Ha as ->. now rewrite <- (IH s Hp).
Qed.

Lemma span_split p : forall s a b,
  span p s = (a, b) -> s = (a ++ b)%string /\ all_chars p a = true.
Proof.
  induction s as [|c s IH]; simpl; intros a b.
  - intros [= <- <-]. now split.
  - destruct (p c) eqn:Hc.
    + destruct (span p s) as [a' b'] eqn:Es. intros [= <- <-].
      destruct (IH _ _ eq_refl) as [-> Ha]. simpl. now rewrite Hc.
    + intros [= <- <-]. now split.
Qed.

Lemma match_uuid_part_sound s u :
  match_uuid_part s = Some u ->
  u <> "" /\ all_chars is_uuid_char u = true /\
  exists post, s = ("_uuid_" ++ u ++ "_" ++ post)%string.
Proof.
  unfold match_uuid_part.
  destruct (has_prefix "_uuid_" s) eqn:Hp; [|discriminate].
  apply has_prefix_split in Hp. cbn [String.length] in Hp.
  destruct (span is_uuid_char (skip 6 s)) as [a b] eqn:Es.
  destruct (negb (String.eqb a "")) eqn:Ha; [|discriminate].
  destruct (has_prefix "_" b) eqn:Hb; [|discriminate].
  simpl. intros [= <-].
  apply span_split in Es as [Es Hall]. apply has_prefix_split in Hb.
  split; [|split; [exact Hall|]].
  - intros ->. discriminate.
  - exists (skip 1 b). rewrite Hp, Es at 1. now rewrite Hb at 1.
Qed.

Lemma append_assoc (a b c : string) : ((a ++ b) ++ c = a ++ b ++ c)%string.
Proof. induction a; simpl; congruence. Qed.

Lemma append_empty (a : string) : (a ++ "")%string = a.
Proof. induction a; simpl; congruence. Qed.

Lemma match_groups_sound : forall s taken n u,
  match_groups s taken = Some (n, u) ->
  exists g post,
    g <> "" /\ all_chars is_dot_char g = true /\ n = (taken ++ g)%string /\
    s = (g ++ "_uuid_" ++ u ++ "_" ++ post)%string /\
    u <> "" /\ all_chars is_uuid_char u = true.
Proof.
  induction s as [|c s IH]; simpl; intros taken n u; [discriminate|].
  destruct (Ascii.eqb c "010") eqn:Hc; [discriminate|].
  destruct (match_groups s (taken ++ String c "")) as [[n' u']|] eqn:Eg.
  - intros [= -> ->].
    destruct (IH _ _ _ Eg) as (g & post & Hg & Hdot & -> & -> & Hu & Hall).
    exists (String c g), post. repeat split; auto; try discriminate.
    + simpl. unfold is_dot_char at 1. now rewrite Hc.
    + now rewrite append_assoc.
  - destruct (match_uuid_part s) as [u'|] eqn:Eu; [|discriminate].
    simpl. intros [= <- <-].
    destruct (match_uuid_part_sound _ _ Eu) as (Hu & Hall & post & ->).
    exists (String c ""), post. repeat split; auto; try discriminate.
    simpl. unfold is_dot_char. now rewrite Hc.
Qed.

Lemma search_datastock_sound : forall s n u,
  search_datastock s = Some (n, u) ->
  n <> "" /\ all_chars is_dot_char n = true /\
  u <> "" /\ all_chars is_uuid_char u = true /\
  exists pre post, s = (pre ++ "data_stock_" ++ n ++ "_uuid_" ++ u ++ "_" ++ post)%string.
Proof.
  assert (Hhere : forall s n u,
             (if has_prefix "data_stock_" s then match_groups (skip 11 s) "" else None)
             = Some (n, u) ->
             n <> "" /\ all_chars is_dot_char n = true /\
             u <> "" /\ all_chars is_uuid_char u = true /\
             exists post, s = ("data_stock_" ++ n ++ "_uuid_" ++ u ++ "_" ++ post)%string).
  { intros s n u. destruct (has_prefix "data_stock_" s) eqn:Hp; [|discriminate].
    apply has_prefix_split in Hp. cbn [String.length] in Hp. intros Hg.
    destruct (match_groups_sound _ _ _ _ Hg) as (g & post & Hg0 & Hdot & -> & Hs & Hu & Hall).
    simpl append at 1. repeat split; auto. exists post. rewrite Hp, Hs at 1. reflexivity. }
  induction s as [|c s IH]; intros n u.
  - simpl. discriminate.
  - cbn [search_datastock].
    destruct (if has_prefix "data_stock_" (String c s) then _ else None)
      as [[n' u']|] eqn:Eh.
    + intros [= -> ->]. destruct (Hhere _ _ _ Eh) as (H1 & H2 & H3 & H4 & post & ->).
      repeat split; auto. now exists "", post.
    + intros Hs. destruct (IH _ _ Hs) as (H1 & H2 & H3 & H4 & pre & post & ->).
      repeat split; auto. now exists (String c pre), post.
Qed.

Lemma no_mark_no_match : forall s,
  substring_of "_uuid_" s = false -> match_uuid_part s = None /\ later_mark s = false.
Proof.
  assert (Hpart : forall s, substring_of "_uuid_" s = false -> match_uuid_part s = None).
  { intros s Hs. unfold match_uuid_part.
    destruct s; [reflexivity|].
    cbn [substring_of] in Hs. now apply orb_false_iff in Hs as [-> _]. }
  intros s Hs. split; [now apply Hpart|].
  induction s as [|c s IH]; [reflexivity|].
  assert (Hr : substring_of "_uuid_" s = false).
  { cbn [substring_of] in Hs. now apply orb_false_iff in Hs as [_ Hs]. }
  cbn [later_mark]. now rewrite (Hpart s Hr), IH.
Qed.

Lemma later_mark_none : forall s taken,
  later_mark s = false -> match_groups s taken = None.
Proof.
  induction s as [|c s IH]; intros taken; simpl; [reflexivity|].
  destruct (match_uuid_part s); [discriminate|]. intros Hl.
  rewrite (IH _ Hl). now destruct (Ascii.eqb c "010").
Qed.

Lemma uuid_char_is_no_mark c r :
  is_uuid_char c = true -> match_uuid_part (String c r) = None.
Proof.
  intros Hc. unfold match_uuid_part. cbn [has_prefix].
  destruct (Ascii.eqb_spec "_" c) as [<-|]; [discriminate Hc|reflexivity].
Qed.

Lemma span_uuid : forall u rest,
  all_chars is_uuid_char u = true ->
  span is_uuid_char (u ++ String "_" rest) = (u, String "_" rest).
Proof.
  induction u as [|c u IH]; intros rest; simpl; [reflexivity|].
  intros Hu. apply andb_true_iff in Hu as [-> Hu]. now rewrite IH.
Qed.

Lemma uuid_then_no_mark : forall u rest,
  all_chars is_uuid_char u = true ->
  substring_of "_uuid_" (String "_" rest) = false ->
  later_mark (u ++ String "_" rest) = false.
Proof.
  induction u as [|c u IH]; intros rest Hu Hs.
  - now apply no_mark_no_match.
  - simpl in Hu. apply andb_true_iff in Hu as [Hc Hu].
    cbn [append later_mark]. rewrite (IH rest Hu Hs).
    destruct u as [|c' u]; simpl append.
    + now rewrite (proj1 (no_mark_no_match _ Hs)).
    + simpl in Hu. apply andb_true_iff in Hu as [Hc' _].
      now rewrite uuid_char_is_no_mark.
Qed.

Lemma match_groups_greedy tail u : forall name taken,
  name <> "" -> all_chars is_dot_char name = true ->
  match_uuid_part tail = Some u -> later_mark tail = false ->
  match_groups (name ++ tail) taken = Some ((taken ++ name)%string, u).
Proof.
  intros name.
  induction name as [|c name IH]; intros taken Hne Hdot Hu Hl; [contradiction|].
  simpl in Hdot. apply andb_true_iff in Hdot as [Hc Hdot].
  unfold is_dot_char in Hc. apply negb_true_iff in Hc.
  cbn [append match_groups]. rewrite Hc.
  destruct name as [|c' name].
  - simpl append. rewrite (later_mark_none _ _ Hl), Hu. reflexivity.
  - rewrite (IH (taken ++ String c "")%string) by (auto; discriminate).
    now rewrite append_assoc.
Qed.

Lemma later_mark_cons c r :
  later_mark (String c r)
  = match match_uuid_part r with Some _ => true | None => later_mark r end.
Proof. reflexivity. Qed.

Lemma mark_before_uuid_char c r :
  is_uuid_char c = true -> match_uuid_part (String "_" (String c r)) = None.
Proof.
  intros Hc. unfold match_uuid_part. cbn [has_prefix].
  destruct (Ascii.eqb_spec "u" c) as [<-|]; [discriminate Hc|reflexivity].
Qed.

Lemma mark_then_uuid u suffix :
  u <> "" -> all_chars is_uuid_char u = true ->
  match_uuid_part ("_uuid_" ++ u ++ "_" ++ suffix) = Some u.
Proof.
  intros Hu Hall.
  change (match_uuid_part ("_uuid_" ++ u ++ "_" ++ suffix))
    with (let '(a, rest) := span is_uuid_char (u ++ String "_" suffix) in
          if negb (String.eqb a "") && has_prefix "_" rest then Some a else None).
  rewrite (span_uuid u suffix Hall). destruct u; [contradiction|reflexivity].
Qed.

Lemma nothing_after_mark u suffix :
  u <> "" -> all_chars is_uuid_char u = true ->
  substring_of "_uuid_" ("_" ++ suffix) = false ->
  later_mark ("_uuid_" ++ u ++ "_" ++ suffix) = false.
Proof.
  intros Hu Hall Hs.
  assert (Hl := uuid_then_no_mark u suffix Hall Hs).
  destruct u as [|c u]; [contradiction|].
  simpl in Hall. apply andb_true_iff in Hall as [Hc _].
  simpl append in *. do 6 rewrite later_mark_cons.
  rewrite Hl, (uuid_char_is_no_mark c _ Hc), (mark_before_uuid_char c _ Hc).
  reflexivity.
Qed.

Lemma search_at_head rest g :
  match_groups rest "" = Some g ->
  search_datastock ("data_stock_" ++ rest) = Some g.
Proof.
  intros Hg.
  change (search_datastock ("data_stock_" ++ rest))
    with (match match_groups rest "" with
          | Some g' => Some g'
          | None => search_datastock ("ata_stock_" ++ rest)
          end).
  now rewrite Hg.
Qed.

(** [extract_datastock_info] reads its answer off the folder name: the
    name is a non-empty run without line feed after [data_stock_], the UUID
    a non-empty run of [a-f0-9-] between [_uuid_] and [_] (so neither is
    ever falsy for the caller).  It reads back what a folder name was made
    from: a folder named [data_stock_<name>_uuid_<uuid>_<suffix>] gives
    [<name>] and [<uuid>] whenever the suffix brings no further [_uuid_]
    (the name itself may hold one, the first group being greedy). *)
Theorem datastock_info_round_trip (name uuid : string) :
  (forall folder_name,
      extract_datastock_info folder_name = Some (name, uuid) ->
      name <> "" /\ all_chars is_dot_char name = true /\
      uuid <> "" /\ all_chars is_uuid_char uuid = true /\
      exists pre post,
        folder_name
        = (pre ++ "data_stock_" ++ name ++ "_uuid_" ++ uuid ++ "_" ++ post)%string)
  /\ (forall suffix,
         name <> "" -> all_chars is_dot_char name = true ->
         uuid <> "" -> all_chars is_uuid_char uuid = true ->
         substring_of "_uuid_" ("_" ++ suffix) = false ->
         extract_datastock_info
           ("data_stock_" ++ name ++ "_uuid_" ++ uuid ++ "_" ++ suffix)
         = Some (name, uuid)).
Proof.
  split; [intros folder_name; apply search_datastock_sound|].
  intros suffix Hn Hdot Hu Hall Hs. unfold extract_datastock_info.
  apply search_at_head.
  apply (match_groups_greedy _ uuid name "" Hn Hdot).
  - now apply mark_then_uuid.
  - now apply nothing_after_mark.
Qed.

(** The folder of the end-to-end scenario: a name holding [_uuid_] itself
    is read back whole. *)
Lemma datastock_info_round_trip_witness :
  (exists pre post,
      "data_stock_Default_uuid_1111-2222_20240101"
      = (pre ++ "data_stock_" ++ "Default" ++ "_uuid_" ++ "1111-2222" ++ "_" ++ post)%string)
  /\ extract_datastock_info "data_stock_my_uuid_ab_set_uuid_0c-7_2024"
     = Some ("my_uuid_ab_set", "0c-7").
Proof.
  split.
  - apply (proj1 (datastock_info_round_trip "Default" "1111-2222")
             scenario_folder eq_refl).
  - apply (proj2 (datastock_info_round_trip "my_uuid_ab_set" "0c-7") "2024");
      (discriminate || reflexivity).
Defined.

(** ** What a stored record is made of *)

Lemma table_eqb_eq a b : table_eqb a b = true <-> a = b.
Proof. destruct a, b; simpl; split; intros; congruence. Qed.

Lemma rows_add_row_other t t' r db :
  table_eqb t t' = false -> rows t' (add_row t r db) = rows t' db.
Proof. destruct db, t, t'; simpl; intros; congruence. Qed.

Lemma rows_nextval t t' db : rows t' (snd (nextval t db)) = rows t' db.
Proof. destruct db, t, t'; reflexivity. Qed.

Lemma sum_const0 {A} (l : list A) : list_sum (map (fun _ => 0%nat) l) = 0%nat.
Proof. induction l; simpl; auto. Qed.

Lemma sum_const1 {A} (l : list A) : list_sum (map (fun _ => 1%nat) l) = List.length l.
Proof. induction l; simpl; auto. Qed.

Section Adding.
Context {rt : Runtime}.
Variable P : table -> row -> Prop.

Lemma adds_ext {A} (m : stm A) n n' :
  (forall t, n t = n' t) -> adds P m n -> adds P m n'.
Proof.
  intros He Hm db a db' Hr t. destruct (Hm db a db' Hr t) as (l & H1 & H2 & H3).
  exists l. now rewrite <- He.
Qed.

Lemma adds_sret {A} (a : A) : adds P (sret a) (fun _ => 0%nat).
Proof. intros db a' db' [= _ <-] t. exists []. now rewrite app_nil_r. Qed.

Lemma adds_lift {A} (m : result A) : adds P (lift m) (fun _ => 0%nat).
Proof. intros db a' db' [= _ <-] t. exists []. now rewrite app_nil_r. Qed.

Lemma adds_sbind {A B} (m : stm A) (k : A -> stm B) n1 n2 :
  adds P m n1 -> (forall a, adds P (k a) n2) ->
  adds P (sbind m k) (fun t => (n1 t + n2 t)%nat).
Proof.
  intros Hm Hk db b db'. unfold sbind.
  destruct (m db) as [[a|e] db1] eqn:Em; [|discriminate].
  intros Hr t.
  destruct (Hm _ _ _ Em t) as (l1 & H1 & H2 & H3).
  destruct (Hk a _ _ _ Hr t) as (l2 & H4 & H5 & H6).
  exists (l1 ++ l2). rewrite H4, H1, app_assoc, length_app, H2, H5.
  repeat split; auto. now apply Forall_app.
Qed.

Lemma adds_for_each {A} (f : A -> stm unit) (n : A -> table -> nat) l :
  (forall a, adds P (f a) (n a)) ->
  adds P (for_each f l) (fun t => list_sum (map (fun a => n a t) l)).
Proof.
  intros Hf. induction l as [|x r IH]; simpl.
  - apply adds_sret.
  - now apply adds_sbind.
Qed.

Lemma adds_insert t params :
  P t params -> adds P (insert t params) (rows_in t 1).
Proof.
  intros Hp db a db'. unfold insert.
  destruct (adapts t params && constraints t params db); [|discriminate].
  intros [= _ <-] t'. unfold rows_in. destruct (table_eqb t t') eqn:Et.
  - apply table_eqb_eq in Et as <-. exists [params].
    rewrite rows_add_row. repeat split; auto.
  - exists []. rewrite rows_add_row_other, app_nil_r by exact Et. repeat split; auto.
Qed.

Lemma adds_insert_returning t params :
  (forall id, P t (PInt id :: params)) ->
  adds P (insert_returning t params) (rows_in t 1).
Proof.
  intros Hp db a db'. unfold insert_returning.
  pose proof (fun t' => rows_nextval t t' db) as Hn.
  destruct (nextval t db) as [id db1]; simpl in Hn.
  destruct (adapts t params && constraints t (PInt id :: params) db1); [|discriminate].
  intros [= _ <-] t'. unfold rows_in. rewrite <- Hn.
  destruct (table_eqb t t') eqn:Et.
  - apply table_eqb_eq in Et as <-. exists [PInt id :: params].
    rewrite rows_add_row. repeat split; auto.
  - exists []. rewrite rows_add_row_other, app_nil_r by exact Et. repeat split; auto.
Qed.

Lemma adds_for_each_one {A} (f : A -> stm unit) t l :
  (forall a, adds P (f a) (rows_in t 1)) ->
  adds P (for_each f l) (rows_in t (List.length l)).
Proof.
  intros Hf. eapply adds_ext; [|apply adds_for_each; intros a; apply Hf].
  intros t'. unfold rows_in. destruct (table_eqb t t').
  - apply sum_const1.
  - apply sum_const0.
Qed.

Lemma adds_module_amounts t parent ma :
  (forall r, P t (PInt parent :: r)) ->
  adds P (store_module_amounts t parent ma) (rows_in t (List.length ma)).
Proof.
  intros Hp. apply adds_for_each_one. intros kv. apply adds_insert, Hp.
Qed.

End Adding.

Section StoredRecord.
Context {rt : Runtime}.

Lemma product_params_datastock it datastock_id params :
  product_params it datastock_id = Ok params -> column 40 params = datastock_id.
Proof.
  unfold product_params.
  destruct (py_join _ _); simpl; [|discriminate]. now intros [= <-].
Qed.

Lemma insert_item_adds it datastock_id :
  adds (belongs (process_id it) datastock_id) (insert_item it datastock_id)
       (item_rows it).
Proof.
  intros db a db' Hr. unfold insert_item in Hr. unfold sbind at 1, lift in Hr.
  destruct (product_params it datastock_id) as [params|e] eqn:Ep; [|discriminate].
  revert db a db' Hr.
  match goal with
  | |- forall db a db', ?m db = _ -> _ =>
      change (adds (belongs (process_id it) datastock_id) m (item_rows it))
  end.
  eapply adds_ext; cycle 1.
  - apply adds_sbind; [|intros _].
    { apply adds_insert. split;
        [now apply product_params_key in Ep|now apply product_params_datastock in Ep]. }
    apply adds_sbind; [|intros _].
    { apply adds_for_each_one. intros c. apply adds_insert. reflexivity. }
    apply adds_sbind; [|intros _].
    { apply adds_for_each. intros e. unfold store_exchange.
      apply adds_sbind; [apply adds_insert_returning; intros id; reflexivity|].
      intros id. apply adds_module_amounts; intros r; exists id; reflexivity. }
    apply adds_sbind; [|intros _].
    { apply adds_for_each. intros l. unfold store_lcia.
      apply adds_sbind; [apply adds_insert_returning; intros id; reflexivity|].
      intros id. apply adds_module_amounts; intros r; exists id; reflexivity. }
    apply adds_sbind; [|intros _].
    { apply adds_for_each. intros reviewers.
      apply adds_for_each_one. intros reviewer. apply adds_insert. reflexivity. }
    apply adds_sbind; [|intros _].
    { apply adds_for_each_one. intros system. apply adds_insert. reflexivity. }
    apply adds_for_each with
      (n := fun rf t => match t with
                        | Flow_Properties => List.length (rf_flow_properties rf)
                        | Material_Properties => List.length (rf_material_properties rf)
                        | _ => 0%nat
                        end).
    intros rf. unfold store_reference_flow.
    eapply adds_ext; cycle 1.
    + apply adds_sbind; [|intros _].
      { apply adds_for_each_one. intros p. apply adds_insert. reflexivity. }
      apply adds_for_each_one. intros kv.
      eapply adds_ext; [|apply adds_sbind; [apply adds_lift|]].
      2:{ intros v. apply adds_insert. reflexivity. }
      intros t. reflexivity.
    + intros t. destruct t; unfold rows_in; simpl; lia.
  - intros t. destruct t; unfold rows_in; simpl; rewrite ?sum_const0, ?sum_const1; lia.
Qed.

End StoredRecord.

Section StoredFile.
Context {rt : Runtime}.

Lemma store_single it datastock_id db db' :
  store_items [it] datastock_id db = (Ok tt, db') ->
  if product_exists (process_id it) db then db' = db
  else forall t, exists l,
      rows t db' = rows t db ++ l
      /\ List.length l = item_rows it t
      /\ Forall (belongs (process_id it) datastock_id t) l.
Proof.
  simpl. destruct (product_exists (process_id it) db); [now intros [= <-]|].
  unfold sbind. destruct (insert_item it datastock_id db) as [[[]|e] db1] eqn:Ei;
    [|discriminate].
  intros [= <-]. exact (insert_item_adds _ _ _ _ _ Ei).
Qed.

(** A record that is new to the database is stored whole: when
    [store_data_in_db] returns, the transaction is committed, no existing
    row of any table has changed, and each table has received exactly the
    rows of the record (one product row carrying the datastock, one row
    per classification, exchange, impact result, reviewer, compliance,
    flow property, material property and module amount), every product and
    child row under the key of the record. *)
Theorem stored_record_rows (it : item) (datastock_id : pyval) (c c1 : connection) :
  store_data_in_db [it] c datastock_id = (Ok tt, c1) ->
  product_exists (process_id it) (working c) = false ->
  settled c1
  /\ forall t, exists l,
       rows t (working c1) = rows t (working c) ++ l
       /\ List.length l = item_rows it t
       /\ Forall (belongs (process_id it) datastock_id t) l.
Proof.
  unfold store_data_in_db.
  destruct (store_items [it] datastock_id (working c)) as [[[]|e] db] eqn:Es;
    [|discriminate].
  intros [= <-] Hex. split; [reflexivity|].
  apply store_single in Es. now rewrite Hex in Es.
Qed.

End StoredFile.

(** The well-formed document stored into a database that holds its
    datastock: one module amount of its one impact result. *)
Lemma stored_record_rows_witness :
  exists it c1 l,
    record_of well_formed_document = Some it
    /\ @store_data_in_db example_runtime [it] one_datastock (PInt 1) = (Ok tt, c1)
    /\ rows LCIA_ModuleAmounts (working c1)
       = rows LCIA_ModuleAmounts (working one_datastock) ++ l
    /\ List.length l = 1%nat.
Proof.
  destruct (record_of well_formed_document) as [it|] eqn:Er;
    [|vm_compute in Er; discriminate Er].
  destruct (@store_data_in_db example_runtime [it] one_datastock (PInt 1))
    as [[[]|e] c1] eqn:Es.
  - assert (Hex : product_exists (process_id it) (working one_datastock) = false)
      by reflexivity.
    destruct (proj2 (@stored_record_rows example_runtime it (PInt 1) one_datastock c1
                       Es Hex) LCIA_ModuleAmounts) as (l & Hl & Hn & _).
    exists it, c1, l. split; [reflexivity|]. split; [exact Es|].
    split; [exact Hl|]. rewrite Hn.
    vm_compute in Er. injection Er as <-. reflexivity.
  - exfalso. vm_compute in Er. injection Er as <-. vm_compute in Es. discriminate Es.
Defined.

(** ** A datastock is created once *)

Lemma find_last_only {A} (p : A -> bool) l x :
  find p l = None -> p x = true -> find p (l ++ [x]) = Some x.
Proof.
  induction l as [|y l IH]; simpl; intros Hf Hx; [now rewrite Hx|].
  destruct (p y); [discriminate|auto].
Qed.

Section DatastockOnce.
Context {rt : Runtime}.

Lemma insert_returning_datastock datastock_name datastock_uuid db id db' :
  insert_returning DataStocks [PStr datastock_name; PStr datastock_uuid] db
  = (Ok id, db') ->
  id = seq_datastock db + 1
  /\ forall t, rows t db'
               = rows t db ++ (if table_eqb DataStocks t
                               then [[PInt id; PStr datastock_name; PStr datastock_uuid]]
                               else []).
Proof.
  unfold insert_returning.
  destruct db as [ds pr cl ex em lc lm rv cp fp mp s1 s2 s3]; simpl.
  destruct (_ && _); [|discriminate].
  intros [= <- <-]. split; [reflexivity|].
  intros t. destruct t; simpl; now rewrite ?app_nil_r.
Qed.

(** Once [get_or_create_datastock] has returned an identifier for a UUID,
    asking again for that UUID, under whatever name, returns the same
    identifier and touches nothing: the name of an existing datastock is
    never updated.  The call leaves no transaction open, and an identifier
    it creates is positive when the sequence is not negative, so the caller's
    test [if not datastock_id] never takes it for a failure. *)
Theorem datastock_is_created_once (c c1 : connection)
    (datastock_name datastock_uuid : string) (v : pyval) :
  get_or_create_datastock c datastock_name datastock_uuid = (v, c1) ->
  v <> PNone ->
  (forall other_name,
      get_or_create_datastock c1 other_name datastock_uuid = (v, c1))
  /\ (settled c -> settled c1)
  /\ (datastock_row datastock_uuid (working c) = None ->
      0 <= seq_datastock (working c) ->
      exists id, v = PInt id /\ 0 < id /\ truthy v = true).
Proof.
  unfold get_or_create_datastock, get_or_create_datastock_among, datastock_row.
  destruct (find _ (rows DataStocks (working c))) as [r|] eqn:Ef.
  - intros [= <- <-] _. split; [|split; [auto|discriminate]].
    intros other_name. now rewrite Ef.
  - cbv zeta; cbn [working committed].
    destruct (insert_returning DataStocks _ (working c)) as [[id|e] db] eqn:Ei.
    2:{ intros [= <- _] Hv. now contradiction Hv. }
    intros [= <- <-] _.
    destruct (insert_returning_datastock _ _ _ _ _ Ei) as [Hid Hrows].
    split; [|split; [reflexivity|]].
    + intros other_name. unfold commit; cbn [working committed].
      rewrite (Hrows DataStocks). cbn [table_eqb].
      rewrite (find_last_only _ _ _ Ef); [reflexivity|].
      simpl. apply String.eqb_refl.
    + intros _ Hseq. exists id. split; [reflexivity|]. split; [lia|].
      simpl. apply negb_true_iff, Z.eqb_neq. lia.
Qed.

End DatastockOnce.

(** The datastock of the scenario, asked for again under another name. *)
Lemma datastock_is_created_once_witness :
  @get_or_create_datastock example_runtime one_datastock "Renamed" "1111-2222"
  = (PInt 1, one_datastock).
Proof.
  apply (proj1 (@datastock_is_created_once example_runtime fresh_connection
                  one_datastock "Default" "1111-2222" (PInt 1) eq_refl
                  ltac:(discriminate))).
Defined.

(** ** Files and transactions *)

Lemma rows_rolled_back t old cur : rows t (rolled_back old cur) = rows t old.
Proof. destruct old, t; reflexivity. Qed.

Lemma grows_by_refl db : grows_by db db 0 0.
Proof.
  split; [|split]; try lia. intros t. exists []. now rewrite app_nil_r.
Qed.

Lemma grows_by_same db db' :
  (forall t, rows t db' = rows t db) -> grows_by db db' 0 0.
Proof.
  intros H. split; [|split]; rewrite ?H; try lia.
  intros t. exists []. now rewrite app_nil_r.
Qed.

Lemma grows_by_trans db1 db2 db3 p1 d1 p2 d2 :
  grows_by db1 db2 p1 d1 -> grows_by db2 db3 p2 d2 ->
  grows_by db1 db3 (p1 + p2) (d1 + d2).
Proof.
  intros (H1 & P1 & D1) (H2 & P2 & D2). split; [|split]; try lia.
  intros t. destruct (H1 t) as (l1 & E1), (H2 t) as (l2 & E2).
  exists (l1 ++ l2). now rewrite E2, E1, app_assoc.
Qed.

Lemma grows_by_le db db' p d p' d' :
  grows_by db db' p d -> (p <= p')%nat -> (d <= d')%nat -> grows_by db db' p' d'.
Proof. intros (H & P & D) Hp Hd. split; [|split]; auto; lia. Qed.

Section Files.
Context {rt : Runtime}.

Lemma store_single_grows it datastock_id db db' :
  store_items [it] datastock_id db = (Ok tt, db') -> grows_by db db' 1 0.
Proof.
  intros Hs. apply store_single in Hs.
  destruct (product_exists (process_id it) db).
  - subst. eapply grows_by_le; [apply grows_by_refl|lia|lia].
  - split; [|split].
    + intros t. destruct (Hs t) as (l & Hl & _). now exists l.
    + destruct (Hs Products) as (l & -> & Hn & _). rewrite length_app, Hn. simpl. lia.
    + destruct (Hs DataStocks) as (l & -> & Hn & _). rewrite length_app, Hn. simpl. lia.
Qed.

(** What one file does to the connection and the count. *)
Lemma process_file_effect loaded tr datastock_id st :
  settled (conn st) ->
  settled (conn (process_file loaded tr datastock_id st))
  /\ ((file_count (process_file loaded tr datastock_id st) = file_count st
       /\ forall t, rows t (working (conn (process_file loaded tr datastock_id st)))
                    = rows t (working (conn st)))
      \/ (file_count (process_file loaded tr datastock_id st) = file_count st + 1
          /\ exists data it,
               loaded = Ok data
               /\ fst (parse_json data tr (not_found st)) = Ok it
               /\ store_items [it] datastock_id (working (conn st))
                  = (Ok tt, working (conn (process_file loaded tr datastock_id st))))).
Proof.
  intros Hset. unfold process_file.
  destruct loaded as [data|e]; [|split; [exact Hset|left; now split]].
  destruct (parse_json data tr (not_found st)) as [[it|e] nf] eqn:Ep; cbn [conn file_count];
    [|split; [exact Hset|left; now split]].
  unfold store_data_in_db.
  destruct (store_items [it] datastock_id (working (conn st))) as [[[]|e] db] eqn:Es;
    cbn [conn file_count].
  - split; [reflexivity|]. right. split; [reflexivity|].
    exists data, it. rewrite Ep. repeat split. exact Es.
  - split; [reflexivity|]. left. split; [reflexivity|].
    intros t. unfold rollback; cbn [working committed].
    rewrite rows_rolled_back. now rewrite Hset.
Qed.

(** A file is stored whole or not at all.  Processing one file leaves no
    transaction open; the count goes up by one or stays.  When it stays
    (the file could not be loaded, parsed or stored), every table holds
    the rows it held before, also when the failing statement came after
    rows of the record had been inserted.  When it goes up, the file
    parsed to a record, and either that record was already stored and
    nothing changed, or each table received exactly the rows of the
    record. *)
Theorem file_is_stored_whole_or_not_at_all (loaded : result pyval)
    (tr : translations) (datastock_id : pyval) (st : progress) :
  settled (conn st) ->
  settled (conn (process_file loaded tr datastock_id st))
  /\ (file_count (process_file loaded tr datastock_id st) = file_count st
      \/ file_count (process_file loaded tr datastock_id st) = file_count st + 1)
  /\ (file_count (process_file loaded tr datastock_id st) = file_count st ->
      forall t, rows t (working (conn (process_file loaded tr datastock_id st)))
                = rows t (working (conn st)))
  /\ (file_count (process_file loaded tr datastock_id st) = file_count st + 1 ->
      exists data it,
        loaded = Ok data
        /\ fst (parse_json data tr (not_found st)) = Ok it
        /\ if product_exists (process_id it) (working (conn st))
           then working (conn (process_file loaded tr datastock_id st))
                = working (conn st)
           else forall t, exists l,
               rows t (working (conn (process_file loaded tr datastock_id st)))
               = rows t (working (conn st)) ++ l
               /\ List.length l = item_rows it t
               /\ Forall (belongs (process_id it) datastock_id t) l).
Proof.
  intros Hset.
  destruct (process_file_effect loaded tr datastock_id st Hset)
    as (Hs & [(Hc & Hr) | (Hc & data & it & Hl & Hp & Hst)]).
  - split; [exact Hs|]. split; [now left|]. split; [now intros _|].
    intros Hc'. lia.
  - split; [exact Hs|]. split; [now right|]. split; [intros Hc'; lia|].
    intros _. exists data, it. split; [exact Hl|]. split; [exact Hp|].
    now apply store_single in Hst.
Qed.

End Files.

(** A document whose product and exchange rows are inserted before its
    material property raises: the file is not counted and no row is
    left. *)
Lemma file_is_stored_whole_or_not_at_all_witness :
  file_count (@process_file example_runtime (Ok document_unstorable) []
                (PInt 1) (mk_progress one_datastock [] 0)) = 0
  /\ forall t,
       rows t (working (conn (@process_file example_runtime (Ok document_unstorable) []
                                (PInt 1) (mk_progress one_datastock [] 0))))
       = rows t (working one_datastock).
Proof.
  split; [vm_compute; reflexivity|].
  apply (proj1 (proj2 (proj2 (@file_is_stored_whole_or_not_at_all example_runtime
                                (Ok document_unstorable) [] (PInt 1)
                                (mk_progress one_datastock [] 0) eq_refl)))).
  vm_compute. reflexivity.
Defined.

(** ** The whole run *)

Section Run.
Context {rt : Runtime}.

Lemma process_file_grows loaded tr datastock_id st :
  settled (conn st) ->
  exists k : nat,
    (k <= 1)%nat
    /\ file_count (process_file loaded tr datastock_id st) = file_count st + Z.of_nat k
    /\ settled (conn (process_file loaded tr datastock_id st))
    /\ grows_by (working (conn st))
                (working (conn (process_file loaded tr datastock_id st))) k 0.
Proof.
  intros Hset.
  destruct (process_file_effect loaded tr datastock_id st Hset)
    as (Hs & [(Hc & Hr) | (Hc & data & it & Hl & Hp & Hst)]).
  - exists 0%nat. repeat split; auto; try lia.
    + intros t. exists []. now rewrite app_nil_r.
    + rewrite Hr. lia.
    + rewrite Hr. lia.
  - exists 1%nat. split; [lia|]. split; [lia|]. split; [exact Hs|].
    now apply store_single_grows in Hst.
Qed.

Lemma process_files_grows tr datastock_id files : forall st,
  settled (conn st) ->
  exists k : nat,
    (k <= List.length files)%nat
    /\ file_count (process_files files tr datastock_id st) = file_count st + Z.of_nat k
    /\ settled (conn (process_files files tr datastock_id st))
    /\ grows_by (working (conn st))
                (working (conn (process_files files tr datastock_id st))) k 0.
Proof.
  induction files as [|[file_name loaded] r IH]; intros st Hset; simpl.
  - exists 0%nat. repeat split; auto; try lia. apply grows_by_refl.
  - destruct (process_file_grows loaded tr datastock_id st Hset)
      as (k1 & Hk1 & Hc1 & Hs1 & Hg1).
    destruct (IH _ Hs1) as (k2 & Hk2 & Hc2 & Hs2 & Hg2).
    exists (k1 + k2)%nat. split; [lia|]. split; [lia|]. split; [exact Hs2|].
    exact (grows_by_trans _ _ _ _ _ _ _ Hg1 Hg2).
Qed.

Lemma get_or_create_datastock_grows c datastock_name datastock_uuid :
  settled c ->
  settled (snd (get_or_create_datastock c datastock_name datastock_uuid))
  /\ grows_by (working c)
       (working (snd (get_or_create_datastock c datastock_name datastock_uuid))) 0 1.
Proof.
  intros Hset. unfold get_or_create_datastock, get_or_create_datastock_among.
  destruct (find _ (rows DataStocks (working c))) as [r|].
  - split; [exact Hset|]. eapply grows_by_le; [apply grows_by_refl|lia|lia].
  - cbv zeta; cbn [working committed].
    destruct (insert_returning DataStocks _ (working c)) as [[id|e] db] eqn:Ei.
    + cbn [snd]. split; [reflexivity|]. unfold commit; cbn [working committed].
      destruct (insert_returning_datastock _ _ _ _ _ Ei) as [_ Hrows].
      split; [|split].
      * intros t. eexists. apply Hrows.
      * rewrite (Hrows Products). simpl. rewrite app_nil_r. lia.
      * rewrite (Hrows DataStocks). simpl. rewrite length_app. simpl. lia.
    + cbn [snd]. split; [reflexivity|]. unfold rollback; cbn [working committed].
      eapply grows_by_le; [apply grows_by_same|lia|lia].
      intros t. rewrite rows_rolled_back. now rewrite Hset.
Qed.

Lemma process_datastock_folder_grows folder_name listing tr st :
  settled (conn st) ->
  exists k : nat,
    (k <= List.length (json_files listing))%nat
    /\ file_count (process_datastock_folder folder_name listing tr st) = Z.of_nat k
    /\ settled (conn (process_datastock_folder folder_name listing tr st))
    /\ grows_by (working (conn st))
         (working (conn (process_datastock_folder folder_name listing tr st))) k 1.
Proof.
  intros Hset. unfold process_datastock_folder.
  destruct (extract_datastock_info folder_name) as [[datastock_name datastock_uuid]|].
  2:{ exists 0%nat. cbn [conn file_count].
      split; [lia|]. split; [reflexivity|]. split; [exact Hset|].
      eapply grows_by_le; [apply grows_by_refl|lia|lia]. }
  destruct (get_or_create_datastock_grows (conn st) datastock_name datastock_uuid Hset)
    as [Hs1 Hg1].
  destruct (get_or_create_datastock (conn st) datastock_name datastock_uuid)
    as [datastock_id c]; cbn [snd] in Hs1, Hg1.
  destruct (negb (truthy datastock_id)).
  - exists 0%nat. cbn [conn file_count].
    split; [lia|]. split; [reflexivity|]. split; [exact Hs1|exact Hg1].
  - destruct (process_files_grows tr datastock_id (json_files listing)
                (mk_progress c (not_found st) 0) Hs1) as (k & Hk & Hc & Hs & Hg).
    exists k. split; [exact Hk|]. split; [exact Hc|]. split; [exact Hs|].
    exact (grows_by_trans _ _ _ _ _ _ _ Hg1 Hg).
Qed.

Lemma process_folders_grows tr folders : forall st,
  settled (run_conn st) ->
  exists k : nat,
    (k <= list_sum (map (fun f => List.length (json_files (entry_listing f))) folders))%nat
    /\ total_processed (process_folders folders tr st) = total_processed st + Z.of_nat k
    /\ settled (run_conn (process_folders folders tr st))
    /\ grows_by (working (run_conn st))
         (working (run_conn (process_folders folders tr st))) k (List.length folders).
Proof.
  induction folders as [|folder r IH]; intros st Hset; simpl.
  - exists 0%nat. repeat split; auto; try lia. apply grows_by_refl.
  - destruct (process_datastock_folder_grows (entry_name folder) (entry_listing folder) tr
                (mk_progress (run_conn st) (run_not_found st) 0) Hset)
      as (k1 & Hk1 & Hc1 & Hs1 & Hg1).
    match goal with
    | |- context [process_folders r tr ?s] => destruct (IH s Hs1) as (k2 & Hk2 & Hc2 & Hs2 & Hg2)
    end.
    cbn [run_conn total_processed] in *.
    exists (k1 + k2)%nat. split; [lia|]. split; [lia|]. split; [exact Hs2|].
    exact (grows_by_trans _ _ _ _ _ _ _ Hg1 Hg2).
Qed.

(** A run of [store_data] on a connection without open transaction only
    adds rows: every table at the end is the table at the start followed
    by new rows, so no row that was there is changed or removed, whatever
    files fail.  The run ends without open transaction; the total it logs
    is between zero and the number of [.json] files in the [data_stock_]
    folders; it bounds the number of product rows added (it also counts
    the files that were skipped as already stored), and at most one
    datastock is added per folder. *)
Theorem run_only_adds_rows (data_dir : list dir_entry)
    (translation_file : option (list (list string))) (c : connection) :
  settled c ->
  settled (run_conn (fst (store_data data_dir translation_file c)))
  /\ 0 <= total_processed (fst (store_data data_dir translation_file c))
       <= Z.of_nat (json_file_count data_dir)
  /\ (forall t, exists l,
         rows t (working (run_conn (fst (store_data data_dir translation_file c))))
         = rows t (working c) ++ l)
  /\ Z.of_nat (List.length
                 (rows Products
                    (working (run_conn (fst (store_data data_dir translation_file c))))))
     <= Z.of_nat (List.length (rows Products (working c)))
        + total_processed (fst (store_data data_dir translation_file c))
  /\ (List.length
        (rows DataStocks
           (working (run_conn (fst (store_data data_dir translation_file c)))))
      <= List.length (rows DataStocks (working c))
         + List.length (data_folders data_dir))%nat.
Proof.
  intros Hset. unfold store_data; cbn [fst].
  fold (data_folders data_dir).
  destruct (process_folders_grows (load_translations translation_file)
              (data_folders data_dir) (mk_run c [] 0) Hset)
    as (k & Hk & Hc & Hs & Hg & Hp & Hd).
  cbn [run_conn total_processed] in *.
  split; [exact Hs|]. split; [unfold json_file_count; lia|].
  split; [exact Hg|]. split; [lia|exact Hd].
Qed.

End Run.

(** The example directory: four [.json] files are looked at, two are
    counted (the second a skip), one product row is added. *)
Lemma run_only_adds_rows_witness :
  total_processed (fst (@store_data example_runtime example_data_dir None fresh_connection)) = 2
  /\ List.length
       (rows Products
          (working (run_conn (fst (@store_data example_runtime example_data_dir None
                                     fresh_connection))))) = 1%nat
  /\ 0 <= total_processed (fst (@store_data example_runtime example_data_dir None
                                  fresh_connection))
       <= Z.of_nat (json_file_count example_data_dir).
Proof.
  split; [vm_compute; reflexivity|]. split; [vm_compute; reflexivity|].
  apply (proj1 (proj2 (@run_only_adds_rows example_runtime example_data_dir None
                         fresh_connection eq_refl))).
Defined.

(** ** The file of unresolved terms *)

Lemma filter_all {A} (p : A -> bool) l :
  (forall x, In x l -> p x = true) -> filter p l = l.
Proof.
  induction l as [|x l IH]; simpl; intros H; [reflexivity|].
  rewrite (H x) by now left. f_equal. apply IH. intros y Hy. apply H. now right.
Qed.

Section UnresolvedFile.
Context {rt : Runtime}.

Lemma parse_json_records data tr nf :
  records_untranslated tr nf (snd (parse_json data tr nf)).
Proof.
  unfold parse_json. destruct (parse_fields data) as [it|]; [|apply records_refl].
  pose proof (category_loop_records tr (classifications it) (classifications it)
                no_categories nf) as Hc.
  now destruct (category_loop _ _ tr no_categories nf) as [[st|e] nf1].
Qed.

Lemma process_file_records loaded tr datastock_id st :
  records_untranslated tr (not_found st)
    (not_found (process_file loaded tr datastock_id st)).
Proof.
  unfold process_file. destruct loaded as [data|e]; [|apply records_refl].
  pose proof (parse_json_records data tr (not_found st)) as Hp.
  destruct (parse_json data tr (not_found st)) as [[it|e] nf]; [|exact Hp].
  now destruct (store_data_in_db [it] (conn st) datastock_id) as [[[]|e] c].
Qed.

Lemma process_files_records tr datastock_id files : forall st,
  records_untranslated tr (not_found st)
    (not_found (process_files files tr datastock_id st)).
Proof.
  induction files as [|[file_name loaded] r IH]; intros st; simpl.
  - apply records_refl.
  - eapply records_trans; [apply process_file_records|apply IH].
Qed.

Lemma process_datastock_folder_records folder_name listing tr st :
  records_untranslated tr (not_found st)
    (not_found (process_datastock_folder folder_name listing tr st)).
Proof.
  unfold process_datastock_folder.
  destruct (extract_datastock_info folder_name) as [[datastock_name datastock_uuid]|];
    [|apply records_refl].
  destruct (get_or_create_datastock (conn st) datastock_name datastock_uuid)
    as [datastock_id c].
  destruct (negb (truthy datastock_id)); [apply records_refl|].
  apply (process_files_records tr datastock_id _ (mk_progress c (not_found st) 0)).
Qed.

Lemma process_folders_records tr folders : forall st,
  records_untranslated tr (run_not_found st)
    (run_not_found (process_folders folders tr st)).
Proof.
  induction folders as [|folder r IH]; intros st; simpl.
  - apply records_refl.
  - eapply records_trans; [|apply IH]. cbn [run_not_found].
    apply (process_datastock_folder_records _ _ tr
             (mk_progress (run_conn st) (run_not_found st) 0)).
Qed.

(** What [store_data] writes to [translations_not_found.txt]: the file is
    written exactly when some term was left unresolved, and what is
    written is then the unresolved terms of the whole run in the order
    they were first met, each once, none of them empty (the test [if item]
    before the write never filters anything), and none of them a term the
    dictionary translates. *)
Theorem unresolved_terms_file (data_dir : list dir_entry)
    (translation_file : option (list (list string))) (c : connection) :
  snd (store_data data_dir translation_file c)
  = match run_not_found (fst (store_data data_dir translation_file c)) with
    | [] => None
    | terms => Some terms
    end
  /\ NoDup (run_not_found (fst (store_data data_dir translation_file c)))
  /\ forall s,
       In s (run_not_found (fst (store_data data_dir translation_file c))) ->
       s <> ""
       /\ tr_lookup (normalized s) (load_translations translation_file) = None.
Proof.
  unfold store_data; cbn [fst snd].
  destruct (process_folders_records (load_translations translation_file)
              (filter (fun f => entry_is_dir f && has_prefix "data_stock_" (entry_name f))
                      data_dir) (mk_run c [] 0)) as (extra & He & Hn & Hx).
  cbn [run_not_found app] in He. rewrite He.
  split; [|split; [exact Hn|intros s Hs; split; now apply Hx]].
  destruct extra as [|s r]; [reflexivity|].
  cbn [map truthy]. f_equal. apply filter_all.
  intros x Hin. apply negb_true_iff, String.eqb_neq. now apply Hx.
Qed.

End UnresolvedFile.

(** The example directory with a dictionary that knows "Beton": the one
    term written out has no translation. *)
Lemma unresolved_terms_file_witness :
  "Mineralische Baustoffe" <> ""
  /\ tr_lookup (normalized "Mineralische Baustoffe")
       (load_translations (Some [["Beton"; "Concrete"]])) = None.
Proof.
  apply (proj2 (proj2 (@unresolved_terms_file example_runtime example_data_dir
                         (Some [["Beton"; "Concrete"]]) fresh_connection))).
  vm_compute. left. reflexivity.
Defined.

(** ** One record per entry *)

Section Entries.
Context {rt : Runtime}.

Lemma exchange_loop_each l : forall r,
  exchange_loop l = Ok r -> Forall2 (fun ex e => exchange_of ex = Ok e) l r.
Proof.
  induction l as [|ex l IH]; simpl; intros r H.
  - injection H as <-. constructor.
  - inv_bind H. injection H as <-. constructor; auto.
Qed.

Lemma lcia_loop_each l : forall r,
  lcia_loop l = Ok r -> Forall2 (fun lc e => lcia_of lc = Ok e) l r.
Proof.
  induction l as [|lc l IH]; simpl; intros r H.
  - injection H as <-. constructor.
  - inv_bind H. injection H as <-. constructor; auto.
Qed.

Lemma compliance_loop_length l : forall r,
  compliance_loop l = Ok r -> List.length r = List.length l.
Proof.
  induction l as [|c l IH]; simpl; intros r H.
  - now injection H as <-.
  - inv_bind H. injection H as <-. simpl. f_equal. auto.
Qed.

Lemma parse_fields_entries data it :
  parse_fields data = Ok it ->
  exists exs lcs cps,
    exchanges_of data = Ok exs /\ lcia_entries data = Ok lcs
    /\ compliance_entries data = Ok cps
    /\ exchange_loop exs = Ok (exchanges it)
    /\ lcia_loop lcs = Ok (lcia_results it)
    /\ compliance_loop cps = Ok (compliances it).
Proof.
  unfold parse_fields; intros H. inv_bind H.
  injection H as <-. cbn [exchanges lcia_results compliances].
  unfold exchanges_of, lcia_entries, compliance_entries.
  repeat match goal with
         | E : ?m = Ok _ |- context [?m] => rewrite E; cbn [bind]
         end.
  eauto 10.
Qed.

(** A file that parses gives one exchange record per exchange entry of the
    document and one impact record per impact entry, in document order,
    each the reading of its entry, so a stored file has exactly as many
    [Exchanges], [LCIA_Results] and [Compliances] rows as the document has
    entries.  No entry is dropped: a single entry that cannot be read makes
    the whole file fail. *)
Theorem one_record_per_entry (data : pyval) (tr : translations) (nf : list string) :
  (forall it nf',
      parse_json data tr nf = (Ok it, nf') ->
      exists exs lcs cps,
        exchanges_of data = Ok exs /\ lcia_entries data = Ok lcs
        /\ compliance_entries data = Ok cps
        /\ Forall2 (fun ex e => exchange_of ex = Ok e) exs (exchanges it)
        /\ Forall2 (fun lc l => lcia_of lc = Ok l) lcs (lcia_results it)
        /\ item_rows it Exchanges = List.length exs
        /\ item_rows it LCIA_Results = List.length lcs
        /\ item_rows it Compliances = List.length cps)
  /\ (forall exs ex,
         exchanges_of data = Ok exs -> In ex exs ->
         is_ok (exchange_of ex) = false ->
         is_ok (fst (parse_json data tr nf)) = false)
  /\ (forall lcs lc,
         lcia_entries data = Ok lcs -> In lc lcs ->
         is_ok (lcia_of lc) = false ->
         is_ok (fst (parse_json data tr nf)) = false).
Proof.
  assert (Hparsed : forall it nf',
             parse_json data tr nf = (Ok it, nf') ->
             exists exs lcs cps,
               exchanges_of data = Ok exs /\ lcia_entries data = Ok lcs
               /\ compliance_entries data = Ok cps
               /\ Forall2 (fun ex e => exchange_of ex = Ok e) exs (exchanges it)
               /\ Forall2 (fun lc l => lcia_of lc = Ok l) lcs (lcia_results it)
               /\ List.length (compliances it) = List.length cps).
  { intros it nf'. unfold parse_json.
    destruct (parse_fields data) as [it0|] eqn:Ef; [|discriminate].
    destruct (category_loop _ _ tr no_categories nf) as [[st|] nf1]; [|discriminate].
    intros [= <- _]. cbn [with_categories exchanges lcia_results compliances].
    destruct (parse_fields_entries _ _ Ef) as (exs & lcs & cps & H1 & H2 & H3 & H4 & H5 & H6).
    exists exs, lcs, cps. repeat split; auto.
    - now apply exchange_loop_each.
    - now apply lcia_loop_each.
    - now apply compliance_loop_length. }
  split; [|split].
  - intros it nf' Hp.
    destruct (Hparsed it nf' Hp) as (exs & lcs & cps & H1 & H2 & H3 & H4 & H5 & H6).
    exists exs, lcs, cps. repeat split; auto; cbn [item_rows].
    + symmetry. exact (Forall2_length H4).
    + symmetry. exact (Forall2_length H5).
  - intros exs ex Hexs Hin Hbad.
    destruct (parse_json data tr nf) as [[it|e] nf'] eqn:Hp; [|reflexivity].
    exfalso.
    destruct (Hparsed it nf' eq_refl) as (exs' & lcs & cps & H1 & _ & _ & H4 & _).
    rewrite Hexs in H1. injection H1 as <-.
    clear - H4 Hin Hbad. induction H4 as [|x e l r Hx _ IH]; [contradiction|].
    destruct Hin as [<-|Hin]; [|auto]. now rewrite Hx in Hbad.
  - intros lcs lc Hlcs Hin Hbad.
    destruct (parse_json data tr nf) as [[it|e] nf'] eqn:Hp; [|reflexivity].
    exfalso.
    destruct (Hparsed it nf' eq_refl) as (exs & lcs' & cps & _ & H2 & _ & _ & H5 & _).
    rewrite Hlcs in H2. injection H2 as <-.
    clear - H5 Hin Hbad. induction H5 as [|x e l r Hx _ IH]; [contradiction|].
    destruct Hin as [<-|Hin]; [|auto]. now rewrite Hx in Hbad.
Qed.

End Entries.

(** A document with two exchange entries, the second a bare string: the
    file fails as a whole. *)
Lemma one_record_per_entry_witness :
  is_ok (fst (@parse_json example_runtime
                (document [("UUID", PStr "ffff-0006")] (declares 0)
                   [exchange_numbered 0; PStr "oops"]) [] [])) = false.
Proof.
  apply (proj1 (proj2 (@one_record_per_entry example_runtime
                         (document [("UUID", PStr "ffff-0006")] (declares 0)
                            [exchange_numbered 0; PStr "oops"]) [] []))
           [exchange_numbered 0; PStr "oops"] (PStr "oops")).
  - reflexivity.
  - right. left. reflexivity.
  - vm_compute. reflexivity.
Defined.

(** ** Material properties *)

Lemma material_loop_step d k p r acc :
  material_of (PDict d) = Some (k, p) ->
  material_loop (PDict d :: r) acc = (acc' <- setitem k p acc ;; material_loop r acc').
Proof.
  unfold material_of, dget. cbn [material_loop getitem get bind].
  destruct (dict_lookup (PStr "name") d) as [k'|]; [|discriminate].
  destruct (dict_lookup (PStr "value") d) as [v|]; [|discriminate].
  destruct (dict_lookup (PStr "unit") d) as [u|]; [|discriminate].
  intros [= <- <-]. cbn [bind]. reflexivity.
Qed.

Lemma material_loop_spec mps :
  Forall material_entry_ok mps ->
  forall acc, string_keys acc -> NoDup (map fst acc) ->
  exists ps, material_loop mps acc = Ok ps /\ string_keys ps /\ NoDup (map fst ps) /\
             (List.length ps <= List.length acc + List.length mps)%nat /\
             forall s, dict_lookup (PStr s) ps
                       = match last_material s mps with
                         | Some p => Some p
                         | None => dict_lookup (PStr s) acc
                         end.
Proof.
  induction 1 as [|mp r Hmp Hr IH]; intros acc Hk Hn.
  - exists acc. repeat split; auto. simpl. lia.
  - unfold material_entry_ok in Hmp.
    destruct (material_of mp) as [[k p]|] eqn:Em; [|contradiction].
    destruct k as [| | | |u| |]; try contradiction.
    destruct mp as [| | | | | |d]; try discriminate.
    rewrite (material_loop_step _ _ _ _ _ Em). cbn [setitem hashable bind].
    destruct (IH (dict_set (PStr u) p acc)) as (ps & Hps & Hks & Hns & Hlen & Hl).
    + now apply dict_set_string_keys.
    + now apply dict_set_nodup.
    + exists ps. split; [exact Hps|]. split; [exact Hks|]. split; [exact Hns|]. split.
      * assert (List.length (dict_set (PStr u) p acc) <= S (List.length acc))%nat.
        { clear. induction acc as [|[k' v'] acc IH]; simpl; [lia|].
          destruct (key_eqb k' (PStr u)); simpl; lia. }
        simpl. lia.
      * intros s. rewrite Hl, dict_lookup_set by assumption.
        cbn [last_material]. rewrite Em.
        destruct (last_material s r); [reflexivity|].
        cbn [eq_str]. now destruct (String.eqb u s).
Qed.

Lemma material_loop_missing_key l1 : forall d l2 acc,
  Forall material_entry_ok l1 ->
  material_of (PDict d) = None ->
  material_loop (l1 ++ PDict d :: l2) acc = Raise KeyError.
Proof.
  induction l1 as [|mp r IH]; intros d l2 acc Hok Hnone.
  - unfold material_of in Hnone. cbn [app material_loop getitem get bind].
    destruct (dict_lookup (PStr "name") d); [|reflexivity].
    destruct (dict_lookup (PStr "value") d); [|reflexivity].
    destruct (dict_lookup (PStr "unit") d); [discriminate|reflexivity].
  - inversion Hok as [|? ? Hmp Hr]; subst.
    unfold material_entry_ok in Hmp.
    destruct (material_of mp) as [[k p]|] eqn:Em; [|contradiction].
    destruct k as [| | | |u| |]; try contradiction.
    destruct mp as [| | | | | |d0]; try discriminate.
    cbn [app]. rewrite (material_loop_step _ _ _ _ _ Em). cbn [setitem hashable bind].
    now apply IH.
Qed.

(** The material properties of a reference flow are keyed by name: the
    dict holds one entry per name (so one [Material_Properties] row is
    stored per name, not per property of the document), the entry of a
    name being the value, unit and description of the last property so
    named.  A property that lacks one of [name], [value] and [unit] raises
    [KeyError], which fails the whole file. *)
Theorem material_properties_by_name (mps : list pyval) :
  (Forall material_entry_ok mps ->
   exists ps,
     material_loop mps [] = Ok ps
     /\ NoDup (map fst ps)
     /\ (List.length ps <= List.length mps)%nat
     /\ forall s, dict_lookup (PStr s) ps = last_material s mps)
  /\ (forall l1 d l2,
         mps = l1 ++ PDict d :: l2 ->
         Forall material_entry_ok l1 ->
         material_of (PDict d) = None ->
         material_loop mps [] = Raise KeyError
         /\ forall ex, get ex "materialProperties" empty_list = Ok (PList mps) ->
                       is_ok (reference_flow_entry_of ex) = false).
Proof.
  split.
  - intros Hok.
    destruct (material_loop_spec mps Hok [] (Forall_nil _) (NoDup_nil _))
      as (ps & Hps & _ & Hn & Hlen & Hl).
    exists ps. split; [exact Hps|]. split; [exact Hn|]. split; [exact Hlen|].
    intros s. rewrite Hl. now destruct (last_material s mps).
  - intros l1 d l2 -> Hok Hnone.
    pose proof (material_loop_missing_key l1 d l2 [] Hok Hnone) as Hraise.
    split; [exact Hraise|].
    intros ex Hget. unfold reference_flow_entry_of. rewrite Hget. cbn [bind].
    destruct (get ex "flowProperties" empty_list) as [fp|]; [|reflexivity]. cbn [bind].
    destruct (iter fp) as [props|]; [|reflexivity]. cbn [bind].
    destruct (flow_property_loop props); [|reflexivity]. cbn [bind iter].
    now rewrite Hraise.
Qed.

(** Two properties named "gross density": one entry, with the value of
    the later one. *)
Lemma material_properties_by_name_witness :
  exists ps,
    material_loop
      [ obj [("name", PStr "gross density"); ("value", PStr "2400"); ("unit", PStr "kg/m^3")];
        obj [("name", PStr "grammage"); ("value", PInt 5); ("unit", PStr "kg/m^2")];
        obj [("name", PStr "gross density"); ("value", PStr "2350"); ("unit", PStr "kg/m^3")] ]
      [] = Ok ps
    /\ (List.length ps <= 3)%nat
    /\ dict_lookup (PStr "gross density") ps
       = Some (mk_material_property (PStr "2350") (PStr "kg/m^3") PNone).
Proof.
  match goal with
  | |- exists ps, material_loop ?l _ = _ /\ _ =>
      destruct (proj1 (material_properties_by_name l)) as (ps & Hps & _ & Hlen & Hl)
  end.
  - repeat (apply Forall_cons; [exact I|]). apply Forall_nil.
  - exists ps. split; [exact Hps|]. split; [exact Hlen|]. rewrite Hl. reflexivity.
Defined.

(** ** The formats column *)

Lemma strings_of_filter formats :
  forallb (fun f => negb (unjoinable f)) formats = true ->
  strings_of (filter truthy formats) = Ok (format_names formats).
Proof.
  induction formats as [|f r IH]; [reflexivity|].
  cbn [forallb filter format_names flat_map].
  intros H. apply andb_true_iff in H as [Hf Hr]. specialize (IH Hr).
  unfold unjoinable in Hf. fold (format_names r).
  destruct (truthy f) eqn:Ht.
  - destruct f as [|b|z|fl|t|l|d]; try discriminate Hf.
    simpl in Ht. apply negb_true_iff in Ht. rewrite Ht.
    cbn [strings_of]. rewrite IH. reflexivity.
  - rewrite IH. destruct f as [|b|z|fl|t|l|d]; try reflexivity.
    simpl in Ht. apply negb_false_iff in Ht. now rewrite Ht.
Qed.

Lemma strings_of_unjoinable formats :
  existsb unjoinable formats = true ->
  strings_of (filter truthy formats) = Raise TypeError.
Proof.
  induction formats as [|f r IH]; simpl; [discriminate|].
  intros H. apply orb_true_iff in H as [Hf|Hr].
  - unfold unjoinable in Hf. apply andb_true_iff in Hf as [Ht Hs].
    rewrite Ht. now destruct f.
  - specialize (IH Hr). destruct (truthy f) eqn:Ht; [|exact IH].
    destruct f; try reflexivity. simpl. now rewrite IH.
Qed.

Section Formats.
Context {rt : Runtime}.

(** The [formats] column of a product is the non-empty format names of
    the record joined by a comma and a space, the formats without a name
    left out.  A format whose name is a number, a list or an object (a
    truthy value that is not a string) makes [join] raise [TypeError]
    before any row is inserted: the record parses but cannot be stored,
    whatever the database holds. *)
Theorem formats_column (it : item) (datastock_id : pyval) :
  (existsb unjoinable (ad_formats (admin_info it)) = false ->
   exists params,
     product_params it datastock_id = Ok params
     /\ List.length params = 41%nat
     /\ column 38 params = PStr (join ", " (format_names (ad_formats (admin_info it)))))
  /\ (existsb unjoinable (ad_formats (admin_info it)) = true ->
      product_params it datastock_id = Raise TypeError
      /\ forall c,
           product_exists (process_id it) (working c) = false ->
           store_data_in_db [it] c datastock_id = (Raise TypeError, c)).
Proof.
  split.
  - intros Hno. unfold product_params, py_join.
    rewrite strings_of_filter; [cbn [bind]; eexists; repeat split|].
    clear - Hno. induction (ad_formats (admin_info it)) as [|f r IH]; [reflexivity|].
    simpl in *. apply orb_false_iff in Hno as [-> Hr]. simpl. now apply IH.
  - intros Hbad.
    assert (Hp : product_params it datastock_id = Raise TypeError).
    { unfold product_params, py_join. now rewrite strings_of_unjoinable. }
    split; [exact Hp|].
    intros c Hex. unfold store_data_in_db. cbn [store_items]. rewrite Hex.
    unfold sbind at 1. unfold insert_item. unfold sbind at 1, lift. rewrite Hp.
    now destruct c.
Qed.

End Formats.

(** The document whose second format is named by the number 5 parses,
    and its product row cannot be built. *)
Lemma formats_column_witness :
  exists it,
    record_of document_numbered_format = Some it
    /\ product_params it (PInt 1) = Raise TypeError.
Proof.
  destruct (record_of document_numbered_format) as [it|] eqn:Er;
    [|vm_compute in Er; discriminate Er].
  exists it. split; [reflexivity|].
  apply (proj2 (@formats_column example_runtime it (PInt 1))).
  vm_compute in Er. injection Er as <-. reflexivity.
Defined.

(** ** Importing a folder again *)

Lemma product_exists_grows pid db db' l :
  rows Products db' = rows Products db ++ l ->
  product_exists pid db = true -> product_exists pid db' = true.
Proof.
  unfold product_exists, has_key. intros ->. rewrite existsb_app. now intros ->.
Qed.

Lemma grows_by_no_datastock db db' p :
  grows_by db db' p 0 -> rows DataStocks db' = rows DataStocks db.
Proof.
  intros (Hg & _ & Hd). destruct (Hg DataStocks) as (l & Hl).
  rewrite Hl in *. rewrite length_app in Hd.
  destruct l; [now rewrite app_nil_r|simpl in Hd; lia].
Qed.

Section Again.
Context {rt : Runtime}.

Lemma datastock_found_after c c1 datastock_name datastock_uuid v :
  get_or_create_datastock c datastock_name datastock_uuid = (v, c1) ->
  v <> PNone ->
  exists r, datastock_row datastock_uuid (working c1) = Some r /\ column 0 r = v.
Proof.
  unfold get_or_create_datastock, get_or_create_datastock_among, datastock_row.
  destruct (find _ (rows DataStocks (working c))) as [r|] eqn:Ef.
  - intros [= <- <-] _. now exists r.
  - cbv zeta; cbn [working committed].
    destruct (insert_returning DataStocks _ (working c)) as [[id|e] db] eqn:Ei.
    2:{ intros [= <- _] Hv. now contradiction Hv. }
    intros [= <- <-] _.
    destruct (insert_returning_datastock _ _ _ _ _ Ei) as [_ Hrows].
    unfold commit; cbn [working committed].
    rewrite (Hrows DataStocks). cbn [table_eqb].
    eexists. split; [apply (find_last_only _ _ _ Ef)|reflexivity].
    simpl. apply String.eqb_refl.
Qed.

Lemma datastock_found_again c datastock_name datastock_uuid r :
  datastock_row datastock_uuid (working c) = Some r ->
  get_or_create_datastock c datastock_name datastock_uuid = (column 0 r, c).
Proof.
  unfold get_or_create_datastock, get_or_create_datastock_among, datastock_row.
  now intros ->.
Qed.

Lemma process_files_all_counted tr datastock_id files : forall st,
  settled (conn st) ->
  file_count (process_files files tr datastock_id st)
  = file_count st + Z.of_nat (List.length files) ->
  Forall (already_stored tr (working (conn (process_files files tr datastock_id st))))
         files.
Proof.
  induction files as [|[file_name loaded] r IH]; intros st Hset Hcount; [constructor|].
  cbn [process_files] in *.
  destruct (process_file_grows loaded tr datastock_id st Hset)
    as (k1 & Hk1 & Hc1 & Hs1 & Hg1).
  destruct (process_files_grows tr datastock_id r _ Hs1) as (k2 & Hk2 & Hc2 & Hs2 & Hg2).
  cbn [List.length] in Hcount.
  assert (k1 = 1%nat /\ k2 = List.length r) as [-> ->] by lia.
  constructor.
  - destruct (process_file_effect loaded tr datastock_id st Hset)
      as (_ & [(Hc & _) | (_ & data & it & Hl & Hp & Hst)]); [lia|].
    exists data, it. split; [exact Hl|]. split.
    + intros nf. now rewrite (parse_json_fst data tr nf (not_found st)).
    + apply store_items_once in Hst as [Hex _].
      destruct Hg2 as (Hg2 & _). destruct (Hg2 Products) as (l & Hrows).
      exact (product_exists_grows _ _ _ _ Hrows Hex).
  - apply IH; [exact Hs1|lia].
Qed.

Lemma process_files_all_skipped tr datastock_id files : forall st,
  settled (conn st) ->
  Forall (already_stored tr (working (conn st))) files ->
  conn (process_files files tr datastock_id st) = conn st
  /\ file_count (process_files files tr datastock_id st)
     = file_count st + Z.of_nat (List.length files).
Proof.
  induction files as [|[file_name loaded] r IH]; intros st Hset Hall.
  - simpl. split; [reflexivity|lia].
  - inversion Hall as [|? ? (data & it & Hl & Hp & Hex) Hr]; subst.
    cbn [snd] in Hl. subst loaded. cbn [process_files].
    assert (Hfile : process_file (Ok data) tr datastock_id st
                    = mk_progress (conn st)
                        (snd (parse_json data tr (not_found st)))
                        (file_count st + 1)).
    { unfold process_file. specialize (Hp (not_found st)).
      destruct (parse_json data tr (not_found st)) as [res nf']. cbn [fst snd] in *.
      subst res. unfold store_data_in_db.
      rewrite (store_items_skip it [] datastock_id _ Hex). cbn [store_items sret].
      unfold commit; cbn [working committed].
      destruct (conn st) as [cm wk]. unfold settled in Hset. cbn in *. now subst. }
    rewrite Hfile.
    destruct (IH (mk_progress (conn st) (snd (parse_json data tr (not_found st)))
                    (file_count st + 1))) as [Hc Hn]; [exact Hset|exact Hr|].
    cbn [conn file_count List.length] in *. split; [exact Hc|]. lia.
Qed.

(** Importing a folder again.  When every [.json] file of a folder was
    counted, processing the folder a second time on the connection the
    first pass left, whatever terms are unresolved by then, counts every
    file again and changes nothing at all: the datastock is found, not
    created, and every file is skipped as already stored. *)
Theorem complete_import_is_idempotent (folder_name : string)
    (listing : list (string * result pyval)) (tr : translations) (st : progress) :
  settled (conn st) ->
  json_files listing <> [] ->
  file_count (process_datastock_folder folder_name listing tr st)
  = Z.of_nat (List.length (json_files listing)) ->
  forall nf n,
    conn (process_datastock_folder folder_name listing tr
            (mk_progress (conn (process_datastock_folder folder_name listing tr st)) nf n))
    = conn (process_datastock_folder folder_name listing tr st)
    /\ file_count (process_datastock_folder folder_name listing tr
                     (mk_progress (conn (process_datastock_folder folder_name listing tr st))
                        nf n))
       = file_count (process_datastock_folder folder_name listing tr st).
Proof.
  intros Hset Hne Hcount nf n.
  assert (Hpos : 0 < Z.of_nat (List.length (json_files listing))).
  { destruct (json_files listing); [contradiction|simpl; lia]. }
  unfold process_datastock_folder in *.
  fold (json_files listing) in *.
  destruct (extract_datastock_info folder_name) as [[datastock_name datastock_uuid]|];
    [|cbn [file_count] in Hcount; lia].
  destruct (get_or_create_datastock_grows (conn st) datastock_name datastock_uuid Hset)
    as [Hs1 _].
  destruct (get_or_create_datastock (conn st) datastock_name datastock_uuid)
    as [datastock_id c1] eqn:Eg. cbn [snd] in Hs1.
  destruct (truthy datastock_id) eqn:Ht; cbn [negb] in *;
    [|cbn [file_count] in Hcount; lia].
  assert (Hv : datastock_id <> PNone) by (intros ->; discriminate Ht).
  destruct (datastock_found_after _ _ _ _ _ Eg Hv) as (r & Hrow & Hid).
  set (st0 := mk_progress c1 (not_found st) 0) in *.
  destruct (process_files_grows tr datastock_id (json_files listing) st0 Hs1)
    as (k & _ & _ & Hs2 & Hg).
  pose proof (process_files_all_counted tr datastock_id (json_files listing) st0 Hs1)
    as Hall. cbn [file_count st0] in Hall. specialize (Hall Hcount).
  cbn [conn].
  assert (Hrow' : datastock_row datastock_uuid
                    (working (conn (process_files (json_files listing) tr datastock_id st0)))
                  = Some r).
  { unfold datastock_row in *. subst st0. cbn [conn] in Hg.
    now rewrite (grows_by_no_datastock _ _ _ Hg). }
  rewrite (datastock_found_again _ datastock_name _ _ Hrow'), Hid, Ht. cbn [negb].
  destruct (process_files_all_skipped tr datastock_id (json_files listing)
              (mk_progress (conn (process_files (json_files listing) tr datastock_id st0))
                 nf 0) Hs2 Hall) as [Hc Hn].
  cbn [conn file_count not_found] in *. split; [exact Hc|]. lia.
Qed.

End Again.

(** The folder of the scenario with the well-formed document in two
    files: both are counted, and a second pass leaves the connection as
    it is. *)
Lemma complete_import_is_idempotent_witness :
  conn (@process_datastock_folder example_runtime scenario_folder
          [("a.json", Ok well_formed_document); ("b.json", Ok well_formed_document)] []
          (mk_progress
             (conn (run_folder [("a.json", Ok well_formed_document);
                                ("b.json", Ok well_formed_document)]))
             ["Beton"] 7))
  = conn (run_folder [("a.json", Ok well_formed_document);
                      ("b.json", Ok well_formed_document)]).
Proof.
  apply (@complete_import_is_idempotent example_runtime scenario_folder
           [("a.json", Ok well_formed_document); ("b.json", Ok well_formed_document)] []
           (mk_progress fresh_connection [] 0)).
  - reflexivity.
  - discriminate.
  - vm_compute. reflexivity.
Defined.

(** ** The product key *)

Lemma underscore_split u1 : forall u2 v1 v2,
  no_underscore u1 = true -> no_underscore u2 = true ->
  (u1 ++ "_" ++ v1 = u2 ++ "_" ++ v2)%string -> u1 = u2 /\ v1 = v2.
Proof.
  unfold no_underscore.
  induction u1 as [|c u1 IH]; intros [|c2 u2] v1 v2; simpl; intros H1 H2 E.
  - injection E as ->. now split.
  - injection E as <- _. discriminate H2.
  - injection E as -> _. discriminate H1.
  - injection E as -> E.
    apply andb_true_iff in H1 as [_ H1]. apply andb_true_iff in H2 as [_ H2].
    destruct (IH _ _ _ H1 H2 E) as [-> ->]. now split.
Qed.

Section ProductKey.
Context {rt : Runtime}.

(** The key under which a record is stored, [<uuid>_<version>],
    identifies the pair as long as the UUIDs hold no underscore: two files
    whose UUIDs and versions are strings then get the same key exactly
    when they agree on both.  Without that condition they need not: a
    UUID [u_v] with version [w] and a UUID [u] with version [v_w] share
    their key, so the second of two such files is skipped as already
    stored. *)
Theorem product_key_identifies (data1 data2 : pyval) (tr : translations)
    (nf1 nf2 nf1' nf2' : list string) (it1 it2 : item) :
  parse_json data1 tr nf1 = (Ok it1, nf1') ->
  parse_json data2 tr nf2 = (Ok it2, nf2') ->
  (forall u1 v1 u2 v2,
      uuid it1 = PStr u1 -> version it1 = PStr v1 ->
      uuid it2 = PStr u2 -> version it2 = PStr v2 ->
      no_underscore u1 = true -> no_underscore u2 = true ->
      (process_id it1 = process_id it2 <-> u1 = u2 /\ v1 = v2))
  /\ (forall u v w,
         uuid it1 = PStr (u ++ "_" ++ v) -> version it1 = PStr w ->
         uuid it2 = PStr u -> version it2 = PStr (v ++ "_" ++ w) ->
         process_id it1 = process_id it2
         /\ forall datastock_id db db',
              store_items [it1] datastock_id db = (Ok tt, db') ->
              store_items [it2] datastock_id db' = (Ok tt, db')).
Proof.
  intros Hp1 Hp2.
  assert (K1 : process_id it1
               = (py_str (uuid it1) ++ "_" ++ py_str (version it1))%string).
  { destruct (parse_json_fields _ _ _ _ _ Hp1) as (a1 & Ha1 & Hu1 & Hv1 & Hk1).
    destruct (parse_fields_inv _ _ Ha1) as (_ & _ & _ & Hid1 & _).
    now rewrite Hk1, Hid1, Hu1, Hv1. }
  assert (K2 : process_id it2
               = (py_str (uuid it2) ++ "_" ++ py_str (version it2))%string).
  { destruct (parse_json_fields _ _ _ _ _ Hp2) as (a2 & Ha2 & Hu2 & Hv2 & Hk2).
    destruct (parse_fields_inv _ _ Ha2) as (_ & _ & _ & Hid2 & _).
    now rewrite Hk2, Hid2, Hu2, Hv2. }
  split.
  - intros u1 v1 u2 v2 E1 E2 E3 E4 Hn1 Hn2.
    rewrite K1, K2, E1, E2, E3, E4. cbn [py_str]. split.
    + now apply underscore_split.
    + now intros [-> ->].
  - intros u v w E1 E2 E3 E4.
    assert (Hid : process_id it1 = process_id it2).
    { rewrite K1, K2, E1, E2, E3, E4. cbn [py_str]. now rewrite append_assoc. }
    split; [exact Hid|].
    intros datastock_id db db' Hs.
    apply store_items_once in Hs as [Hex _].
    rewrite store_items_skip; [reflexivity|]. now rewrite <- Hid.
Qed.

End ProductKey.

(** The well-formed document and a bare document with its UUID and
    version: one key. *)
Lemma product_key_identifies_witness :
  exists it1 it2,
    fst (@parse_json example_runtime well_formed_document [] []) = Ok it1
    /\ fst (@parse_json example_runtime
              (document [("UUID", PStr "aaaa-0001")] (declares 0) []) [] []) = Ok it2
    /\ process_id it1 = process_id it2.
Proof.
  destruct (@parse_json example_runtime well_formed_document [] [])
    as [[it1|e1] nf1] eqn:E1; [|vm_compute in E1; discriminate E1].
  destruct (@parse_json example_runtime
              (document [("UUID", PStr "aaaa-0001")] (declares 0) []) [] [])
    as [[it2|e2] nf2] eqn:E2; [|vm_compute in E2; discriminate E2].
  exists it1, it2. split; [reflexivity|]. split; [reflexivity|].
  apply (proj1 (@product_key_identifies example_runtime _ _ _ _ _ _ _ it1 it2 E1 E2)
           "aaaa-0001" "00.01.000" "aaaa-0001" "00.01.000");
    try reflexivity; try (split; reflexivity).
  all: vm_compute in E1, E2; injection E1 as <- _; injection E2 as <- _; reflexivity.
Defined.

(** ** Data sources and reviewers *)

Lemma strings_of_inv l : forall names,
  strings_of l = Ok names -> l = map PStr names.
Proof.
  induction l as [|x l IH]; simpl; intros names H.
  - now injection H as <-.
  - destruct x; try discriminate. inv_bind H. injection H as <-.
    simpl. f_equal. now apply IH.
Qed.

Lemma short_descriptions_first d r x others v :
  dict_lookup (PStr "shortDescription") d = Some (PList (PDict x :: others)) ->
  dict_lookup (PStr "value") x = Some v ->
  short_descriptions (PDict d :: r) = (t <- short_descriptions r ;; Ok (v :: t)).
Proof.
  intros Hd Hx. cbn [short_descriptions get getitem bind]. rewrite Hd.
  cbn [truthy bind first getitem]. now rewrite Hx.
Qed.

Lemma short_descriptions_skip d r :
  match dict_lookup (PStr "shortDescription") d with
  | Some c => truthy c = false
  | None => True
  end ->
  short_descriptions (PDict d :: r) = short_descriptions r.
Proof.
  cbn [short_descriptions get bind].
  destruct (dict_lookup (PStr "shortDescription") d) as [c|]; [now intros ->|reflexivity].
Qed.

Section Sources.
Context {rt : Runtime}.

Lemma parse_fields_sources data it :
  parse_fields data = Ok it ->
  exists srcs descs rvs,
    source_entries data = Ok srcs
    /\ short_descriptions srcs = Ok descs
    /\ py_join ", " descs = Ok (sources it)
    /\ review_entries data = Ok rvs
    /\ review_loop rvs = Ok (reviews it).
Proof.
  unfold parse_fields; intros H. inv_bind H.
  injection H as <-. cbn [sources reviews].
  unfold source_entries, review_entries.
  repeat match goal with
         | E : ?m = Ok _ |- context [?m] => rewrite E; cbn [bind]
         end.
  eauto 10.
Qed.

Lemma review_loop_each rvs : forall rs,
  review_loop rvs = Ok rs ->
  exists ess, reviewer_entries rvs = Ok ess
              /\ Forall2 (fun es reviewers => short_descriptions es = Ok reviewers) ess rs.
Proof.
  induction rvs as [|r rest IH]; simpl; intros rs H.
  - injection H as <-. exists []. split; [reflexivity|constructor].
  - inv_bind H. injection H as <-.
    destruct (IH _ eq_refl) as (ess & Hess & Hall).
    cbn [bind]. rewrite E0. cbn [bind]. rewrite Hess. cbn [bind].
    eexists. split; [reflexivity|]. constructor; auto.
Qed.

(** The [sources] column and the reviewers.  Both are read with the same
    expression: of each entry that has a non-empty [shortDescription], the
    value of the first description, the other descriptions and the entries
    without description being passed over.  The sources are then joined by
    a comma and a space, so every value must be a string: a source whose
    first description has a null value fails the whole file, while a
    reviewer with a null value is kept and stored as NULL. *)
Theorem sources_are_joined_descriptions (data : pyval) (tr : translations)
    (nf : list string) :
  (forall it nf',
      parse_json data tr nf = (Ok it, nf') ->
      (exists srcs names,
          source_entries data = Ok srcs
          /\ short_descriptions srcs = Ok (map PStr names)
          /\ sources it = join ", " names)
      /\ exists rvs ess,
           review_entries data = Ok rvs
           /\ reviewer_entries rvs = Ok ess
           /\ Forall2 (fun es reviewers => short_descriptions es = Ok reviewers)
                      ess (reviews it))
  /\ (forall srcs descs,
         source_entries data = Ok srcs ->
         short_descriptions srcs = Ok descs ->
         forallb is_str descs = false ->
         is_ok (fst (parse_json data tr nf)) = false)
  /\ (forall d r x others v,
         dict_lookup (PStr "shortDescription") d = Some (PList (PDict x :: others)) ->
         dict_lookup (PStr "value") x = Some v ->
         short_descriptions (PDict d :: r) = (t <- short_descriptions r ;; Ok (v :: t)))
  /\ (forall d r,
         match dict_lookup (PStr "shortDescription") d with
         | Some c => truthy c = false
         | None => True
         end ->
         short_descriptions (PDict d :: r) = short_descriptions r).
Proof.
  assert (Hparsed : forall it nf',
             parse_json data tr nf = (Ok it, nf') ->
             (exists srcs names,
                 source_entries data = Ok srcs
                 /\ short_descriptions srcs = Ok (map PStr names)
                 /\ sources it = join ", " names)
             /\ exists rvs ess,
                  review_entries data = Ok rvs
                  /\ reviewer_entries rvs = Ok ess
                  /\ Forall2 (fun es reviewers => short_descriptions es = Ok reviewers)
                             ess (reviews it)).
  { intros it nf'. unfold parse_json.
    destruct (parse_fields data) as [it0|] eqn:Ef; [|discriminate].
    destruct (category_loop _ _ tr no_categories nf) as [[st|] nf1]; [|discriminate].
    intros [= <- _]. cbn [with_categories sources reviews].
    destruct (parse_fields_sources _ _ Ef) as (srcs & descs & rvs & H1 & H2 & H3 & H4 & H5).
    split.
    - unfold py_join in H3. destruct (strings_of descs) as [names|] eqn:Es; [|discriminate].
      cbn [bind] in H3. injection H3 as H3.
      apply strings_of_inv in Es. subst descs. now exists srcs, names.
    - destruct (review_loop_each _ _ H5) as (ess & H6 & H7). now exists rvs, ess. }
  split; [exact Hparsed|]. split; [|split].
  - intros srcs descs Hs Hd Hbad.
    destruct (parse_json data tr nf) as [[it|e] nf'] eqn:Hp; [|reflexivity].
    exfalso.
    destruct (Hparsed it nf' eq_refl) as ((srcs' & names & H1 & H2 & _) & _).
    rewrite Hs in H1. injection H1 as <-. rewrite Hd in H2. injection H2 as ->.
    clear - Hbad. induction names; simpl in Hbad; [discriminate|auto].
  - intros d r x others v. apply short_descriptions_first.
  - intros d r. apply short_descriptions_skip.
Qed.

End Sources.

(** A null description value: as a data source it fails the file, as a
    reviewer it is kept. *)
Lemma sources_are_joined_descriptions_witness :
  is_ok (fst (@parse_json example_runtime document_null_source [] [])) = false
  /\ exists it, record_of document_null_reviewer = Some it /\ reviews it = [[PNone]].
Proof.
  split.
  - apply (proj1 (proj2 (@sources_are_joined_descriptions example_runtime
                           document_null_source [] []))
             [obj [("shortDescription", PList [obj [("value", PNone)]])]] [PNone]);
      reflexivity.
  - destruct (record_of document_null_reviewer) as [it|] eqn:Er;
      [|vm_compute in Er; discriminate Er].
    exists it. split; [reflexivity|].
    vm_compute in Er. injection Er as <-. reflexivity.
Defined.

(** ** Module amounts and their parent *)

Lemma sbind_ok {A B} (m : stm A) (k : A -> stm B) db b db' :
  sbind m k db = (Ok b, db') ->
  exists a db1, m db = (Ok a, db1) /\ k a db1 = (Ok b, db').
Proof.
  unfold sbind. destruct (m db) as [[a|e] db1]; [|discriminate]. eauto.
Qed.

Lemma keeps_sret {A} f (a : A) : keeps f (sret a).
Proof. now intros db. Qed.

Lemma keeps_lift {A} f (m : result A) : keeps f (lift m).
Proof. now intros db. Qed.

Lemma keeps_sbind {A B} f (m : stm A) (k : A -> stm B) :
  keeps f m -> (forall a, keeps f (k a)) -> keeps f (sbind m k).
Proof.
  intros Hm Hk db. unfold sbind. specialize (Hm db).
  destruct (m db) as [[a|e] db1]; simpl in *; [|exact Hm].
  now rewrite Hk.
Qed.

Lemma keeps_for_each {A} f (g : A -> stm unit) l :
  (forall a, keeps f (g a)) -> keeps f (for_each g l).
Proof.
  intros Hg. induction l as [|x r IH]; simpl.
  - apply keeps_sret.
  - apply keeps_sbind; auto.
Qed.

Lemma view_add_row f t r db :
  table_eqb t (parent_table f) = false -> table_eqb t (child_table f) = false ->
  view f (add_row t r db) = view f db.
Proof.
  intros Hp Hc. unfold view.
  rewrite !rows_add_row_other by assumption. now destruct db, f, t.
Qed.

Lemma view_nextval f t db :
  table_eqb t (parent_table f) = false ->
  view f (snd (nextval t db)) = view f db.
Proof. destruct db, f, t; simpl; intros H; try discriminate H; reflexivity. Qed.

Section Parents.
Context {rt : Runtime}.

Lemma keeps_insert f t params :
  table_eqb t (parent_table f) = false -> table_eqb t (child_table f) = false ->
  keeps f (insert t params).
Proof.
  intros Hp Hc db. unfold insert.
  destruct (adapts t params && constraints t params db); simpl; [|reflexivity].
  now apply view_add_row.
Qed.

Lemma keeps_insert_returning f t params :
  table_eqb t (parent_table f) = false -> table_eqb t (child_table f) = false ->
  keeps f (insert_returning t params).
Proof.
  intros Hp Hc db. unfold insert_returning.
  pose proof (view_nextval f t db Hp) as Hn.
  destruct (nextval t db) as [id db1]; simpl in Hn.
  destruct (adapts t params && constraints t (PInt id :: params) db1); simpl;
    [|exact Hn].
  now rewrite view_add_row.
Qed.

Lemma keeps_module_amounts f t parent ma :
  table_eqb t (parent_table f) = false -> table_eqb t (child_table f) = false ->
  keeps f (store_module_amounts t parent ma).
Proof.
  intros Hp Hc. apply keeps_for_each. intros kv. now apply keeps_insert.
Qed.

Lemma store_module_amounts_seq t parent ma : forall db db',
  store_module_amounts t parent ma db = (Ok tt, db') ->
  forall t', table_eqb t t' = false ->
             rows t' db' = rows t' db.
Proof.
  unfold store_module_amounts.
  induction ma as [|kv r IH]; intros db db'; simpl.
  - now intros [= <-].
  - unfold sbind at 1, insert at 1.
    destruct (adapts t _ && constraints t _ db); [|discriminate].
    intros Hr t' Ht. rewrite (IH _ _ Hr t' Ht). now apply rows_add_row_other.
Qed.

Lemma store_module_amounts_seqs t parent ma : forall db db',
  store_module_amounts t parent ma db = (Ok tt, db') ->
  seq_exchange db' = seq_exchange db /\ seq_lcia db' = seq_lcia db.
Proof.
  unfold store_module_amounts.
  induction ma as [|kv r IH]; intros db db'; simpl.
  - now intros [= <-].
  - unfold sbind at 1, insert at 1.
    destruct (adapts t _ && constraints t _ db); [|discriminate].
    intros Hr. destruct (IH _ _ Hr) as [-> ->]. now destruct db, t.
Qed.

Lemma store_exchanges_rows pid l : forall db db',
  for_each (store_exchange pid) l db = (Ok tt, db') ->
  view ExchangeFamily db'
  = (rows Exchanges db ++ exchange_rows pid (seq_exchange db) l,
     rows Exchange_ModuleAmounts db ++ exchange_amount_rows (seq_exchange db) l,
     seq_exchange db + Z.of_nat (List.length l)).
Proof.
  induction l as [|e r IH]; intros db db'.
  - simpl. intros [= <-]. unfold view; simpl. now rewrite !app_nil_r, Z.add_0_r.
  - cbn [for_each]. intros H.
    apply sbind_ok in H as ([] & db2 & He & Hr).
    unfold store_exchange in He.
    apply sbind_ok in He as (id & db1 & Hi & Hm).
    assert (Hins : id = seq_exchange db + 1
                   /\ rows Exchanges db1
                      = rows Exchanges db ++ [exchange_row pid id e]
                   /\ rows Exchange_ModuleAmounts db1 = rows Exchange_ModuleAmounts db
                   /\ seq_exchange db1 = seq_exchange db + 1).
    { unfold insert_returning in Hi.
      destruct db as [ds pr cl ex em lc lm rv cp fp mp s1 s2 s3]; simpl in *.
      destruct (_ && _); [|discriminate]. injection Hi as <- <-. now simpl. }
    destruct Hins as (-> & Hex & Hem & Hseq).
    pose proof (store_module_amounts_rows rt _ _ _ _ _ Hm) as Hrows.
    pose proof (store_module_amounts_seq _ _ _ _ _ Hm Exchanges eq_refl) as Hsame.
    destruct (store_module_amounts_seqs _ _ _ _ _ Hm) as [Hs2 _].
    rewrite (IH _ _ Hr). cbn [exchange_rows exchange_amount_rows List.length].
    rewrite Hsame, Hrows, Hs2, Hex, Hem, Hseq, <- !app_assoc. simpl.
    f_equal. lia.
Qed.

Lemma store_lcias_rows pid l : forall db db',
  for_each (store_lcia pid) l db = (Ok tt, db') ->
  view LciaFamily db'
  = (rows LCIA_Results db ++ lcia_rows pid (seq_lcia db) l,
     rows LCIA_ModuleAmounts db ++ lcia_amount_rows (seq_lcia db) l,
     seq_lcia db + Z.of_nat (List.length l)).
Proof.
  induction l as [|e r IH]; intros db db'.
  - simpl. intros [= <-]. unfold view; simpl. now rewrite !app_nil_r, Z.add_0_r.
  - cbn [for_each]. intros H.
    apply sbind_ok in H as ([] & db2 & He & Hr).
    unfold store_lcia in He.
    apply sbind_ok in He as (id & db1 & Hi & Hm).
    assert (Hins : id = seq_lcia db + 1
                   /\ rows LCIA_Results db1
                      = rows LCIA_Results db ++ [lcia_row pid id e]
                   /\ rows LCIA_ModuleAmounts db1 = rows LCIA_ModuleAmounts db
                   /\ seq_lcia db1 = seq_lcia db + 1).
    { unfold insert_returning in Hi.
      destruct db as [ds pr cl ex em lc lm rv cp fp mp s1 s2 s3]; simpl in *.
      destruct (_ && _); [|discriminate]. injection Hi as <- <-. now simpl. }
    destruct Hins as (-> & Hex & Hem & Hseq).
    pose proof (store_module_amounts_rows rt _ _ _ _ _ Hm) as Hrows.
    pose proof (store_module_amounts_seq _ _ _ _ _ Hm LCIA_Results eq_refl) as Hsame.
    destruct (store_module_amounts_seqs _ _ _ _ _ Hm) as [_ Hs3].
    rewrite (IH _ _ Hr). cbn [lcia_rows lcia_amount_rows List.length].
    rewrite Hsame, Hrows, Hs3, Hex, Hem, Hseq, <- !app_assoc. simpl.
    f_equal. lia.
Qed.

Lemma keeps_store_exchanges pid l : keeps LciaFamily (for_each (store_exchange pid) l).
Proof.
  apply keeps_for_each. intros e. unfold store_exchange.
  apply keeps_sbind; [now apply keeps_insert_returning|].
  intros id. now apply keeps_module_amounts.
Qed.

Lemma keeps_store_lcias pid l : keeps ExchangeFamily (for_each (store_lcia pid) l).
Proof.
  apply keeps_for_each. intros e. unfold store_lcia.
  apply keeps_sbind; [now apply keeps_insert_returning|].
  intros id. now apply keeps_module_amounts.
Qed.

Lemma keeps_rest f pid (it : item) :
  keeps f
    (for_each (fun reviewers : list pyval =>
                 for_each (fun reviewer => insert Reviews [pid; reviewer; PNone; PNone])
                          reviewers) (reviews it) ;;;
     for_each (fun system : dict =>
                 insert Compliances [pid; dget system "de"; dget system "en"; PNone])
              (compliances it) ;;;
     for_each (store_reference_flow pid) (reference_flow it)).
Proof.
  repeat first
    [ apply keeps_sbind; [|intros ?]
    | apply keeps_for_each; intros ?
    | apply keeps_insert; [now destruct f|now destruct f]
    | apply keeps_lift
    | unfold store_reference_flow ].
Qed.

(** The rows of the exchanges and impact results of a stored record, with
    their module amounts.  The exchanges of a new record are stored in the
    order of the record under consecutive numbers, starting after the last
    number the sequence handed out, and the module amounts of each
    exchange are stored under the number of that exchange, right behind
    those of the exchange before it; likewise for the impact results.  So
    every module amount is attached to the exchange or impact result it
    was read from. *)
Theorem amounts_follow_their_parent (it : item) (datastock_id : pyval)
    (c c1 : connection) :
  store_data_in_db [it] c datastock_id = (Ok tt, c1) ->
  product_exists (process_id it) (working c) = false ->
  view ExchangeFamily (working c1)
  = (rows Exchanges (working c)
       ++ exchange_rows (PStr (process_id it)) (seq_exchange (working c)) (exchanges it),
     rows Exchange_ModuleAmounts (working c)
       ++ exchange_amount_rows (seq_exchange (working c)) (exchanges it),
     seq_exchange (working c) + Z.of_nat (List.length (exchanges it)))
  /\ view LciaFamily (working c1)
     = (rows LCIA_Results (working c)
          ++ lcia_rows (PStr (process_id it)) (seq_lcia (working c)) (lcia_results it),
        rows LCIA_ModuleAmounts (working c)
          ++ lcia_amount_rows (seq_lcia (working c)) (lcia_results it),
        seq_lcia (working c) + Z.of_nat (List.length (lcia_results it))).
Proof.
  unfold store_data_in_db.
  destruct (store_items [it] datastock_id (working c)) as [[[]|e] db] eqn:Es;
    [|discriminate].
  intros [= <-] Hex. cbn [working commit].
  cbn [store_items] in Es. rewrite Hex in Es.
  apply sbind_ok in Es as ([] & db5 & Hitem & Hend). injection Hend as <-.
  unfold insert_item in Hitem.
  apply sbind_ok in Hitem as (params & db0 & Hpar & Hitem).
  injection Hpar as Hpar <-.
  apply sbind_ok in Hitem as ([] & db1 & Hprod & Hitem).
  apply sbind_ok in Hitem as ([] & db2 & Hclass & Hitem).
  apply sbind_ok in Hitem as ([] & db3 & Hexs & Hitem).
  apply sbind_ok in Hitem as ([] & db4 & Hlcs & Hrest).
  assert (Hfront : forall f, view f db2 = view f (working c)).
  { intros f.
    pose proof (keeps_insert f Products params ltac:(now destruct f)
                  ltac:(now destruct f) (working c)) as H1.
    rewrite Hprod in H1. cbn [snd] in H1. rewrite <- H1.
    match type of Hclass with
    | ?m _ = _ =>
        assert (Hk : keeps f m)
          by (apply keeps_for_each; intros ?; apply keeps_insert; now destruct f)
    end.
    specialize (Hk db1). rewrite Hclass in Hk. exact Hk. }
  assert (Hback : forall f, view f db5 = view f db4).
  { intros f. pose proof (keeps_rest f (PStr (process_id it)) it db4) as Hk.
    rewrite Hrest in Hk. exact Hk. }
  pose proof (store_exchanges_rows _ _ _ _ Hexs) as He.
  pose proof (store_lcias_rows _ _ _ _ Hlcs) as Hl.
  pose proof (keeps_store_exchanges (PStr (process_id it)) (exchanges it) db2) as Hke.
  rewrite Hexs in Hke. cbn [snd] in Hke.
  pose proof (keeps_store_lcias (PStr (process_id it)) (lcia_results it) db3) as Hkl.
  rewrite Hlcs in Hkl. cbn [snd] in Hkl.
  pose proof (Hfront ExchangeFamily) as F1. pose proof (Hfront LciaFamily) as F2.
  unfold view in F1, F2. cbn [parent_table child_table seq_of] in F1, F2.
  injection F1 as F1a F1b F1c. injection F2 as F2a F2b F2c.
  split.
  - rewrite Hback, Hkl, He. cbn [rows]. now rewrite F1a, F1b, F1c.
  - rewrite Hback, Hl.
    unfold view in Hke. cbn [parent_table child_table seq_of] in Hke.
    injection Hke as K1 K2 K3. cbn [rows].
    now rewrite K1, K2, K3, F2a, F2b, F2c.
Qed.

End Parents.

(** The well-formed document stored into a database that holds its
    datastock: its impact result gets the number 1, and so does its module
    amount. *)
Lemma amounts_follow_their_parent_witness :
  exists it c1,
    record_of well_formed_document = Some it
    /\ @store_data_in_db example_runtime [it] one_datastock (PInt 1) = (Ok tt, c1)
    /\ view LciaFamily (working c1)
       = (lcia_rows (PStr (process_id it)) 0 (lcia_results it),
          lcia_amount_rows 0 (lcia_results it), 1).
Proof.
  destruct (record_of well_formed_document) as [it|] eqn:Er;
    [|vm_compute in Er; discriminate Er].
  destruct (@store_data_in_db example_runtime [it] one_datastock (PInt 1))
    as [[[]|e] c1] eqn:Es.
  - exists it, c1. split; [reflexivity|]. split; [exact Es|].
    rewrite (proj2 (@amounts_follow_their_parent example_runtime it (PInt 1)
                      one_datastock c1 Es eq_refl)).
    vm_compute in Er. injection Er as <-. reflexivity.
  - exfalso. vm_compute in Er. injection Er as <-. vm_compute in Es. discriminate Es.
Defined.
